(** * Timber beam checks (EN 1995-1-1 / EN 1995-1-2): a shallow embedding

    The Python sources [src/materials.py], [src/sections.py], [src/loads.py],
    [src/timber_check.py] and [src/fire_check.py] are embedded in source
    order, one Rocq module per Python class; a dictionary returned by a
    [run_all_checks] becomes a record with one field per key.

    Numbers.  Python [float] values are read as exact rationals ([Q]); the
    rounding of binary floating point is not part of this model.  Equations
    between computed quantities are therefore stated with [==] ([Qeq]).
    The one non-finite value the sources ever build, [float("inf")], is kept
    apart in the type [pyfloat] of the two result fields that can hold it.

    Exceptions.  A Python [/] raises [ZeroDivisionError] on a zero divisor,
    [math.sqrt] raises [ValueError] on a negative argument and the
    [__post_init__] validators raise [ValueError]; all of these are threaded
    through the error monad [result].  A division by a literal non-zero
    constant ([/ 8], [/ 12], [/ GAMMA_M_FI] ...) or by [gamma_M], which
    returns one of two such literals, cannot raise and is written with the
    plain [/] of [Q].  The [KeyError] of a material file that lacks a
    property is kept in a result type of its own, [loaded]. *)

From Stdlib Require Import QArith Qminmax Qround Lqa ZArith Lia Bool String List Sorted.
Import ListNotations.

Local Open Scope Q_scope.

(* ===================================================================== *)
(** ** Python runtime: exceptions, comparisons, arithmetic                *)
(* ===================================================================== *)

Module Py.

Inductive exn : Type :=
| ValueError (msg : string)
| ZeroDivisionError.

Inductive result (A : Type) : Type :=
| Ok (a : A)
| Raise (e : exn).

Arguments Ok {A} a.
Arguments Raise {A} e.

Definition bind {A B : Type} (m : result A) (k : A -> result B) : result B :=
  match m with
  | Ok a => k a
  | Raise e => Raise e
  end.

(** [x <= y] and [x < y] on floats. *)
Definition leb (x y : Q) : bool := Qle_bool x y.
Definition ltb (x y : Q) : bool := negb (Qle_bool y x).

(** [x / y]: raises [ZeroDivisionError] when [y == 0]. *)
Definition div (x y : Q) : result Q :=
  if Qeq_bool y 0 then Raise ZeroDivisionError else Ok (x / y).

(** [max(x, y)]: the first argument is kept unless the second is
    strictly greater. *)
Definition max (x y : Q) : Q := if ltb x y then y else x.

(** [min(x, y)]: the first argument is kept unless the second is
    strictly smaller. *)
Definition min (x y : Q) : Q := if ltb y x then y else x.

(** [math.sqrt] is a library function: its value on a non-negative
    argument is the parameter [sqrt] of the sections that use it; on a
    negative argument Python raises [ValueError("math domain error")]. *)
Definition math_sqrt (sqrt : Q -> Q) (x : Q) : result Q :=
  if ltb x 0 then Raise (ValueError "math domain error") else Ok (sqrt x).

(** [range(start, stop, step)] for a positive [step]. *)
Definition range (start stop step : Z) : list Z :=
  let n := Z.to_nat ((stop - start + step - 1) / step) in
  map (fun i => (start + step * Z.of_nat i)%Z) (seq 0 n).

(** Floats that may be [float("inf")]. *)
Inductive pyfloat : Type :=
| Fin (q : Q)
| Inf.

End Py.

Import Py.

Declare Scope py_scope.
Delimit Scope py_scope with py.
Notation "x <- m ;; k" := (bind m (fun x => k))
  (at level 61, m at next level, right associativity) : py_scope.
Notation "x <=? y" := (leb x y) (at level 70, no associativity) : py_scope.
Notation "x <? y" := (ltb x y) (at level 70, no associativity) : py_scope.
Notation "x >? y" := (ltb y x) (at level 70, no associativity) : py_scope.
Local Open Scope py_scope.

(* ===================================================================== *)
(** ** src/materials.py                                                   *)
(* ===================================================================== *)

Inductive TimberType : Type := solid | glulam.

Module TimberMaterial.

Record t : Type := mk {
  name : string;
  timber_type : TimberType;
  fm_k : Q;
  ft_0_k : Q;
  fv_k : Q;
  E_0_mean : Q;
  E_0_05 : Q;
  rho_k : Q;
  rho_mean : Q
}.

Definition gamma_M (self : t) : Q :=
  match timber_type self with
  | solid => 1.3
  | glulam => 1.25
  end.

Definition kcr (self : t) : Q :=
  match timber_type self with
  | solid => 0.67
  | glulam => 0.67
  end.

End TimberMaterial.

(** The dictionary returned by [load_timber_database()] is read from a YAML
    file that is not part of the sources; it is the argument [db] below,
    kept as an association list in insertion order (the order in which
    [list(db.keys())] prints the grades in the error message). *)
Definition database : Type := list (string * TimberMaterial.t).

Fixpoint db_lookup (db : database) (key : string) : option TimberMaterial.t :=
  match db with
  | [] => None
  | (k, m) :: rest => if String.eqb key k then Some m else db_lookup rest key
  end.

(** [repr] of a list of strings, as the f-string prints [list(db.keys())]. *)
Definition repr_keys (ks : list string) : string :=
  ("[" ++ String.concat ", " (map (fun k => "'" ++ k ++ "'") ks) ++ "]")%string.

Definition unknown_grade_message (db : database) (key : string) : string :=
  ("Neznámá třída dřeva: " ++ key ++ ". Dostupné: " ++ repr_keys (map fst db))%string.

Definition get_material (db : database) (key : string) : result TimberMaterial.t :=
  match db_lookup db key with
  | None => Raise (ValueError (unknown_grade_message db key))
  | Some m => Ok m
  end.

(** [yaml.safe_load] is a library function: its result is the argument
    [data] of [load_timber_database], a dictionary from partition name
    (["solid_timber"], ["glulam"]) to a dictionary from grade name to the
    dictionary [props] of that grade.  A missing property makes
    [props[key]] raise [KeyError(key)], which aborts the load. *)
Definition props : Type := list (string * Q).
Definition yaml_data : Type := list (string * list (string * props)).

Inductive loaded (A : Type) : Type :=
| Loaded (a : A)
| KeyError (key : string).

Arguments Loaded {A} a.
Arguments KeyError {A} key.

Definition loaded_bind {A B : Type} (m : loaded A) (k : A -> loaded B)
    : loaded B :=
  match m with
  | Loaded a => k a
  | KeyError key => KeyError key
  end.

(** [props[key]]. *)
Fixpoint props_getitem (p : props) (key : string) : loaded Q :=
  match p with
  | [] => KeyError key
  | (k, v) :: rest => if String.eqb key k then Loaded v else props_getitem rest key
  end.

(** [data.get(key, {})]. *)
Fixpoint data_get (data : yaml_data) (key : string) : list (string * props) :=
  match data with
  | [] => []
  | (k, v) :: rest => if String.eqb key k then v else data_get rest key
  end.

(** [materials[name] = m]: an existing key keeps its position and takes
    the new value, a new key is appended. *)
Fixpoint db_setitem (db : database) (key : string) (m : TimberMaterial.t)
    : database :=
  match db with
  | [] => [(key, m)]
  | (k, v) :: rest =>
      if String.eqb key k then (k, m) :: rest
      else (k, v) :: db_setitem rest key m
  end.

(** The constructor call [TimberMaterial(name=name, timber_type=..., fm_k=
    props["fm_k"], ...)]; the keyword arguments are evaluated in this
    order. *)
Definition material_of_props (name : string) (timber_type : TimberType)
    (p : props) : loaded TimberMaterial.t :=
  loaded_bind (props_getitem p "fm_k") (fun fm_k =>
  loaded_bind (props_getitem p "ft_0_k") (fun ft_0_k =>
  loaded_bind (props_getitem p "fv_k") (fun fv_k =>
  loaded_bind (props_getitem p "E_0_mean") (fun E_0_mean =>
  loaded_bind (props_getitem p "E_0_05") (fun E_0_05 =>
  loaded_bind (props_getitem p "rho_k") (fun rho_k =>
  loaded_bind (props_getitem p "rho_mean") (fun rho_mean =>
  Loaded (TimberMaterial.mk name timber_type fm_k ft_0_k fv_k E_0_mean
            E_0_05 rho_k rho_mean)))))))).

(** One of the two [for name, props in ... .items()] loops. *)
Fixpoint load_partition (timber_type : TimberType)
    (items : list (string * props)) (materials : database) : loaded database :=
  match items with
  | [] => Loaded materials
  | (name, p) :: rest =>
      loaded_bind (material_of_props name timber_type p) (fun m =>
      load_partition timber_type rest (db_setitem materials name m))
  end.

Definition load_timber_database (data : yaml_data) : loaded database :=
  let materials := [] in
  loaded_bind (load_partition solid (data_get data "solid_timber") materials)
    (fun materials =>
  load_partition glulam (data_get data "glulam") materials).

(** [x == y] on the two timber kinds. *)
Definition TimberType_eqb (x y : TimberType) : bool :=
  match x, y with
  | solid, solid | glulam, glulam => true
  | _, _ => false
  end.

(** [list_materials(timber_type)], on the loaded database [db]. *)
Definition list_materials (db : database) (timber_type : option TimberType)
    : list string :=
  match timber_type with
  | None => map fst db
  | Some wanted =>
      map fst
        (filter (fun item =>
                   TimberType_eqb (TimberMaterial.timber_type (snd item)) wanted)
                db)
  end.

(* ===================================================================== *)
(** ** src/sections.py                                                    *)
(* ===================================================================== *)

Module RectangularSection.

Record t : Type := mk {
  b : Q;
  h : Q
}.

Definition dimensions_message : string := "Rozměry průřezu musí být kladné".

Definition __post_init__ (self : t) : result unit :=
  if (b self <=? 0) || (h self <=? 0)
  then Raise (ValueError dimensions_message)
  else Ok tt.

(** The constructor call [RectangularSection(b=..., h=...)]: the generated
    [__init__] stores the fields and then runs [__post_init__]. *)
Definition new (b h : Q) : result t :=
  let self := mk b h in
  _ <- __post_init__ self ;;
  Ok self.

Definition A (self : t) : Q := b self * h self.
Definition I_y (self : t) : Q := b self * h self ^ 3 / 12.
Definition W_y (self : t) : Q := b self * h self ^ 2 / 6.

(** The St. Venant torsion constant; [a] and [b] are the local variables
    of the source (half the long and half the short side). *)
Definition I_tor (self : t) : result Q :=
  let a := Py.max (h self) (b self) / 2 in
  let b := Py.min (h self) (b self) / 2 in
  ratio <- Py.div a b ;;
  let beta :=
    if ratio <=? 1.0 then 0.141
    else if ratio <=? 1.5 then 0.196
    else if ratio <=? 2.0 then 0.229
    else if ratio <=? 3.0 then 0.263
    else if ratio <=? 4.0 then 0.281
    else if ratio <=? 6.0 then 0.299
    else if ratio <=? 10.0 then 0.312
    else 0.333 in
  Ok (beta * (2 * a) * (2 * b) ^ 3).

End RectangularSection.

(* ===================================================================== *)
(** ** src/loads.py                                                       *)
(* ===================================================================== *)

Inductive LoadDuration : Type :=
| permanent | long_term | medium_term | short_term | instantaneous.

(** [Literal[1, 2, 3]]. *)
Inductive ServiceClass : Type := SC1 | SC2 | SC3.

Definition KMOD_TABLE (sc : ServiceClass) (d : LoadDuration) : Q :=
  match sc, d with
  | SC1, permanent => 0.60
  | SC1, long_term => 0.70
  | SC1, medium_term => 0.80
  | SC1, short_term => 0.90
  | SC1, instantaneous => 1.10
  | SC2, permanent => 0.60
  | SC2, long_term => 0.70
  | SC2, medium_term => 0.80
  | SC2, short_term => 0.90
  | SC2, instantaneous => 1.10
  | SC3, permanent => 0.50
  | SC3, long_term => 0.55
  | SC3, medium_term => 0.65
  | SC3, short_term => 0.70
  | SC3, instantaneous => 0.90
  end.

Definition KDEF_TABLE (sc : ServiceClass) : Q :=
  match sc with
  | SC1 => 0.60
  | SC2 => 0.80
  | SC3 => 2.00
  end.

Definition PSI_2 : list (string * Q) :=
  [ ("cat_A", 0.3); ("cat_B", 0.3); ("cat_C", 0.6); ("cat_D", 0.6);
  ("cat_E", 0.8); ("cat_H", 0.0); ("snow", 0.0); ("wind", 0.0) ]%string.

(** [d.get(key, default)]. *)
Fixpoint dict_get (d : list (string * Q)) (key : string) (default : Q) : Q :=
  match d with
  | [] => default
  | (k, v) :: rest => if String.eqb key k then v else dict_get rest key default
  end.

Module LoadCase.

Record t : Type := mk {
  g_k : Q;
  q_k : Q;
  span : Q;
  service_class : ServiceClass;
  load_duration : LoadDuration;
  load_category : string
}.

Definition g_k_message : string := "Stálé zatížení g_k nemůže být záporné".
Definition q_k_message : string := "Proměnné zatížení q_k nemůže být záporné".
Definition span_message : string := "Rozpětí musí být kladné".

(** The three tests run in this order and the first that fires raises. *)
Definition __post_init__ (self : t) : result unit :=
  if g_k self <? 0 then Raise (ValueError g_k_message)
  else if q_k self <? 0 then Raise (ValueError q_k_message)
  else if span self <=? 0 then Raise (ValueError span_message)
  else Ok tt.

(** The constructor call [LoadCase(g_k=..., ...)]: the generated [__init__]
    stores the fields and then runs [__post_init__]. *)
Definition new (g_k q_k span : Q) (service_class : ServiceClass)
    (load_duration : LoadDuration) (load_category : string) : result t :=
  let self := mk g_k q_k span service_class load_duration load_category in
  _ <- __post_init__ self ;;
  Ok self.

Definition kmod (self : t) : Q := KMOD_TABLE (service_class self) (load_duration self).
Definition kdef (self : t) : Q := KDEF_TABLE (service_class self).
Definition psi_2 (self : t) : Q := dict_get PSI_2 (load_category self) 0.3.

Definition q_Ed (self : t) : Q := 1.35 * g_k self + 1.5 * q_k self.
Definition q_char (self : t) : Q := g_k self + q_k self.

Definition M_Ed (self : t) : Q := q_Ed self * span self ^ 2 / 8.
Definition V_Ed (self : t) : Q := q_Ed self * span self / 2.

End LoadCase.

(* ===================================================================== *)
(** ** src/timber_check.py                                                *)
(* ===================================================================== *)

Module CheckResult.

Record t : Type := mk {
  name : string;
  utilization : Q;
  stress_d : Q;
  strength_d : Q;
  passed : bool
}.

Definition utilization_percent (self : t) : Q := utilization self * 100.

End CheckResult.

Module DeflectionResult.

Record t : Type := mk {
  w_inst : Q;
  w_fin : Q;
  w_limit : Q;
  limit_ratio : Z;
  passed : bool
}.

Definition utilization (self : t) : result Q :=
  Py.div (w_fin self) (w_limit self).

Definition utilization_percent (self : t) : result Q :=
  u <- utilization self ;;
  Ok (u * 100).

End DeflectionResult.

Module TimberBeamCheck.

Record t : Type := mk {
  mat : TimberMaterial.t;
  sec : RectangularSection.t;
  load : LoadCase.t;
  lef_factor : Q;
  deflection_limit : Z
}.

(** The [dict] of [run_all_checks]. *)
Record results : Type := mk_results {
  bending : CheckResult.t;
  shear : CheckResult.t;
  lateral_torsional_buckling : CheckResult.t;
  deflection : DeflectionResult.t;
  all_passed : bool;
  max_uls_utilization : Q;
  internal_forces_M_Ed : Q;
  internal_forces_V_Ed : Q;
  design_values_kmod : Q;
  design_values_gamma_M : Q;
  design_values_fm_d : Q;
  design_values_fv_d : Q;
  design_values_kcrit : Q;
  design_values_lambda_rel_m : Q
}.

(** [gamma_M] is one of the literals 1.3 and 1.25, so these two
    divisions cannot raise. *)
Definition fm_d (self : t) : Q :=
  LoadCase.kmod (load self) * TimberMaterial.fm_k (mat self)
  / TimberMaterial.gamma_M (mat self).

Definition fv_d (self : t) : Q :=
  LoadCase.kmod (load self) * TimberMaterial.fv_k (mat self)
  / TimberMaterial.gamma_M (mat self).

Definition check_bending (self : t) : result CheckResult.t :=
  sigma_m_d <- Py.div (LoadCase.M_Ed (load self) * 1000000)
                      (RectangularSection.W_y (sec self)) ;;
  utilization <- Py.div sigma_m_d (fm_d self) ;;
  Ok (CheckResult.mk "Ohyb" utilization sigma_m_d (fm_d self)
        (utilization <=? 1)).

Definition check_shear (self : t) : result CheckResult.t :=
  tau_d <- Py.div (1.5 * LoadCase.V_Ed (load self) * 1000)
                  (TimberMaterial.kcr (mat self)
                   * RectangularSection.A (sec self)) ;;
  utilization <- Py.div tau_d (fv_d self) ;;
  Ok (CheckResult.mk "Smyk" utilization tau_d (fv_d self)
        (utilization <=? 1)).

Section WithSqrt.

(** The value of [math.sqrt] on non-negative arguments. *)
Variable sqrt : Q -> Q.

Definition _calc_sigma_m_crit (self : t) : result Q :=
  let lef := lef_factor self * LoadCase.span (load self) * 1000 in
  Py.div (0.78 * RectangularSection.b (sec self) ^ 2
          * TimberMaterial.E_0_05 (mat self))
         (RectangularSection.h (sec self) * lef).

Definition _calc_lambda_rel_m (self : t) : result Q :=
  sigma_m_crit <- _calc_sigma_m_crit self ;;
  ratio <- Py.div (TimberMaterial.fm_k (mat self)) sigma_m_crit ;;
  Py.math_sqrt sqrt ratio.

(** The three [return] expressions of [_calc_kcrit], in source order. *)
Definition kcrit_branch_1 : Q := 1.0.
Definition kcrit_branch_2 (lambda_rel_m : Q) : Q := 1.56 - 0.75 * lambda_rel_m.
Definition kcrit_branch_3 (lambda_rel_m : Q) : result Q :=
  Py.div 1.0 (lambda_rel_m ^ 2).

Definition _calc_kcrit (self : t) : result Q :=
  lambda_rel_m <- _calc_lambda_rel_m self ;;
  if lambda_rel_m <=? 0.75 then Ok kcrit_branch_1
  else if lambda_rel_m <=? 1.4 then Ok (kcrit_branch_2 lambda_rel_m)
  else kcrit_branch_3 lambda_rel_m.

Definition check_lateral_torsional_buckling (self : t) : result CheckResult.t :=
  kcrit <- _calc_kcrit self ;;
  sigma_m_d <- Py.div (LoadCase.M_Ed (load self) * 1000000)
                      (RectangularSection.W_y (sec self)) ;;
  let fm_d_red := kcrit * fm_d self in
  utilization <- Py.div sigma_m_d fm_d_red ;;
  Ok (CheckResult.mk "Klopení" utilization sigma_m_d fm_d_red
        (utilization <=? 1)).

Definition check_deflection (self : t) : result DeflectionResult.t :=
  let L_mm := LoadCase.span (load self) * 1000 in
  let q_char_N_mm := LoadCase.q_char (load self) in
  w_inst <- Py.div (5 * q_char_N_mm * L_mm ^ 4)
                   (384 * TimberMaterial.E_0_mean (mat self)
                    * RectangularSection.I_y (sec self)) ;;
  q_g_ratio <- (if LoadCase.q_char (load self) >? 0
                then Py.div (LoadCase.g_k (load self)) (LoadCase.q_char (load self))
                else Ok 1.0) ;;
  q_q_ratio <- (if LoadCase.q_char (load self) >? 0
                then Py.div (LoadCase.q_k (load self)) (LoadCase.q_char (load self))
                else Ok 0.0) ;;
  let w_fin := w_inst * (q_g_ratio * (1 + LoadCase.kdef (load self))
                         + q_q_ratio * (1 + LoadCase.psi_2 (load self)
                                            * LoadCase.kdef (load self))) in
  w_limit <- Py.div L_mm (inject_Z (deflection_limit self)) ;;
  Ok (DeflectionResult.mk w_inst w_fin w_limit (deflection_limit self)
        (w_fin <=? w_limit)).

Definition run_all_checks (self : t) : result results :=
  bending <- check_bending self ;;
  shear <- check_shear self ;;
  ltb <- check_lateral_torsional_buckling self ;;
  deflection <- check_deflection self ;;
  let all_passed :=
    forallb (fun p : bool => p)
      [ CheckResult.passed bending; CheckResult.passed shear;
        CheckResult.passed ltb; DeflectionResult.passed deflection ] in
  let max_uls_util :=
    Py.max (Py.max (CheckResult.utilization bending)
                   (CheckResult.utilization shear))
           (CheckResult.utilization ltb) in
  kcrit <- _calc_kcrit self ;;
  lambda_rel_m <- _calc_lambda_rel_m self ;;
  Ok (mk_results bending shear ltb deflection all_passed max_uls_util
        (LoadCase.M_Ed (load self)) (LoadCase.V_Ed (load self))
        (LoadCase.kmod (load self)) (TimberMaterial.gamma_M (mat self))
        (fm_d self) (fv_d self) kcrit lambda_rel_m).

End WithSqrt.

End TimberBeamCheck.

(* ===================================================================== *)
(** ** src/fire_check.py                                                  *)
(* ===================================================================== *)

(** The two columns of [CHARRING_RATES]. *)
Inductive CharringRate : Type := beta_0 | beta_n.

Definition CHARRING_RATES (tt : TimberType) (r : CharringRate) : Q :=
  match tt, r with
  | solid, beta_0 => 0.65
  | solid, beta_n => 0.80
  | glulam, beta_0 => 0.65
  | glulam, beta_n => 0.70
  end.

Definition D0 : Q := 7.0.
Definition K_FI : Q := 1.25.
Definition GAMMA_M_FI : Q := 1.0.
Definition KMOD_FI : Q := 1.0.

(** [Literal["three_sides", "four_sides"]]. *)
Inductive ExposureType : Type := three_sides | four_sides.

Module FireExposure.

Record t : Type := mk {
  duration : Z;
  exposure : ExposureType;
  use_beta_n : bool
}.

(** The constructor call [FireExposure(duration=..., exposure=...)],
    with the default [use_beta_n=True]. *)
Definition new (duration : Z) (exposure : ExposureType) : t :=
  mk duration exposure true.

End FireExposure.

Module ReducedSection.

Record t : Type := mk {
  b_fi : Q;
  h_fi : Q;
  d_char : Q;
  d_ef : Q
}.

Definition A_fi (self : t) : Q := b_fi self * h_fi self.
Definition I_y_fi (self : t) : Q := b_fi self * h_fi self ^ 3 / 12.
Definition W_y_fi (self : t) : Q := b_fi self * h_fi self ^ 2 / 6.

Definition is_valid (self : t) : bool :=
  (b_fi self >? 0) && (h_fi self >? 0).

End ReducedSection.

Module FireCheckResult.

Record t : Type := mk {
  name : string;
  utilization : pyfloat;
  stress_d_fi : pyfloat;
  strength_d_fi : Q;
  passed : bool
}.

End FireCheckResult.

Module TimberFireCheck.

Record t : Type := mk {
  mat : TimberMaterial.t;
  sec : RectangularSection.t;
  load : LoadCase.t;
  fire : FireExposure.t
}.

Definition beta (self : t) : Q :=
  let rates := CHARRING_RATES (TimberMaterial.timber_type (mat self)) in
  if FireExposure.use_beta_n (fire self) then rates beta_n else rates beta_0.

Definition d_char (self : t) : Q :=
  beta self * inject_Z (FireExposure.duration (fire self)).

Definition d_ef (self : t) : Q := d_char self + D0.

Definition get_reduced_section (self : t) : ReducedSection.t :=
  let d_ef := d_ef self in
  let '(b_fi, h_fi) :=
    match FireExposure.exposure (fire self) with
    | three_sides =>
        (RectangularSection.b (sec self) - 2 * d_ef,
         RectangularSection.h (sec self) - d_ef)
    | four_sides =>
        (RectangularSection.b (sec self) - 2 * d_ef,
         RectangularSection.h (sec self) - 2 * d_ef)
    end in
  let b_fi := Py.max 0 b_fi in
  let h_fi := Py.max 0 h_fi in
  ReducedSection.mk b_fi h_fi (d_char self) d_ef.

Definition fm_d_fi (self : t) : Q :=
  KMOD_FI * K_FI * TimberMaterial.fm_k (mat self) / GAMMA_M_FI.

Definition fv_d_fi (self : t) : Q :=
  KMOD_FI * K_FI * TimberMaterial.fv_k (mat self) / GAMMA_M_FI.

Definition eta_fi (self : t) : result Q :=
  let psi_1 := 0.5 in
  let E_d_fi := LoadCase.g_k (load self) + psi_1 * LoadCase.q_k (load self) in
  let E_d := LoadCase.q_Ed (load self) in
  if E_d >? 0 then Py.div E_d_fi E_d else Ok 0.6.

Definition M_Ed_fi (self : t) : result Q :=
  eta <- eta_fi self ;;
  Ok (eta * LoadCase.M_Ed (load self)).

Definition V_Ed_fi (self : t) : result Q :=
  eta <- eta_fi self ;;
  Ok (eta * LoadCase.V_Ed (load self)).

Definition check_bending_fire (self : t) : result FireCheckResult.t :=
  let reduced := get_reduced_section self in
  if negb (ReducedSection.is_valid reduced) then
    Ok (FireCheckResult.mk "Ohyb (požár)" Inf Inf (fm_d_fi self) false)
  else
    M <- M_Ed_fi self ;;
    sigma_m_d_fi <- Py.div (M * 1000000) (ReducedSection.W_y_fi reduced) ;;
    utilization <- Py.div sigma_m_d_fi (fm_d_fi self) ;;
    Ok (FireCheckResult.mk "Ohyb (požár)" (Fin utilization) (Fin sigma_m_d_fi)
          (fm_d_fi self) (utilization <=? 1)).

Definition check_shear_fire (self : t) : result FireCheckResult.t :=
  let reduced := get_reduced_section self in
  if negb (ReducedSection.is_valid reduced) then
    Ok (FireCheckResult.mk "Smyk (požár)" Inf Inf (fv_d_fi self) false)
  else
    V <- V_Ed_fi self ;;
    tau_d_fi <- Py.div (1.5 * V * 1000) (ReducedSection.A_fi reduced) ;;
    utilization <- Py.div tau_d_fi (fv_d_fi self) ;;
    Ok (FireCheckResult.mk "Smyk (požár)" (Fin utilization) (Fin tau_d_fi)
          (fv_d_fi self) (utilization <=? 1)).

(** The [dict] of [run_all_checks]; [suggested_section] is the key that
    [required_fire_resistance] may add to it afterwards. *)
Record suggestion : Type := mk_suggestion {
  suggested_b : Q;
  suggested_h : Q;
  suggested_delta : Z
}.

Record results : Type := mk_results {
  reduced_section : ReducedSection.t;
  bending : FireCheckResult.t;
  shear : FireCheckResult.t;
  all_passed : bool;
  fire_params_duration : Z;
  fire_params_beta : Q;
  fire_params_d_char : Q;
  fire_params_d_ef : Q;
  fire_params_eta_fi : Q;
  fire_params_M_Ed_fi : Q;
  fire_params_V_Ed_fi : Q;
  fire_params_fm_d_fi : Q;
  fire_params_fv_d_fi : Q;
  original_section_b : Q;
  original_section_h : Q;
  suggested_section : option suggestion
}.

Definition run_all_checks (self : t) : result results :=
  let reduced := get_reduced_section self in
  bending <- check_bending_fire self ;;
  shear <- check_shear_fire self ;;
  let all_passed := FireCheckResult.passed bending && FireCheckResult.passed shear in
  eta <- eta_fi self ;;
  M <- M_Ed_fi self ;;
  V <- V_Ed_fi self ;;
  Ok (mk_results reduced bending shear all_passed
        (FireExposure.duration (fire self)) (beta self) (d_char self)
        (d_ef self) eta M V (fm_d_fi self) (fv_d_fi self)
        (RectangularSection.b (sec self)) (RectangularSection.h (sec self))
        None).

End TimberFireCheck.

(** [results["suggested_section"] = ...]. *)
Definition set_suggested_section (r : TimberFireCheck.results)
    (s : TimberFireCheck.suggestion) : TimberFireCheck.results :=
  let 'TimberFireCheck.mk_results rs bd sh ap du be dc de et m v fm fv ob oh _ := r in
  TimberFireCheck.mk_results rs bd sh ap du be dc de et m v fm fv ob oh (Some s).

(** The body of the [for delta in range(10, 500, 10)] loop, over the
    increments still to be probed; [results] is the dictionary the loop
    may extend before it breaks. *)
Fixpoint probe_increments (material : TimberMaterial.t)
    (section : RectangularSection.t) (load : LoadCase.t) (fire : FireExposure.t)
    (results : TimberFireCheck.results) (deltas : list Z)
    : result TimberFireCheck.results :=
  match deltas with
  | [] => Ok results
  | delta :: rest =>
      test_section <- RectangularSection.new
                        (RectangularSection.b section + inject_Z delta)
                        (RectangularSection.h section + inject_Z delta) ;;
      let test_check := TimberFireCheck.mk material test_section load fire in
      test_results <- TimberFireCheck.run_all_checks test_check ;;
      if TimberFireCheck.all_passed test_results then
        Ok (set_suggested_section results
              (TimberFireCheck.mk_suggestion
                 (RectangularSection.b test_section)
                 (RectangularSection.h test_section) delta))
      else
        probe_increments material section load fire results rest
  end.

Definition required_fire_resistance (material : TimberMaterial.t)
    (section : RectangularSection.t) (load : LoadCase.t)
    (target_duration : Z) (exposure : ExposureType)
    : result TimberFireCheck.results :=
  let fire := FireExposure.new target_duration exposure in
  let check := TimberFireCheck.mk material section load fire in
  results <- TimberFireCheck.run_all_checks check ;;
  if negb (TimberFireCheck.all_passed results) then
    probe_increments material section load fire results (Py.range 10 500 10)
  else
    Ok results.

(* ===================================================================== *)
(** ** Reference data: the end-to-end scenario of the specification       *)
(* ===================================================================== *)

(** Grade C24 of EN 338 (fm,k = 24, fv,k = 4.0), a 160 x 400 mm section,
    span 5 m with g_k = 2 kN/m and q_k = 5 kN/m, service class 1,
    medium-term load, and fire resistance R30 on three sides. *)
Definition C24 : TimberMaterial.t :=
  TimberMaterial.mk "C24" solid 24 14.5 4.0 11000 7400 350 420.

Definition section_160x400 : RectangularSection.t :=
  RectangularSection.mk 160 400.

Definition load_2_5_5 : LoadCase.t :=
  LoadCase.mk 2 5 5 SC1 medium_term "cat_A".

Definition fire_R30 : FireExposure.t := FireExposure.new 30 three_sides.

Definition fire_check_R30 : TimberFireCheck.t :=
  TimberFireCheck.mk C24 section_160x400 load_2_5_5 fire_R30.

Definition beam_check_L300 : TimberBeamCheck.t :=
  TimberBeamCheck.mk C24 section_160x400 load_2_5_5 1.0 300.

(** The same beam with a limit ratio of -300: [TimberBeamCheck.__init__]
    stores [deflection_limit] as given, without any test. *)
Definition beam_check_negative_limit : TimberBeamCheck.t :=
  TimberBeamCheck.mk C24 section_160x400 load_2_5_5 1.0 (-300).

(** A rational stand-in for [math.sqrt], used only to run the buckling
    check on the reference data: the integer square root of [x * 10^12],
    scaled back by [10^6] (six exact decimals). *)
Definition sqrt_approx (x : Q) : Q :=
  Z.sqrt (Qfloor (x * 1000000000000)) # 1000000.

(** A slender 50 x 50 mm section that an R60 fire consumes completely. *)
Definition fire_check_consumed : TimberFireCheck.t :=
  TimberFireCheck.mk C24 (RectangularSection.mk 50 50) load_2_5_5
    (FireExposure.new 60 three_sides).

(** A 100 x 100 mm section under a heavy permanent load on a 12 m span:
    it needs an enlargement of exactly 500 mm to pass the R30 fire checks. *)
Definition section_100x100 : RectangularSection.t :=
  RectangularSection.mk 100 100.

Definition load_heavy : LoadCase.t :=
  LoadCase.mk 47.2 0 12 SC1 medium_term "cat_A".

(** Whether the section enlarged by [delta] on both sides passes both fire
    checks: the test made by each round of the loop of
    [required_fire_resistance]. *)
Definition enlarged_passes (material : TimberMaterial.t)
    (section : RectangularSection.t) (load : LoadCase.t)
    (fire : FireExposure.t) (delta : Z) : bool :=
  match RectangularSection.new
          (RectangularSection.b section + inject_Z delta)
          (RectangularSection.h section + inject_Z delta) with
  | Ok test_section =>
      match TimberFireCheck.run_all_checks
              (TimberFireCheck.mk material test_section load fire) with
      | Ok test_results => TimberFireCheck.all_passed test_results
      | Raise _ => false
      end
  | Raise _ => false
  end.

(** A parsed material file with one grade in each partition, and one in
    which the solid grade lacks its shear strength. *)
Definition props_C24 : props :=
  [ ("fm_k", 24); ("ft_0_k", 14.5); ("fv_k", 4.0); ("E_0_mean", 11000);
    ("E_0_05", 7400); ("rho_k", 350); ("rho_mean", 420) ]%string.

Definition props_GL24h : props :=
  [ ("fm_k", 24); ("ft_0_k", 19.2); ("fv_k", 3.5); ("E_0_mean", 11500);
    ("E_0_05", 9600); ("rho_k", 385); ("rho_mean", 420) ]%string.

Definition sample_data : yaml_data :=
  [ ("solid_timber", [("C24", props_C24)]);
    ("glulam", [("GL24h", props_GL24h)]) ]%string.



(** The coefficient table inside [I_tor], as a function of the aspect
    ratio; used to state what [I_tor] returns. *)
Definition I_tor_beta (ratio : Q) : Q :=
  if ratio <=? 1.0 then 0.141
  else if ratio <=? 1.5 then 0.196
  else if ratio <=? 2.0 then 0.229
  else if ratio <=? 3.0 then 0.263
  else if ratio <=? 4.0 then 0.281
  else if ratio <=? 6.0 then 0.299
  else if ratio <=? 10.0 then 0.312
  else 0.333.

(* ===================================================================== *)
(** ** Basic facts about the runtime operations                           *)
(* ===================================================================== *)

Lemma leb_true (x y : Q) : (x <=? y) = true <-> x <= y.
Proof. unfold leb. apply Qle_bool_iff. Qed.

Lemma leb_false (x y : Q) : (x <=? y) = false <-> y < x.
Proof.
  unfold leb. split; intro H.
  - apply Qnot_le_lt. intro HL. apply Qle_bool_iff in HL. congruence.
  - destruct (Qle_bool x y) eqn:E; [|reflexivity].
    apply Qle_bool_iff in E. exfalso. apply (Qlt_not_le _ _ H E).
Qed.

Lemma ltb_true (x y : Q) : (x <? y) = true <-> x < y.
Proof.
  unfold ltb. rewrite negb_true_iff. apply (leb_false y x).
Qed.

Lemma ltb_false (x y : Q) : (x <? y) = false <-> y <= x.
Proof.
  unfold ltb. rewrite negb_false_iff. apply (leb_true y x).
Qed.

Lemma div_Ok (x y : Q) : ~ y == 0 -> Py.div x y = Ok (x / y).
Proof.
  intro H. unfold Py.div. destruct (Qeq_bool y 0) eqn:E; [|reflexivity].
  apply Qeq_bool_eq in E. contradiction.
Qed.

Lemma div_Raise (x y : Q) : y == 0 -> Py.div x y = Raise ZeroDivisionError.
Proof.
  intro H. unfold Py.div. now rewrite (Qeq_eq_bool _ _ H).
Qed.

Lemma max_Qmax (x y : Q) : Py.max x y == Qmax x y.
Proof.
  unfold Py.max. destruct (x <? y) eqn:E.
  - apply ltb_true in E. symmetry. apply Q.max_r. now apply Qlt_le_weak.
  - apply ltb_false in E. symmetry. now apply Q.max_l.
Qed.

Lemma pow2 (x : Q) : x ^ 2 == x * x.
Proof. reflexivity. Qed.

Lemma pow3 (x : Q) : x ^ 3 == x * x * x.
Proof. simpl. ring. Qed.

Lemma range_10_500_10 :
  Py.range 10 500 10 = map (fun k => (10 * Z.of_nat k)%Z) (seq 1 49).
Proof. reflexivity. Qed.

Lemma gamma_M_pos (m : TimberMaterial.t) : 0 < TimberMaterial.gamma_M m.
Proof. unfold TimberMaterial.gamma_M. destruct (TimberMaterial.timber_type m); reflexivity. Qed.

Lemma kcr_pos (m : TimberMaterial.t) : 0 < TimberMaterial.kcr m.
Proof. unfold TimberMaterial.kcr. destruct (TimberMaterial.timber_type m); reflexivity. Qed.

Lemma kmod_pos (l : LoadCase.t) : 0 < LoadCase.kmod l.
Proof.
  unfold LoadCase.kmod, KMOD_TABLE.
  destruct (LoadCase.service_class l), (LoadCase.load_duration l); reflexivity.
Qed.

(* ===================================================================== *)
(** ** Construction and validation                                        *)
(* ===================================================================== *)

Lemma RectangularSection_new_Ok (b h : Q) :
  0 < b -> 0 < h ->
  RectangularSection.new b h = Ok (RectangularSection.mk b h).
Proof.
  intros Hb Hh. unfold RectangularSection.new, RectangularSection.__post_init__.
  simpl. apply leb_false in Hb, Hh. now rewrite Hb, Hh.
Qed.

Lemma LoadCase_new_Ok (g q L : Q) sc ld cat :
  0 <= g -> 0 <= q -> 0 < L ->
  LoadCase.new g q L sc ld cat = Ok (LoadCase.mk g q L sc ld cat).
Proof.
  intros Hg Hq HL. unfold LoadCase.new, LoadCase.__post_init__. simpl.
  apply ltb_false in Hg, Hq. apply leb_false in HL.
  now rewrite Hg, Hq, HL.
Qed.

Lemma db_lookup_None (db : database) (key : string) :
  db_lookup db key = None <-> ~ In key (map fst db).
Proof.
  induction db as [|[k m] rest IH]; simpl.
  - tauto.
  - destruct (String.eqb key k) eqn:E.
    + apply String.eqb_eq in E. subst. split; [discriminate | tauto].
    + apply String.eqb_neq in E. rewrite IH. split.
      * intros H [H1 | H1]; [congruence | tauto].
      * tauto.
Qed.

(* ===================================================================== *)
(** ** Load combinations (src/loads.py)                                   *)
(* ===================================================================== *)

(** C7.  A load case with [g_k >= 0], [q_k >= 0] and [span > 0] is
    constructed without error, and on it the combined ULS design load is
    [1.35 g_k + 1.5 q_k], the design moment is [q_Ed span^2 / 8] and the
    design shear force is [q_Ed span / 2]. *)
Theorem uls_design_load_moment_shear (g q L : Q) (sc : ServiceClass)
    (ld : LoadDuration) (cat : string) :
  0 <= g -> 0 <= q -> 0 < L ->
  exists l, LoadCase.new g q L sc ld cat = Ok l /\
    LoadCase.q_Ed l == 1.35 * g + 1.5 * q /\
    LoadCase.M_Ed l == (1.35 * g + 1.5 * q) * L ^ 2 / 8 /\
    LoadCase.V_Ed l == (1.35 * g + 1.5 * q) * L / 2 /\
    LoadCase.M_Ed l == LoadCase.q_Ed l * LoadCase.span l ^ 2 / 8 /\
    LoadCase.V_Ed l == LoadCase.q_Ed l * LoadCase.span l / 2.
Proof.
  intros Hg Hq HL. eexists. split.
  - apply LoadCase_new_Ok; assumption.
  - unfold LoadCase.M_Ed, LoadCase.V_Ed, LoadCase.q_Ed. simpl.
    repeat split; reflexivity.
Qed.

(** The end-to-end scenario of the specification: g_k = 2, q_k = 5,
    span = 5 gives q_Ed = 10.2, M_Ed = 31.875 and V_Ed = 25.5. *)
Lemma uls_design_load_moment_shear_witness :
  exists l, LoadCase.new 2 5 5 SC1 medium_term "cat_A" = Ok l /\
    LoadCase.q_Ed l == 10.2 /\ LoadCase.M_Ed l == 31.875 /\
    LoadCase.V_Ed l == 25.5.
Proof.
  destruct (uls_design_load_moment_shear 2 5 5 SC1 medium_term "cat_A")
    as (l & Hn & Hq & HM & HV & _); [discriminate | discriminate | reflexivity |].
  exists l. split; [exact Hn|].
  rewrite Hq, HM, HV. repeat split; reflexivity.
Defined.

(* ===================================================================== *)
(** ** The load reduction factor (src/fire_check.py)                      *)
(* ===================================================================== *)

Section EtaFi.

Variable self : TimberFireCheck.t.

Let g := LoadCase.g_k (TimberFireCheck.load self).
Let q := LoadCase.q_k (TimberFireCheck.load self).

Lemma q_Ed_unfold : LoadCase.q_Ed (TimberFireCheck.load self) = 1.35 * g + 1.5 * q.
Proof. reflexivity. Qed.

(** The guard [E_d > 0] makes [eta_fi] total: it never raises, whatever
  the loads are. *)
Lemma eta_fi_total : exists e, TimberFireCheck.eta_fi self = Ok e.
Proof.
  unfold TimberFireCheck.eta_fi.
  destruct (LoadCase.q_Ed (TimberFireCheck.load self) >? 0) eqn:E.
  - apply ltb_true in E. rewrite div_Ok; [eauto | lra].
  - eauto.
Qed.

Lemma eta_fi_pos_load :
  0 < 1.35 * g + 1.5 * q ->
  TimberFireCheck.eta_fi self = Ok ((g + 0.5 * q) / (1.35 * g + 1.5 * q)).
Proof.
  intro H. unfold TimberFireCheck.eta_fi. rewrite q_Ed_unfold.
  assert (E : (1.35 * g + 1.5 * q >? 0) = true) by now apply ltb_true.
  rewrite E. apply div_Ok. lra.
Qed.

Lemma eta_fi_zero_load :
  1.35 * g + 1.5 * q <= 0 -> TimberFireCheck.eta_fi self = Ok 0.6.
Proof.
  intro H. unfold TimberFireCheck.eta_fi. rewrite q_Ed_unfold.
  assert (E : (1.35 * g + 1.5 * q >? 0) = false) by now apply ltb_false.
  now rewrite E.
Qed.

End EtaFi.

(** C5.  For a valid load case the factor [eta_fi] is
    [(g_k + 0.5 q_k) / (1.35 g_k + 1.5 q_k)] when the ULS design load is
    strictly positive and [0.6] when it is zero, which happens exactly when
    both loads are zero; in no case does the division raise. *)
Theorem eta_fi_formula_and_fallback (self : TimberFireCheck.t) :
  let l := TimberFireCheck.load self in
  0 <= LoadCase.g_k l -> 0 <= LoadCase.q_k l ->
  (0 < LoadCase.q_Ed l ->
     TimberFireCheck.eta_fi self =
       Ok ((LoadCase.g_k l + 0.5 * LoadCase.q_k l)
           / (1.35 * LoadCase.g_k l + 1.5 * LoadCase.q_k l))) /\
  (LoadCase.q_Ed l == 0 -> TimberFireCheck.eta_fi self = Ok 0.6) /\
  (LoadCase.q_Ed l == 0 <-> LoadCase.g_k l == 0 /\ LoadCase.q_k l == 0) /\
  (0 < LoadCase.q_Ed l \/ LoadCase.q_Ed l == 0) /\
  (exists e, TimberFireCheck.eta_fi self = Ok e).
Proof.
  intros l Hg Hq. subst l. rewrite q_Ed_unfold.
  repeat split.
  - apply eta_fi_pos_load.
  - intro H. apply eta_fi_zero_load. lra.
  - lra.
  - lra.
  - intros [H1 H2]. lra.
  - destruct (Qlt_le_dec 0 (1.35 * LoadCase.g_k (TimberFireCheck.load self)
                            + 1.5 * LoadCase.q_k (TimberFireCheck.load self)));
      [left; assumption | right; lra].
  - apply eta_fi_total.
Qed.

Lemma eta_fi_formula_and_fallback_witness :
  TimberFireCheck.eta_fi fire_check_R30 = Ok ((2 + 0.5 * 5) / (1.35 * 2 + 1.5 * 5))
  /\ (2 + 0.5 * 5) / (1.35 * 2 + 1.5 * 5) == 45 # 102.
Proof.
  split; [|reflexivity].
  apply (eta_fi_formula_and_fallback fire_check_R30); vm_compute; congruence.
Defined.



(* ===================================================================== *)
(** ** The reduced cross-section (src/fire_check.py)                      *)
(* ===================================================================== *)

Lemma reduced_b_fi (self : TimberFireCheck.t) :
  ReducedSection.b_fi (TimberFireCheck.get_reduced_section self) =
  Py.max 0 (RectangularSection.b (TimberFireCheck.sec self)
            - 2 * TimberFireCheck.d_ef self).
Proof.
  unfold TimberFireCheck.get_reduced_section.
  destruct (FireExposure.exposure (TimberFireCheck.fire self)); reflexivity.
Qed.

Lemma reduced_h_fi (self : TimberFireCheck.t) :
  ReducedSection.h_fi (TimberFireCheck.get_reduced_section self) =
  Py.max 0 (RectangularSection.h (TimberFireCheck.sec self)
            - match FireExposure.exposure (TimberFireCheck.fire self) with
              | three_sides => TimberFireCheck.d_ef self
              | four_sides => 2 * TimberFireCheck.d_ef self
              end).
Proof.
  unfold TimberFireCheck.get_reduced_section.
  destruct (FireExposure.exposure (TimberFireCheck.fire self)); reflexivity.
Qed.

Lemma reduced_nonneg (self : TimberFireCheck.t) :
  0 <= ReducedSection.b_fi (TimberFireCheck.get_reduced_section self) /\
  0 <= ReducedSection.h_fi (TimberFireCheck.get_reduced_section self).
Proof.
  rewrite reduced_b_fi, reduced_h_fi. split; rewrite max_Qmax; apply Q.le_max_l.
Qed.

(** C4.  The reduced section: the width loses [2 d_ef] in both exposures,
    the depth loses [d_ef] on three sides and [2 d_ef] on four, both are
    clamped at zero, and [d_ef = beta * duration + 7].  With beta = 0.8 and
    30 minutes, [d_char = 24] and [d_ef = 31], and a 160 x 400 section
    exposed on three sides reduces to 98 x 369. *)
Theorem reduced_section_geometry (self : TimberFireCheck.t) :
  let r := TimberFireCheck.get_reduced_section self in
  let b := RectangularSection.b (TimberFireCheck.sec self) in
  let h := RectangularSection.h (TimberFireCheck.sec self) in
  let duration := FireExposure.duration (TimberFireCheck.fire self) in
  let exposure := FireExposure.exposure (TimberFireCheck.fire self) in
  let d := TimberFireCheck.d_ef self in
  TimberFireCheck.d_char self == TimberFireCheck.beta self * inject_Z duration /\
  d == TimberFireCheck.beta self * inject_Z duration + 7 /\
  ReducedSection.d_char r == TimberFireCheck.d_char self /\
  ReducedSection.d_ef r == d /\
  (exposure = three_sides ->
     ReducedSection.b_fi r == Qmax 0 (b - 2 * d) /\
     ReducedSection.h_fi r == Qmax 0 (h - d)) /\
  (exposure = four_sides ->
     ReducedSection.b_fi r == Qmax 0 (b - 2 * d) /\
     ReducedSection.h_fi r == Qmax 0 (h - 2 * d)) /\
  (TimberFireCheck.beta self == 0.8 -> duration = 30%Z ->
     TimberFireCheck.d_char self == 24 /\ d == 31 /\
     (exposure = three_sides -> b == 160 -> h == 400 ->
        ReducedSection.b_fi r == 98 /\ ReducedSection.h_fi r == 369)).
Proof.
  intros r b h duration exposure d.
  assert (Hd : d == TimberFireCheck.beta self * inject_Z duration + 7).
  { unfold d, TimberFireCheck.d_ef, TimberFireCheck.d_char, D0. fold duration.
    setoid_replace 7.0 with 7 by reflexivity. reflexivity. }
  assert (H3 : exposure = three_sides ->
     ReducedSection.b_fi r == Qmax 0 (b - 2 * d) /\
     ReducedSection.h_fi r == Qmax 0 (h - d)).
  { intro E. unfold r. rewrite reduced_b_fi, reduced_h_fi. fold exposure.
    rewrite E. split; apply max_Qmax. }
  split; [reflexivity|]. split; [exact Hd|].
  split; [unfold r, TimberFireCheck.get_reduced_section;
          destruct (FireExposure.exposure _); reflexivity|].
  split; [unfold r, TimberFireCheck.get_reduced_section;
          destruct (FireExposure.exposure _); reflexivity|].
  split; [exact H3|]. split.
  - intro E. unfold r. rewrite reduced_b_fi, reduced_h_fi. fold exposure.
    rewrite E. split; apply max_Qmax.
  - intros Hbeta Hdur.
    assert (Hc : TimberFireCheck.d_char self == 24).
    { unfold TimberFireCheck.d_char. fold duration. rewrite Hbeta, Hdur. reflexivity. }
    assert (Hd31 : d == 31).
    { rewrite Hd, Hbeta, Hdur. reflexivity. }
    split; [exact Hc|]. split; [exact Hd31|].
    intros E Hb Hh. destruct (H3 E) as [Hbf Hhf].
    rewrite Hbf, Hhf, Hb, Hh, Hd31. split.
    + apply Q.max_r. discriminate.
    + apply Q.max_r. discriminate.
Qed.

Lemma reduced_section_geometry_witness :
  TimberFireCheck.d_char fire_check_R30 == 24 /\
  TimberFireCheck.d_ef fire_check_R30 == 31 /\
  ReducedSection.b_fi (TimberFireCheck.get_reduced_section fire_check_R30) == 98 /\
  ReducedSection.h_fi (TimberFireCheck.get_reduced_section fire_check_R30) == 369.
Proof.
  destruct (reduced_section_geometry fire_check_R30)
    as (_ & _ & _ & _ & _ & _ & H).
  destruct H as (Hc & Hd & Hr); [reflexivity | reflexivity |].
  destruct Hr as [Hb Hh]; [reflexivity | reflexivity | reflexivity |].
  repeat split; assumption.
Defined.

(* ===================================================================== *)
(** ** The validity gate of the fire checks                               *)
(* ===================================================================== *)

Lemma is_valid_true (r : ReducedSection.t) :
  ReducedSection.is_valid r = true <->
  0 < ReducedSection.b_fi r /\ 0 < ReducedSection.h_fi r.
Proof.
  unfold ReducedSection.is_valid. rewrite andb_true_iff, !ltb_true. tauto.
Qed.

Lemma is_valid_false (r : ReducedSection.t) :
  ReducedSection.is_valid r = false <->
  ReducedSection.b_fi r <= 0 \/ ReducedSection.h_fi r <= 0.
Proof.
  unfold ReducedSection.is_valid. rewrite andb_false_iff, !ltb_false. tauto.
Qed.

Lemma fm_d_fi_value (self : TimberFireCheck.t) :
  TimberFireCheck.fm_d_fi self == 1.25 * TimberMaterial.fm_k (TimberFireCheck.mat self).
Proof.
  unfold TimberFireCheck.fm_d_fi, KMOD_FI, K_FI, GAMMA_M_FI.
  setoid_replace 1.0 with 1 by reflexivity. unfold Qdiv.
  setoid_replace (/ 1) with 1 by reflexivity. ring.
Qed.

Lemma fv_d_fi_value (self : TimberFireCheck.t) :
  TimberFireCheck.fv_d_fi self == 1.25 * TimberMaterial.fv_k (TimberFireCheck.mat self).
Proof.
  unfold TimberFireCheck.fv_d_fi, KMOD_FI, K_FI, GAMMA_M_FI.
  setoid_replace 1.0 with 1 by reflexivity. unfold Qdiv.
  setoid_replace (/ 1) with 1 by reflexivity. ring.
Qed.

(** C2.  When the reduced width or the reduced depth is not strictly
    positive, [is_valid] is false and both fire checks return at once, without
    raising: utilization and stress are infinite, the strength is the
    nominal fire design strength ([fm_d_fi], respectively [fv_d_fi], that is
    1.25 times the characteristic strength) and [passed] is false.  The
    divisions of the ordinary branch, by the reduced section modulus and by
    the reduced area, would raise [ZeroDivisionError] on this geometry; they
    are not reached.  No quantity that depends on the load enters the
    result: any other load case gives the same two records. *)
Theorem consumed_section_short_circuit (self : TimberFireCheck.t) :
  let r := TimberFireCheck.get_reduced_section self in
  ReducedSection.b_fi r <= 0 \/ ReducedSection.h_fi r <= 0 ->
  ReducedSection.is_valid r = false /\
  TimberFireCheck.check_bending_fire self =
    Ok (FireCheckResult.mk "Ohyb (požár)" Inf Inf
          (TimberFireCheck.fm_d_fi self) false) /\
  TimberFireCheck.check_shear_fire self =
    Ok (FireCheckResult.mk "Smyk (požár)" Inf Inf
          (TimberFireCheck.fv_d_fi self) false) /\
  TimberFireCheck.fm_d_fi self ==
    1.25 * TimberMaterial.fm_k (TimberFireCheck.mat self) /\
  TimberFireCheck.fv_d_fi self ==
    1.25 * TimberMaterial.fv_k (TimberFireCheck.mat self) /\
  (forall x : Q,
     Py.div x (ReducedSection.W_y_fi r) = Raise ZeroDivisionError /\
     Py.div x (ReducedSection.A_fi r) = Raise ZeroDivisionError) /\
  (forall load' : LoadCase.t,
     let self' := TimberFireCheck.mk (TimberFireCheck.mat self)
                    (TimberFireCheck.sec self) load' (TimberFireCheck.fire self) in
     TimberFireCheck.check_bending_fire self' = TimberFireCheck.check_bending_fire self /\
     TimberFireCheck.check_shear_fire self' = TimberFireCheck.check_shear_fire self).
Proof.
  intros r H.
  assert (Hzero : ReducedSection.W_y_fi r == 0 /\ ReducedSection.A_fi r == 0).
  { destruct (reduced_nonneg self) as [Hb0 Hh0]. fold r in Hb0, Hh0.
    unfold ReducedSection.W_y_fi, ReducedSection.A_fi. rewrite pow2.
    destruct H as [H | H].
    - assert (E : ReducedSection.b_fi r == 0) by lra. rewrite E.
      split; [unfold Qdiv|]; ring.
    - assert (E : ReducedSection.h_fi r == 0) by lra. rewrite E.
      split; [unfold Qdiv|]; ring. }
  apply is_valid_false in H.
  assert (Hb : TimberFireCheck.check_bending_fire self =
    Ok (FireCheckResult.mk "Ohyb (požár)" Inf Inf
          (TimberFireCheck.fm_d_fi self) false)).
  { unfold TimberFireCheck.check_bending_fire. fold r. now rewrite H. }
  assert (Hs : TimberFireCheck.check_shear_fire self =
    Ok (FireCheckResult.mk "Smyk (požár)" Inf Inf
          (TimberFireCheck.fv_d_fi self) false)).
  { unfold TimberFireCheck.check_shear_fire. fold r. now rewrite H. }
  split; [exact H|]. split; [exact Hb|]. split; [exact Hs|].
  split; [apply fm_d_fi_value|]. split; [apply fv_d_fi_value|].
  split; [intro x; split; apply div_Raise; tauto|].
  intros load' self'. rewrite Hb, Hs.
  assert (Hr : TimberFireCheck.get_reduced_section self' = r).
  { unfold r, self', TimberFireCheck.get_reduced_section, TimberFireCheck.d_ef,
      TimberFireCheck.d_char, TimberFireCheck.beta. reflexivity. }
  unfold TimberFireCheck.check_bending_fire, TimberFireCheck.check_shear_fire.
  rewrite Hr, H. split; reflexivity.
Qed.

Lemma consumed_section_short_circuit_witness :
  TimberFireCheck.check_bending_fire fire_check_consumed =
    Ok (FireCheckResult.mk "Ohyb (požár)" Inf Inf
          (TimberFireCheck.fm_d_fi fire_check_consumed) false) /\
  TimberFireCheck.check_shear_fire fire_check_consumed =
    Ok (FireCheckResult.mk "Smyk (požár)" Inf Inf
          (TimberFireCheck.fv_d_fi fire_check_consumed) false).
Proof.
  destruct (consumed_section_short_circuit fire_check_consumed)
    as (_ & Hb & Hs & _).
  - left. vm_compute. discriminate.
  - split; assumption.
Defined.

(* ===================================================================== *)
(** ** The buckling factor kcrit (src/timber_check.py)                    *)
(* ===================================================================== *)

Lemma kcrit_branch_3_Ok (lam : Q) :
  1.4 < lam -> TimberBeamCheck.kcrit_branch_3 lam = Ok (1.0 / lam ^ 2).
Proof.
  intro H. unfold TimberBeamCheck.kcrit_branch_3. apply div_Ok.
  rewrite pow2. nra.
Qed.

(** C1 (as the code has it).  [_calc_kcrit] selects among its three return
    expressions by the relative slenderness: 1.0 up to 0.75, then
    [1.56 - 0.75 lambda] up to 1.4, then [1 / lambda^2].  The selection is
    not continuous at 0.75: the first branch gives 1.0 there, while the
    second expression gives 0.9975, and every slenderness in (0.75, 1.4]
    yields a factor below 0.9975.  At 1.4 the second expression gives 0.51
    and the third gives 1/1.4^2 = 25/49; they differ by 1/4900. *)
Theorem kcrit_three_branch_policy (sqrt : Q -> Q) (self : TimberBeamCheck.t)
    (lambda_rel_m : Q) :
  TimberBeamCheck._calc_lambda_rel_m sqrt self = Ok lambda_rel_m ->
  (lambda_rel_m <= 0.75 -> TimberBeamCheck._calc_kcrit sqrt self = Ok 1.0) /\
  (0.75 < lambda_rel_m <= 1.4 ->
     TimberBeamCheck._calc_kcrit sqrt self = Ok (1.56 - 0.75 * lambda_rel_m) /\
     0.51 <= 1.56 - 0.75 * lambda_rel_m < 0.9975) /\
  (1.4 < lambda_rel_m ->
     TimberBeamCheck._calc_kcrit sqrt self = Ok (1.0 / lambda_rel_m ^ 2)) /\
  TimberBeamCheck.kcrit_branch_1 == 1.0 /\
  TimberBeamCheck.kcrit_branch_2 0.75 == 0.9975 /\
  TimberBeamCheck.kcrit_branch_2 1.4 == 0.51 /\
  TimberBeamCheck.kcrit_branch_3 1.4 = Ok (1.0 / 1.4 ^ 2) /\
  1.0 / 1.4 ^ 2 == 25 # 49 /\
  1.0 / 1.4 ^ 2 - TimberBeamCheck.kcrit_branch_2 1.4 == 1 # 4900.
Proof.
  intro Hl. unfold TimberBeamCheck._calc_kcrit. rewrite Hl. simpl bind.
  split; [|split; [|split]].
  - intro H. apply leb_true in H. now rewrite H.
  - intros [H1 H2]. apply leb_false in H1. apply leb_true in H2.
    rewrite H1, H2. split; [reflexivity|].
    apply leb_false in H1. apply leb_true in H2. lra.
  - intro H.
    assert (H1 : (lambda_rel_m <=? 0.75) = false) by (apply leb_false; lra).
    assert (H2 : (lambda_rel_m <=? 1.4) = false) by (apply leb_false; lra).
    rewrite H1, H2. now apply kcrit_branch_3_Ok.
  - repeat split; reflexivity.
Qed.

Lemma kcrit_three_branch_policy_witness :
  exists lambda_rel_m,
    TimberBeamCheck._calc_lambda_rel_m sqrt_approx beam_check_L300 = Ok lambda_rel_m /\
    lambda_rel_m <= 0.75 /\
    TimberBeamCheck._calc_kcrit sqrt_approx beam_check_L300 = Ok 1.0.
Proof.
  exists (569950 # 1000000).
  assert (Hl : TimberBeamCheck._calc_lambda_rel_m sqrt_approx beam_check_L300
               = Ok (569950 # 1000000)) by (vm_compute; reflexivity).
  split; [exact Hl|]. split; [vm_compute; discriminate|].
  apply (kcrit_three_branch_policy sqrt_approx beam_check_L300 _ Hl).
  vm_compute. discriminate.
Defined.

(** C1 (as stated) fails at the first boundary: at a slenderness of 0.75
    the two adjacent branches do not both yield 1.0, since the second
    expression evaluates to 0.9975. *)
Lemma kcrit_boundary_075_not_continuous :
  ~ (TimberBeamCheck.kcrit_branch_1 == 1.0 /\
     TimberBeamCheck.kcrit_branch_2 0.75 == 1.0).
Proof.
  intros [_ H]. vm_compute in H. discriminate.
Qed.

(* ===================================================================== *)
(** ** The deflection check (src/timber_check.py)                         *)
(* ===================================================================== *)

Lemma I_y_pos (s : RectangularSection.t) :
  0 < RectangularSection.b s -> 0 < RectangularSection.h s ->
  0 < RectangularSection.I_y s.
Proof.
  intros Hb Hh. unfold RectangularSection.I_y. rewrite pow3.
  assert (H2 : 0 < RectangularSection.h s * RectangularSection.h s) by nra.
  assert (H3 : 0 < RectangularSection.h s * RectangularSection.h s
                   * RectangularSection.h s) by nra.
  apply Qlt_shift_div_l; [reflexivity|]. nra.
Qed.

Lemma W_y_pos (s : RectangularSection.t) :
  0 < RectangularSection.b s -> 0 < RectangularSection.h s ->
  0 < RectangularSection.W_y s.
Proof.
  intros Hb Hh. unfold RectangularSection.W_y. rewrite pow2.
  assert (H2 : 0 < RectangularSection.h s * RectangularSection.h s) by nra.
  apply Qlt_shift_div_l; [reflexivity|]. nra.
Qed.

Lemma A_pos (s : RectangularSection.t) :
  0 < RectangularSection.b s -> 0 < RectangularSection.h s ->
  0 < RectangularSection.A s.
Proof. intros Hb Hh. unfold RectangularSection.A. nra. Qed.

Lemma inject_Z_nonzero (z : Z) : z <> 0%Z -> ~ inject_Z z == 0.
Proof.
  intros Hz H. apply Hz. unfold Qeq in H. simpl in H. lia.
Qed.

Lemma inject_Z_pos (z : Z) : (0 < z)%Z -> 0 < inject_Z z.
Proof.
  intro Hz. unfold Qlt. simpl. lia.
Qed.

(** C8.  [check_deflection] returns the instantaneous deflection
    [5 q_char L_mm^4 / (384 E_0_mean I_y)], the final deflection
    [w_inst * ((g_k/q_char)(1 + kdef) + (q_k/q_char)(1 + psi_2 kdef))] with
    the two share ratios replaced by 1 and 0 when [q_char = 0], the limit
    [L_mm / limit_ratio], and [passed] exactly when [w_fin <= w_limit]. *)
Theorem check_deflection_formulas (self : TimberBeamCheck.t) :
  let l := TimberBeamCheck.load self in
  let L_mm := LoadCase.span l * 1000 in
  let q_char := LoadCase.q_char l in
  let E := TimberMaterial.E_0_mean (TimberBeamCheck.mat self) in
  let I := RectangularSection.I_y (TimberBeamCheck.sec self) in
  let kdef := LoadCase.kdef l in
  let psi_2 := LoadCase.psi_2 l in
  let limit_ratio := TimberBeamCheck.deflection_limit self in
  0 < E ->
  0 < RectangularSection.b (TimberBeamCheck.sec self) ->
  0 < RectangularSection.h (TimberBeamCheck.sec self) ->
  0 <= LoadCase.g_k l -> 0 <= LoadCase.q_k l ->
  limit_ratio <> 0%Z ->
  exists r,
    TimberBeamCheck.check_deflection self = Ok r /\
    DeflectionResult.w_inst r == 5 * q_char * L_mm ^ 4 / (384 * E * I) /\
    (0 < q_char ->
       DeflectionResult.w_fin r ==
         DeflectionResult.w_inst r
         * (LoadCase.g_k l / q_char * (1 + kdef)
            + LoadCase.q_k l / q_char * (1 + psi_2 * kdef))) /\
    (q_char == 0 ->
       DeflectionResult.w_fin r ==
         DeflectionResult.w_inst r * (1 * (1 + kdef) + 0 * (1 + psi_2 * kdef))) /\
    (0 < q_char \/ q_char == 0) /\
    DeflectionResult.w_limit r == L_mm / inject_Z limit_ratio /\
    DeflectionResult.limit_ratio r = limit_ratio /\
    (DeflectionResult.passed r = true <->
       DeflectionResult.w_fin r <= DeflectionResult.w_limit r).
Proof.
  intros l L_mm q_char E I kdef psi_2 limit_ratio HE Hb Hh Hg Hq Hlim.
  assert (HI : 0 < I) by (apply I_y_pos; assumption).
  assert (HEI : ~ 384 * E * I == 0) by nra.
  unfold TimberBeamCheck.check_deflection.
  fold l. fold L_mm. fold q_char. fold E. fold I. fold kdef. fold psi_2.
  fold limit_ratio.
  rewrite (div_Ok _ _ HEI). simpl bind.
  rewrite (div_Ok L_mm _ (inject_Z_nonzero _ Hlim)).
  destruct (q_char >? 0) eqn:Eq.
  - apply ltb_true in Eq.
    assert (Hq0 : ~ q_char == 0) by lra.
    rewrite !(div_Ok _ _ Hq0). simpl bind.
    eexists. split; [reflexivity|]. simpl.
    split; [reflexivity|]. split; [intros _; reflexivity|].
    split; [intro H0; lra|]. split; [left; exact Eq|].
    split; [reflexivity|]. split; [reflexivity|]. apply leb_true.
  - apply ltb_false in Eq.
    assert (Hq0 : q_char == 0) by (unfold q_char, LoadCase.q_char in *; lra).
    simpl bind. eexists. split; [reflexivity|]. simpl.
    split; [reflexivity|]. split; [intro H0; lra|].
    split.
    { intros _. setoid_replace 1.0 with 1 by reflexivity.
      setoid_replace 0.0 with 0 by reflexivity. reflexivity. }
    split; [right; exact Hq0|].
    split; [reflexivity|]. split; [reflexivity|]. apply leb_true.
Qed.

Lemma check_deflection_formulas_witness :
  exists r,
    TimberBeamCheck.check_deflection beam_check_L300 = Ok r /\
    DeflectionResult.w_limit r == 5 * 1000 / 300 /\
    (DeflectionResult.passed r = true <->
       DeflectionResult.w_fin r <= DeflectionResult.w_limit r).
Proof.
  destruct (check_deflection_formulas beam_check_L300)
    as (r & Hr & _ & _ & _ & _ & Hl & _ & Hp);
    try reflexivity; try discriminate.
  exists r. split; [exact Hr|]. split; [exact Hl | exact Hp].
Defined.

(* ===================================================================== *)
(** ** Pass flags of the structural checks (src/timber_check.py)          *)
(* ===================================================================== *)

Lemma bind_Ok_inv {A B : Type} (m : result A) (k : A -> result B) (y : B) :
  bind m k = Ok y -> exists x, m = Ok x /\ k x = Ok y.
Proof.
  destruct m as [x|e]; simpl; intro H; [eauto | discriminate].
Qed.

Lemma div_Ok_inv (x y z : Q) :
  Py.div x y = Ok z -> ~ y == 0 /\ z = x / y.
Proof.
  unfold Py.div. destruct (Qeq_bool y 0) eqn:E; [discriminate|].
  intro H. injection H as <-. split; [|reflexivity].
  now apply Qeq_bool_neq.
Qed.

Lemma Qdiv_pos (x y : Q) : 0 < x -> 0 < y -> 0 < x / y.
Proof.
  intros Hx Hy. apply Qlt_shift_div_l; [exact Hy | lra].
Qed.

Lemma Qdiv_le_1 (x y : Q) : 0 < y -> (x / y <= 1 <-> x <= y).
Proof.
  intro Hy. split; intro H.
  - assert (E : y * (x / y) == x) by (apply Qmult_div_r; lra).
    rewrite <- E. nra.
  - apply Qle_shift_div_r; [exact Hy | lra].
Qed.

Ltac bind_inv H :=
  let x := fresh "x" in
  let Hx := fresh "Hx" in
  apply bind_Ok_inv in H; destruct H as (x & Hx & H).

Lemma check_bending_passed (self : TimberBeamCheck.t) (r : CheckResult.t) :
  TimberBeamCheck.check_bending self = Ok r ->
  CheckResult.passed r = (CheckResult.utilization r <=? 1).
Proof.
  unfold TimberBeamCheck.check_bending. intro H.
  bind_inv H. bind_inv H. injection H as <-. reflexivity.
Qed.

Lemma check_shear_passed (self : TimberBeamCheck.t) (r : CheckResult.t) :
  TimberBeamCheck.check_shear self = Ok r ->
  CheckResult.passed r = (CheckResult.utilization r <=? 1).
Proof.
  unfold TimberBeamCheck.check_shear. intro H.
  bind_inv H. bind_inv H. injection H as <-. reflexivity.
Qed.

Lemma check_ltb_passed (sqrt : Q -> Q) (self : TimberBeamCheck.t) (r : CheckResult.t) :
  TimberBeamCheck.check_lateral_torsional_buckling sqrt self = Ok r ->
  CheckResult.passed r = (CheckResult.utilization r <=? 1).
Proof.
  unfold TimberBeamCheck.check_lateral_torsional_buckling. intro H.
  bind_inv H. bind_inv H. bind_inv H. injection H as <-. reflexivity.
Qed.

(** With a positive span and a positive limit ratio the limit [w_limit]
    is positive, so the quotient [w_fin / w_limit] is at most 1 exactly
    when [w_fin <= w_limit]. *)
Lemma check_deflection_passed (self : TimberBeamCheck.t) (d : DeflectionResult.t) :
  0 < LoadCase.span (TimberBeamCheck.load self) ->
  (0 < TimberBeamCheck.deflection_limit self)%Z ->
  TimberBeamCheck.check_deflection self = Ok d ->
  0 < DeflectionResult.w_limit d /\
  DeflectionResult.utilization d =
    Ok (DeflectionResult.w_fin d / DeflectionResult.w_limit d) /\
  (DeflectionResult.passed d = true <->
     DeflectionResult.w_fin d / DeflectionResult.w_limit d <= 1).
Proof.
  intros HL Hlim H. unfold TimberBeamCheck.check_deflection in H.
  bind_inv H. bind_inv H. bind_inv H. bind_inv H.
  injection H as <-. simpl.
  apply div_Ok_inv in Hx2. destruct Hx2 as [_ ->].
  assert (Hw : 0 < LoadCase.span (TimberBeamCheck.load self) * 1000
                   / inject_Z (TimberBeamCheck.deflection_limit self)).
  { apply Qdiv_pos; [lra | now apply inject_Z_pos]. }
  split; [exact Hw|]. split.
  - unfold DeflectionResult.utilization. simpl. apply div_Ok. lra.
  - rewrite leb_true. symmetry. now apply Qdiv_le_1.
Qed.

Lemma run_all_checks_inv (sqrt : Q -> Q) (self : TimberBeamCheck.t)
    (r : TimberBeamCheck.results) :
  TimberBeamCheck.run_all_checks sqrt self = Ok r ->
  TimberBeamCheck.check_bending self = Ok (TimberBeamCheck.bending r) /\
  TimberBeamCheck.check_shear self = Ok (TimberBeamCheck.shear r) /\
  TimberBeamCheck.check_lateral_torsional_buckling sqrt self =
    Ok (TimberBeamCheck.lateral_torsional_buckling r) /\
  TimberBeamCheck.check_deflection self = Ok (TimberBeamCheck.deflection r).
Proof.
  unfold TimberBeamCheck.run_all_checks. intro H.
  bind_inv H. bind_inv H. bind_inv H. bind_inv H. bind_inv H. bind_inv H.
  injection H as <-. simpl. auto.
Qed.

Lemma fm_d_pos (self : TimberBeamCheck.t) :
  0 < TimberMaterial.fm_k (TimberBeamCheck.mat self) ->
  0 < TimberBeamCheck.fm_d self.
Proof.
  intro H. unfold TimberBeamCheck.fm_d.
  apply Qdiv_pos; [|apply gamma_M_pos].
  pose proof (kmod_pos (TimberBeamCheck.load self)). nra.
Qed.

Lemma fv_d_pos (self : TimberBeamCheck.t) :
  0 < TimberMaterial.fv_k (TimberBeamCheck.mat self) ->
  0 < TimberBeamCheck.fv_d self.
Proof.
  intro H. unfold TimberBeamCheck.fv_d.
  apply Qdiv_pos; [|apply gamma_M_pos].
  pose proof (kmod_pos (TimberBeamCheck.load self)). nra.
Qed.

Section ValidBeamCheck.

Variable sqrt : Q -> Q.
Variable self : TimberBeamCheck.t.

Hypothesis fm_k_pos : 0 < TimberMaterial.fm_k (TimberBeamCheck.mat self).
Hypothesis fv_k_pos : 0 < TimberMaterial.fv_k (TimberBeamCheck.mat self).
Hypothesis E_0_mean_pos : 0 < TimberMaterial.E_0_mean (TimberBeamCheck.mat self).
Hypothesis E_0_05_pos : 0 < TimberMaterial.E_0_05 (TimberBeamCheck.mat self).
Hypothesis b_pos : 0 < RectangularSection.b (TimberBeamCheck.sec self).
Hypothesis h_pos : 0 < RectangularSection.h (TimberBeamCheck.sec self).
Hypothesis span_pos : 0 < LoadCase.span (TimberBeamCheck.load self).
Hypothesis lef_factor_pos : 0 < TimberBeamCheck.lef_factor self.
Hypothesis deflection_limit_pos : (0 < TimberBeamCheck.deflection_limit self)%Z.

Lemma check_bending_total : exists r, TimberBeamCheck.check_bending self = Ok r.
Proof.
  unfold TimberBeamCheck.check_bending.
  pose proof (W_y_pos _ b_pos h_pos) as HW.
  pose proof (fm_d_pos self fm_k_pos) as Hf.
  rewrite div_Ok by lra. simpl bind. rewrite div_Ok by lra. simpl bind. eauto.
Qed.

Lemma check_shear_total : exists r, TimberBeamCheck.check_shear self = Ok r.
Proof.
  unfold TimberBeamCheck.check_shear.
  pose proof (A_pos _ b_pos h_pos) as HA.
  pose proof (kcr_pos (TimberBeamCheck.mat self)) as Hk.
  pose proof (fv_d_pos self fv_k_pos) as Hf.
  rewrite div_Ok by nra. simpl bind. rewrite div_Ok by lra. simpl bind. eauto.
Qed.

Lemma calc_sigma_m_crit_total :
  exists s, TimberBeamCheck._calc_sigma_m_crit self = Ok s /\ 0 < s.
Proof.
  unfold TimberBeamCheck._calc_sigma_m_crit.
  set (lef := TimberBeamCheck.lef_factor self
              * LoadCase.span (TimberBeamCheck.load self) * 1000).
  assert (Hlef : 0 < lef) by (unfold lef; nra).
  assert (Hden : 0 < RectangularSection.h (TimberBeamCheck.sec self) * lef) by nra.
  rewrite div_Ok by lra. eexists. split; [reflexivity|].
  apply Qdiv_pos; [|exact Hden]. rewrite pow2.
  assert (0 < RectangularSection.b (TimberBeamCheck.sec self)
              * RectangularSection.b (TimberBeamCheck.sec self)) by nra.
  nra.
Qed.

Lemma calc_lambda_rel_m_total :
  exists lam, TimberBeamCheck._calc_lambda_rel_m sqrt self = Ok lam.
Proof.
  unfold TimberBeamCheck._calc_lambda_rel_m.
  destruct calc_sigma_m_crit_total as (s & -> & Hs). simpl bind.
  rewrite div_Ok by lra. simpl bind. unfold Py.math_sqrt.
  assert (Hr : 0 < TimberMaterial.fm_k (TimberBeamCheck.mat self) / s)
    by (apply Qdiv_pos; assumption).
  assert (E : (TimberMaterial.fm_k (TimberBeamCheck.mat self) / s <? 0) = false)
    by (apply ltb_false; lra).
  rewrite E. eauto.
Qed.

(** Whatever [math.sqrt] returns, the factor is positive: it is 1, or at
    least 0.51, or the inverse of a square above 1.96. *)
Lemma calc_kcrit_total :
  exists k, TimberBeamCheck._calc_kcrit sqrt self = Ok k /\ 0 < k.
Proof.
  unfold TimberBeamCheck._calc_kcrit.
  destruct calc_lambda_rel_m_total as (lam & ->). simpl bind.
  destruct (lam <=? 0.75) eqn:E1.
  - eexists. split; [reflexivity | reflexivity].
  - destruct (lam <=? 1.4) eqn:E2.
    + eexists. split; [reflexivity|]. apply leb_true in E2.
      unfold TimberBeamCheck.kcrit_branch_2. lra.
    + apply leb_false in E2. rewrite (kcrit_branch_3_Ok lam E2).
      eexists. split; [reflexivity|]. apply Qdiv_pos; [reflexivity|].
      rewrite pow2. nra.
Qed.

Lemma check_ltb_total :
  exists r, TimberBeamCheck.check_lateral_torsional_buckling sqrt self = Ok r.
Proof.
  unfold TimberBeamCheck.check_lateral_torsional_buckling.
  destruct calc_kcrit_total as (k & -> & Hk). simpl bind.
  pose proof (W_y_pos _ b_pos h_pos) as HW.
  pose proof (fm_d_pos self fm_k_pos) as Hf.
  rewrite div_Ok by lra. simpl bind. rewrite div_Ok by nra. simpl bind. eauto.
Qed.

Lemma check_deflection_total :
  exists d, TimberBeamCheck.check_deflection self = Ok d.
Proof.
  unfold TimberBeamCheck.check_deflection.
  pose proof (I_y_pos _ b_pos h_pos) as HI.
  rewrite div_Ok by nra. simpl bind.
  rewrite (div_Ok (LoadCase.span (TimberBeamCheck.load self) * 1000));
    [|apply inject_Z_nonzero; lia].
  destruct (LoadCase.q_char (TimberBeamCheck.load self) >? 0) eqn:E.
  - apply ltb_true in E. rewrite !div_Ok by lra. simpl bind. eauto.
  - simpl bind. eauto.
Qed.

Lemma run_all_checks_total :
  exists r, TimberBeamCheck.run_all_checks sqrt self = Ok r.
Proof.
  unfold TimberBeamCheck.run_all_checks.
  destruct check_bending_total as (rb & ->).
  destruct check_shear_total as (rs & ->).
  destruct check_ltb_total as (rl & ->).
  destruct check_deflection_total as (rd & ->).
  destruct calc_kcrit_total as (k & -> & _).
  destruct calc_lambda_rel_m_total as (lam & ->).
  simpl bind. eauto.
Qed.

End ValidBeamCheck.

(** Whenever [run_all_checks] returns, on a positive span and with a
    positive limit ratio, the four flags agree with the utilizations; the
    remaining validity conditions only serve to exclude an exception. *)
Lemma run_all_checks_flags (sqrt : Q -> Q) (self : TimberBeamCheck.t)
    (r : TimberBeamCheck.results) :
  0 < LoadCase.span (TimberBeamCheck.load self) ->
  (0 < TimberBeamCheck.deflection_limit self)%Z ->
  TimberBeamCheck.run_all_checks sqrt self = Ok r ->
  (CheckResult.passed (TimberBeamCheck.bending r) = true <->
     CheckResult.utilization (TimberBeamCheck.bending r) <= 1) /\
  (CheckResult.passed (TimberBeamCheck.shear r) = true <->
     CheckResult.utilization (TimberBeamCheck.shear r) <= 1) /\
  (CheckResult.passed (TimberBeamCheck.lateral_torsional_buckling r) = true <->
     CheckResult.utilization (TimberBeamCheck.lateral_torsional_buckling r) <= 1) /\
  DeflectionResult.utilization (TimberBeamCheck.deflection r) =
    Ok (DeflectionResult.w_fin (TimberBeamCheck.deflection r)
        / DeflectionResult.w_limit (TimberBeamCheck.deflection r)) /\
  0 < DeflectionResult.w_limit (TimberBeamCheck.deflection r) /\
  (DeflectionResult.passed (TimberBeamCheck.deflection r) = true <->
     DeflectionResult.w_fin (TimberBeamCheck.deflection r)
     / DeflectionResult.w_limit (TimberBeamCheck.deflection r) <= 1).
Proof.
  intros HL Hlim Hr.
  destruct (run_all_checks_inv sqrt self r Hr) as (H1 & H2 & H3 & H4).
  destruct (check_deflection_passed self _ HL Hlim H4) as (Hw & Hu & Hp).
  split; [rewrite (check_bending_passed _ _ H1); apply leb_true|].
  split; [rewrite (check_shear_passed _ _ H2); apply leb_true|].
  split; [rewrite (check_ltb_passed _ _ _ H3); apply leb_true|].
  split; [exact Hu|]. split; [exact Hw | exact Hp].
Qed.

(** C3 (as the code has it).  On valid input (positive material properties
    and section dimensions, non-negative loads, positive span and a positive
    effective length factor) and, in addition, with a positive limit ratio
    [deflection_limit], [run_all_checks] returns its results, and in each of
    the four of them [passed] holds exactly when the utilization is at most
    1; for the deflection the utilization is [w_fin / w_limit], with
    [w_limit > 0].  The positivity of the limit ratio is a condition on the
    caller: a valid load case alone does not give it. *)
Theorem run_all_checks_passed_iff_utilization (sqrt : Q -> Q)
    (self : TimberBeamCheck.t) :
  let m := TimberBeamCheck.mat self in
  let s := TimberBeamCheck.sec self in
  let l := TimberBeamCheck.load self in
  0 < TimberMaterial.fm_k m -> 0 < TimberMaterial.fv_k m ->
  0 < TimberMaterial.E_0_mean m -> 0 < TimberMaterial.E_0_05 m ->
  0 < RectangularSection.b s -> 0 < RectangularSection.h s ->
  0 <= LoadCase.g_k l -> 0 <= LoadCase.q_k l -> 0 < LoadCase.span l ->
  0 < TimberBeamCheck.lef_factor self ->
  (0 < TimberBeamCheck.deflection_limit self)%Z ->
  exists r u,
    TimberBeamCheck.run_all_checks sqrt self = Ok r /\
    (CheckResult.passed (TimberBeamCheck.bending r) = true <->
       CheckResult.utilization (TimberBeamCheck.bending r) <= 1) /\
    (CheckResult.passed (TimberBeamCheck.shear r) = true <->
       CheckResult.utilization (TimberBeamCheck.shear r) <= 1) /\
    (CheckResult.passed (TimberBeamCheck.lateral_torsional_buckling r) = true <->
       CheckResult.utilization (TimberBeamCheck.lateral_torsional_buckling r) <= 1) /\
    DeflectionResult.utilization (TimberBeamCheck.deflection r) = Ok u /\
    u == DeflectionResult.w_fin (TimberBeamCheck.deflection r)
         / DeflectionResult.w_limit (TimberBeamCheck.deflection r) /\
    0 < DeflectionResult.w_limit (TimberBeamCheck.deflection r) /\
    (DeflectionResult.passed (TimberBeamCheck.deflection r) = true <-> u <= 1) /\
    (DeflectionResult.passed (TimberBeamCheck.deflection r) = true <->
       DeflectionResult.w_fin (TimberBeamCheck.deflection r)
       <= DeflectionResult.w_limit (TimberBeamCheck.deflection r)).
Proof.
  intros m s l Hfm Hfv HE HE5 Hb Hh Hg Hq HL Hlef Hlim.
  destruct (run_all_checks_total sqrt self Hfm Hfv HE HE5 Hb Hh HL Hlef Hlim)
    as (r & Hr).
  destruct (run_all_checks_flags sqrt self r HL Hlim Hr)
    as (Hbend & Hshear & Hltb & Hu & Hw & Hp).
  exists r. eexists. split; [exact Hr|].
  split; [exact Hbend|]. split; [exact Hshear|]. split; [exact Hltb|].
  split; [exact Hu|]. split; [reflexivity|]. split; [exact Hw|].
  split; [exact Hp|]. rewrite Hp. now apply Qdiv_le_1.
Qed.

Lemma run_all_checks_passed_iff_utilization_witness :
  exists r u,
    TimberBeamCheck.run_all_checks sqrt_approx beam_check_L300 = Ok r /\
    (CheckResult.passed (TimberBeamCheck.bending r) = true <->
       CheckResult.utilization (TimberBeamCheck.bending r) <= 1) /\
    DeflectionResult.utilization (TimberBeamCheck.deflection r) = Ok u /\
    (DeflectionResult.passed (TimberBeamCheck.deflection r) = true <-> u <= 1).
Proof.
  destruct (run_all_checks_passed_iff_utilization sqrt_approx beam_check_L300)
    as (r & u & Hr & Hb & _ & _ & Hu & _ & _ & Hp & _);
    try reflexivity; try discriminate.
  exists r, u. auto.
Defined.

(** C3 (as stated) fails for a valid material, section and load when the
    limit ratio is negative: the section 160 x 400 and the load case pass
    their constructors, [run_all_checks] returns, and with a ratio of -300
    the limit [w_limit] is negative, so the deflection result has
    [passed = False] although its utilization [w_fin / w_limit] is at most
    1 (it is negative). *)
Lemma negative_limit_ratio_breaks_deflection_flag :
  RectangularSection.new 160 400 = Ok section_160x400 /\
  LoadCase.new 2 5 5 SC1 medium_term "cat_A" = Ok load_2_5_5 /\
  exists r u,
    TimberBeamCheck.run_all_checks sqrt_approx beam_check_negative_limit
    = Ok r /\
    DeflectionResult.utilization (TimberBeamCheck.deflection r) = Ok u /\
    DeflectionResult.w_limit (TimberBeamCheck.deflection r) < 0 /\
    u <= 1 /\
    DeflectionResult.passed (TimberBeamCheck.deflection r) = false /\
    ~ (DeflectionResult.passed (TimberBeamCheck.deflection r) = true <->
       u <= 1).
Proof.
  split; [reflexivity|]. split; [reflexivity|].
  eexists. eexists.
  split; [vm_compute; reflexivity|].
  split; [vm_compute; reflexivity|].
  split; [vm_compute; reflexivity|].
  split; [vm_compute; discriminate|].
  split; [vm_compute; reflexivity|].
  intros [_ H].
  assert (Hf : false = true) by (apply H; vm_compute; discriminate).
  discriminate Hf.
Qed.

(* ===================================================================== *)
(** ** Validation errors                                                  *)
(* ===================================================================== *)

Lemma bind_Ok {A B : Type} (x : A) (k : A -> result B) : bind (Ok x) k = k x.
Proof. reflexivity. Qed.

Lemma bind_Raise {A B : Type} (m : result A) (k : A -> result B) (e : exn) :
  m = Raise e -> bind m k = Raise e.
Proof. intros ->. reflexivity. Qed.

Lemma RectangularSection_new_Raise (b h : Q) :
  b <= 0 \/ h <= 0 ->
  RectangularSection.new b h =
    Raise (ValueError RectangularSection.dimensions_message).
Proof.
  intro H. unfold RectangularSection.new, RectangularSection.__post_init__.
  simpl.
  assert (E : (b <=? 0) || (h <=? 0) = true).
  { apply orb_true_iff. rewrite !leb_true. exact H. }
  now rewrite E.
Qed.

Lemma LoadCase_new_Raise (g q L : Q) (sc : ServiceClass) (ld : LoadDuration)
    (cat : string) :
  g < 0 \/ q < 0 \/ L <= 0 ->
  exists msg,
    LoadCase.new g q L sc ld cat = Raise (ValueError msg) /\
    ((msg = LoadCase.g_k_message /\ g < 0) \/
     (msg = LoadCase.q_k_message /\ 0 <= g /\ q < 0) \/
     (msg = LoadCase.span_message /\ 0 <= g /\ 0 <= q /\ L <= 0)).
Proof.
  intro H. unfold LoadCase.new, LoadCase.__post_init__. simpl.
  destruct (g <? 0) eqn:Eg.
  { apply ltb_true in Eg. eexists. split; [reflexivity | auto]. }
  apply ltb_false in Eg.
  destruct (q <? 0) eqn:Eq.
  { apply ltb_true in Eq. eexists. split; [reflexivity | auto]. }
  apply ltb_false in Eq.
  destruct (L <=? 0) eqn:EL.
  { apply leb_true in EL. eexists. split; [reflexivity | auto 6]. }
  apply leb_false in EL. exfalso. destruct H as [H | [H | H]]; lra.
Qed.

(** C9.  Invalid input is rejected when the value is constructed or looked
    up: a section with a non-positive dimension, a load case with a negative
    load or a non-positive span (the message names the first offending
    field, and the three messages differ), and a grade name that is not in
    the database all raise; whatever is sequenced after the failed
    construction never runs.  Valid input is accepted. *)
Theorem invalid_input_fails_at_construction :
  (forall b h : Q, b <= 0 \/ h <= 0 ->
     RectangularSection.new b h =
       Raise (ValueError RectangularSection.dimensions_message)) /\
  (forall (g q L : Q) sc ld cat, g < 0 \/ q < 0 \/ L <= 0 ->
     exists msg,
       LoadCase.new g q L sc ld cat = Raise (ValueError msg) /\
       ((msg = LoadCase.g_k_message /\ g < 0) \/
        (msg = LoadCase.q_k_message /\ 0 <= g /\ q < 0) \/
        (msg = LoadCase.span_message /\ 0 <= g /\ 0 <= q /\ L <= 0))) /\
  (LoadCase.g_k_message <> LoadCase.q_k_message /\
   LoadCase.g_k_message <> LoadCase.span_message /\
   LoadCase.q_k_message <> LoadCase.span_message) /\
  (forall (db : database) (key : string), ~ In key (map fst db) ->
     get_material db key = Raise (ValueError (unknown_grade_message db key))) /\
  (forall (A B : Type) (m : result A) (k : A -> result B) (e : exn),
     m = Raise e -> bind m k = Raise e) /\
  (forall b h : Q, 0 < b -> 0 < h ->
     RectangularSection.new b h = Ok (RectangularSection.mk b h)) /\
  (forall (g q L : Q) sc ld cat, 0 <= g -> 0 <= q -> 0 < L ->
     LoadCase.new g q L sc ld cat = Ok (LoadCase.mk g q L sc ld cat)) /\
  (forall (db : database) (key : string), In key (map fst db) ->
     exists m, get_material db key = Ok m).
Proof.
  split; [exact RectangularSection_new_Raise|].
  split; [exact LoadCase_new_Raise|].
  split; [repeat split; discriminate|].
  split.
  { intros db key H. unfold get_material.
    apply db_lookup_None in H. now rewrite H. }
  split; [intros A B m k e; apply bind_Raise|].
  split; [exact RectangularSection_new_Ok|].
  split; [exact LoadCase_new_Ok|].
  intros db key H. unfold get_material.
  destruct (db_lookup db key) eqn:E; [eauto|].
  apply db_lookup_None in E. contradiction.
Qed.

Lemma invalid_input_fails_at_construction_witness :
  RectangularSection.new 0 400 =
    Raise (ValueError RectangularSection.dimensions_message) /\
  (exists msg, LoadCase.new 2 (-5) 5 SC1 medium_term "cat_A" = Raise (ValueError msg)) /\
  get_material [("C24"%string, C24)] "C99" =
    Raise (ValueError (unknown_grade_message [("C24"%string, C24)] "C99")).
Proof.
  destruct invalid_input_fails_at_construction as (Hs & Hl & _ & Hm & _).
  split; [|split].
  - apply Hs. left. discriminate.
  - destruct (Hl 2 (-5) 5 SC1 medium_term "cat_A"%string) as (msg & Hmsg & _).
    + right. left. reflexivity.
    + exists msg. exact Hmsg.
  - apply Hm. simpl. intros [H | []]. discriminate.
Defined.

(* ===================================================================== *)
(** ** The search for a fire-resistant section (src/fire_check.py)        *)
(* ===================================================================== *)

Section ValidFireCheck.

Variable self : TimberFireCheck.t.

Hypothesis fm_k_pos : 0 < TimberMaterial.fm_k (TimberFireCheck.mat self).
Hypothesis fv_k_pos : 0 < TimberMaterial.fv_k (TimberFireCheck.mat self).

Lemma check_bending_fire_total :
  exists r, TimberFireCheck.check_bending_fire self = Ok r.
Proof.
  unfold TimberFireCheck.check_bending_fire.
  destruct (ReducedSection.is_valid (TimberFireCheck.get_reduced_section self)) eqn:E;
    simpl negb; cbv iota; [|eauto].
  apply is_valid_true in E. destruct E as [Hb Hh].
  unfold TimberFireCheck.M_Ed_fi.
  destruct (eta_fi_total self) as (eta & ->). simpl bind.
  assert (HW : 0 < ReducedSection.W_y_fi (TimberFireCheck.get_reduced_section self)).
  { unfold ReducedSection.W_y_fi. rewrite pow2.
    set (bf := ReducedSection.b_fi _) in *. set (hf := ReducedSection.h_fi _) in *.
    assert (0 < hf * hf) by nra.
    apply Qlt_shift_div_l; [reflexivity | nra]. }
  rewrite div_Ok by lra. simpl bind.
  pose proof (fm_d_fi_value self) as Hf.
  rewrite div_Ok by lra. simpl bind. eauto.
Qed.

Lemma check_shear_fire_total :
  exists r, TimberFireCheck.check_shear_fire self = Ok r.
Proof.
  unfold TimberFireCheck.check_shear_fire.
  destruct (ReducedSection.is_valid (TimberFireCheck.get_reduced_section self)) eqn:E;
    simpl negb; cbv iota; [|eauto].
  apply is_valid_true in E. destruct E as [Hb Hh].
  unfold TimberFireCheck.V_Ed_fi.
  destruct (eta_fi_total self) as (eta & ->). simpl bind.
  assert (HA : 0 < ReducedSection.A_fi (TimberFireCheck.get_reduced_section self)).
  { unfold ReducedSection.A_fi. nra. }
  rewrite div_Ok by lra. simpl bind.
  pose proof (fv_d_fi_value self) as Hf.
  rewrite div_Ok by lra. simpl bind. eauto.
Qed.

Lemma fire_run_all_checks_total :
  exists r, TimberFireCheck.run_all_checks self = Ok r /\
            TimberFireCheck.suggested_section r = None.
Proof.
  unfold TimberFireCheck.run_all_checks.
  destruct check_bending_fire_total as (rb & ->).
  destruct check_shear_fire_total as (rs & ->).
  unfold TimberFireCheck.M_Ed_fi, TimberFireCheck.V_Ed_fi.
  destruct (eta_fi_total self) as (eta & ->).
  simpl bind. eexists. split; reflexivity.
Qed.

End ValidFireCheck.

Lemma find_first_sorted (f : Z -> bool) (l : list Z) (d : Z) :
  Sorted Z.lt l -> In d l -> f d = true ->
  (forall d', In d' l -> (d' < d)%Z -> f d' = false) ->
  find f l = Some d.
Proof.
  intro Hs. apply Sorted_StronglySorted in Hs; [|exact Z.lt_strorder.(StrictOrder_Transitive)].
  induction Hs as [|a l Hs IH Ha]; intros Hin Hd Hbefore.
  - destruct Hin.
  - simpl. destruct Hin as [-> | Hin].
    + now rewrite Hd.
    + assert (Hlt : (a < d)%Z) by (rewrite Forall_forall in Ha; now apply Ha).
      rewrite (Hbefore a (or_introl eq_refl) Hlt).
      apply IH; [exact Hin | exact Hd |].
      intros d' Hd' Hlt'. apply Hbefore; [now right | exact Hlt'].
Qed.

Lemma find_all_false (f : Z -> bool) (l : list Z) :
  (forall d, In d l -> f d = false) -> find f l = None.
Proof.
  induction l as [|a l IH]; intro H; simpl; [reflexivity|].
  rewrite (H a (or_introl eq_refl)). apply IH. intros d Hd. apply H. now right.
Qed.

Lemma range_10_500_10_sorted : Sorted Z.lt (Py.range 10 500 10).
Proof.
  rewrite range_10_500_10. simpl. repeat constructor.
Qed.

Lemma range_10_500_10_In (delta : Z) :
  In delta (Py.range 10 500 10) <->
  exists k : Z, (1 <= k <= 49)%Z /\ delta = (10 * k)%Z.
Proof.
  rewrite range_10_500_10, in_map_iff. split.
  - intros (n & <- & Hn). apply in_seq in Hn. exists (Z.of_nat n). lia.
  - intros (k & Hk & ->). exists (Z.to_nat k). split; [lia|].
    apply in_seq. lia.
Qed.

(** The loop returns the dictionary extended with the first increment that
    passes, or the dictionary unchanged when none does. *)
Lemma probe_increments_find (material : TimberMaterial.t)
    (section : RectangularSection.t) (load : LoadCase.t) (fire : FireExposure.t)
    (results : TimberFireCheck.results) (deltas : list Z) :
  0 < TimberMaterial.fm_k material -> 0 < TimberMaterial.fv_k material ->
  0 < RectangularSection.b section -> 0 < RectangularSection.h section ->
  Forall (fun d => (0 < d)%Z) deltas ->
  probe_increments material section load fire results deltas =
  match find (enlarged_passes material section load fire) deltas with
  | Some delta =>
      Ok (set_suggested_section results
            (TimberFireCheck.mk_suggestion
               (RectangularSection.b section + inject_Z delta)
               (RectangularSection.h section + inject_Z delta) delta))
  | None => Ok results
  end.
Proof.
  intros Hfm Hfv Hb Hh Hpos.
  induction Hpos as [|delta rest Hd Hrest IH]; [reflexivity|].
  simpl. unfold enlarged_passes at 1.
  pose proof (inject_Z_pos delta Hd) as Hq.
  rewrite RectangularSection_new_Ok by lra. simpl bind.
  destruct (fire_run_all_checks_total
              (TimberFireCheck.mk material
                 (RectangularSection.mk
                    (RectangularSection.b section + inject_Z delta)
                    (RectangularSection.h section + inject_Z delta)) load fire)
              Hfm Hfv) as (r & -> & _).
  simpl bind.
  destruct (TimberFireCheck.all_passed r); [reflexivity | exact IH].
Qed.

(** C6 (as the code has it).  [required_fire_resistance] first runs both
    fire checks on the given section.  If they pass, the results are
    returned as they are, without a suggestion.  If not, the increments
    [range(10, 500, 10)], that is 10, 20, ..., 490 (500 itself is not
    probed), are tried in increasing order on a section enlarged by the
    increment in both directions; the smallest increment for which both
    checks pass is reported, with the enlarged dimensions, as
    [suggested_section], and when none of them passes the results carry no
    suggestion. *)
Theorem required_fire_resistance_linear_search (material : TimberMaterial.t)
    (section : RectangularSection.t) (load : LoadCase.t)
    (target_duration : Z) (exposure : ExposureType) :
  let fire := FireExposure.new target_duration exposure in
  let passes := enlarged_passes material section load fire in
  let probed := Py.range 10 500 10 in
  0 < TimberMaterial.fm_k material -> 0 < TimberMaterial.fv_k material ->
  0 < RectangularSection.b section -> 0 < RectangularSection.h section ->
  exists results,
    TimberFireCheck.run_all_checks
      (TimberFireCheck.mk material section load fire) = Ok results /\
    TimberFireCheck.suggested_section results = None /\
    (forall delta, In delta probed <->
       exists k : Z, (1 <= k <= 49)%Z /\ delta = (10 * k)%Z) /\
    (TimberFireCheck.all_passed results = true ->
       required_fire_resistance material section load target_duration exposure
       = Ok results) /\
    (TimberFireCheck.all_passed results = false ->
       (forall delta, In delta probed -> passes delta = true ->
          (forall d', In d' probed -> (d' < delta)%Z -> passes d' = false) ->
          required_fire_resistance material section load target_duration exposure
          = Ok (set_suggested_section results
                  (TimberFireCheck.mk_suggestion
                     (RectangularSection.b section + inject_Z delta)
                     (RectangularSection.h section + inject_Z delta) delta))) /\
       ((forall delta, In delta probed -> passes delta = false) ->
          required_fire_resistance material section load target_duration exposure
          = Ok results)).
Proof.
  intros fire passes probed Hfm Hfv Hb Hh.
  destruct (fire_run_all_checks_total
              (TimberFireCheck.mk material section load fire) Hfm Hfv)
    as (results & Hrun & Hnone).
  exists results. split; [exact Hrun|]. split; [exact Hnone|].
  split; [exact range_10_500_10_In|].
  assert (Hprobe : TimberFireCheck.all_passed results = false ->
    required_fire_resistance material section load target_duration exposure =
    match find passes probed with
    | Some delta =>
        Ok (set_suggested_section results
              (TimberFireCheck.mk_suggestion
                 (RectangularSection.b section + inject_Z delta)
                 (RectangularSection.h section + inject_Z delta) delta))
    | None => Ok results
    end).
  { intro Hfail. unfold required_fire_resistance. fold fire. rewrite Hrun.
    rewrite bind_Ok, Hfail. change (negb false) with true. cbv iota.
    apply probe_increments_find; try assumption.
    apply Forall_forall. intros d Hd.
    apply range_10_500_10_In in Hd. destruct Hd as (k & Hk & ->). lia. }
  split.
  - intro Hpass. unfold required_fire_resistance. fold fire. rewrite Hrun.
    rewrite bind_Ok, Hpass. reflexivity.
  - intro Hfail. rewrite (Hprobe Hfail). split.
    + intros delta Hin Hd Hbefore.
      now rewrite (find_first_sorted passes probed delta
                     range_10_500_10_sorted Hin Hd Hbefore).
    + intro Hall. now rewrite (find_all_false passes probed Hall).
Qed.

Lemma required_fire_resistance_linear_search_witness :
  exists results,
    required_fire_resistance C24 (RectangularSection.mk 60 100) load_2_5_5
      30 three_sides
    = Ok results /\
    TimberFireCheck.suggested_section results =
      Some (TimberFireCheck.mk_suggestion (60 + inject_Z 110) (100 + inject_Z 110) 110).
Proof.
  destruct (required_fire_resistance_linear_search C24
              (RectangularSection.mk 60 100) load_2_5_5 30 three_sides)
    as (results & Hrun & _ & _ & _ & Hfail); try reflexivity.
  assert (Hf : TimberFireCheck.all_passed results = false).
  { vm_compute in Hrun. injection Hrun as <-. reflexivity. }
  destruct (Hfail Hf) as [Hfirst _].
  eexists. split.
  - apply (Hfirst 110%Z).
    + apply range_10_500_10_In. exists 11%Z. split; [lia | reflexivity].
    + vm_compute. reflexivity.
    + intros d' Hd' Hlt. apply range_10_500_10_In in Hd'.
      destruct Hd' as (k & Hk & ->).
      assert (Hk' : (k = 1 \/ k = 2 \/ k = 3 \/ k = 4 \/ k = 5 \/ k = 6 \/
                     k = 7 \/ k = 8 \/ k = 9 \/ k = 10)%Z) by lia.
      repeat (destruct Hk' as [-> | Hk']; [vm_compute; reflexivity|]).
      subst k. vm_compute. reflexivity.
  - destruct results. reflexivity.
Defined.

(** C6 (as stated) fails at the upper bound: for the 100 x 100 section
    under the heavy load the original section fails, an enlargement by 500
    would pass both fire checks, and still no suggestion is returned,
    because the loop stops at 490. *)
Lemma increment_500_is_not_probed :
  enlarged_passes C24 section_100x100 load_heavy
    (FireExposure.new 30 three_sides) 500 = true /\
  exists results,
    required_fire_resistance C24 section_100x100 load_heavy 30 three_sides
    = Ok results /\
    TimberFireCheck.all_passed results = false /\
    TimberFireCheck.suggested_section results = None.
Proof.
  split; [vm_compute; reflexivity|].
  eexists. split; [vm_compute; reflexivity|]. split; reflexivity.
Qed.

(* ===================================================================== *)
(** * Further properties of the code                                      *)
(* ===================================================================== *)

(* ===================================================================== *)
(** ** Section properties (src/sections.py)                               *)
(* ===================================================================== *)

Lemma min_Qmin (x y : Q) : Py.min x y == Qmin x y.
Proof.
  unfold Py.min. destruct (y <? x) eqn:E.
  - apply ltb_true in E. symmetry. apply Q.min_r. now apply Qlt_le_weak.
  - apply ltb_false in E. symmetry. now apply Q.min_l.
Qed.



Lemma I_tor_beta_compat (x y : Q) : x == y -> I_tor_beta x = I_tor_beta y.
Proof.
  intro H. unfold I_tor_beta, leb.
  assert (E : forall c, Qle_bool x c = Qle_bool y c) by (intro c; now rewrite H).
  now rewrite !E.
Qed.

Lemma I_tor_beta_bounds (ratio : Q) :
  0.141 <= I_tor_beta ratio <= 0.333 /\
  (ratio <= 1 -> I_tor_beta ratio = 0.141) /\
  (1 < ratio -> 0.196 <= I_tor_beta ratio).
Proof.
  unfold I_tor_beta.
  destruct (ratio <=? 1.0) eqn:E1.
  { apply leb_true in E1. repeat split; try lra. }
  apply leb_false in E1.
  assert (H1 : 1 < ratio) by lra.
  repeat match goal with
         | |- context [if ?c then _ else _] => destruct c
         end; repeat split; intros; try lra.
Qed.

Lemma I_tor_Ok (s : RectangularSection.t) :
  0 < RectangularSection.b s -> 0 < RectangularSection.h s ->
  let a := Py.max (RectangularSection.h s) (RectangularSection.b s) / 2 in
  let b := Py.min (RectangularSection.h s) (RectangularSection.b s) / 2 in
  0 < b /\ b <= a /\
  RectangularSection.I_tor s = Ok (I_tor_beta (a / b) * (2 * a) * (2 * b) ^ 3).
Proof.
  intros Hb Hh a b.
  assert (Hmin : 0 < Py.min (RectangularSection.h s) (RectangularSection.b s)).
  { unfold Py.min. now destruct (_ <? _). }
  assert (Hle : Py.min (RectangularSection.h s) (RectangularSection.b s)
                <= Py.max (RectangularSection.h s) (RectangularSection.b s)).
  { rewrite min_Qmin, max_Qmax.
    apply Qle_trans with (RectangularSection.h s);
      [apply Q.le_min_l | apply Q.le_max_l]. }
  assert (Hb' : 0 < b).
  { unfold b. apply Qdiv_pos; [exact Hmin | reflexivity]. }
  split; [exact Hb'|]. split.
  { unfold a, b, Qdiv. setoid_replace (/ 2) with (1 # 2) by reflexivity. lra. }
  unfold RectangularSection.I_tor. fold a. fold b.
  rewrite div_Ok by lra. reflexivity.
Qed.

(** X2.  On a section with positive sides [I_tor] returns
    [beta * long * short^3], where [long] and [short] are the larger and the
    smaller side and [beta] comes from the eight-step table: 0.141 exactly
    for a square, between 0.196 and 0.333 otherwise.  The value is positive
    and does not change when width and depth are swapped. *)
Theorem I_tor_table (s : RectangularSection.t) :
  let b := RectangularSection.b s in
  let h := RectangularSection.h s in
  0 < b -> 0 < h ->
  exists v beta,
    RectangularSection.I_tor s = Ok v /\
    v == beta * Qmax h b * Qmin h b ^ 3 /\
    beta = I_tor_beta (Qmax h b / Qmin h b) /\
    0.141 <= beta <= 0.333 /\
    (b == h -> beta = 0.141 /\ v == 0.141 * b ^ 4) /\
    (~ b == h -> 0.196 <= beta) /\
    0 < v /\
    exists v', RectangularSection.I_tor (RectangularSection.mk h b) = Ok v' /\
               v' == v.
Proof.
  intros b h Hb Hh.
  destruct (I_tor_Ok s Hb Hh) as (Hs & Hls & HI). fold b h in Hs, Hls, HI.
  destruct (I_tor_Ok (RectangularSection.mk h b) Hh Hb) as (_ & _ & HI').
  simpl in HI'.
  assert (Hmax : Py.max h b == Qmax h b) by apply max_Qmax.
  assert (Hmin : Py.min h b == Qmin h b) by apply min_Qmin.
  assert (Hmax' : Py.max b h == Qmax h b)
    by (rewrite max_Qmax; apply Q.max_comm).
  assert (Hmin' : Py.min b h == Qmin h b)
    by (rewrite min_Qmin; apply Q.min_comm).
  assert (Hminpos : 0 < Qmin h b).
  { rewrite <- Hmin. unfold Py.min. now destruct (_ <? _). }
  assert (Hle : Qmin h b <= Qmax h b).
  { apply Qle_trans with h; [apply Q.le_min_l | apply Q.le_max_l]. }
  assert (Hratio : Py.max h b / 2 / (Py.min h b / 2) == Qmax h b / Qmin h b).
  { rewrite Hmax, Hmin. field. lra. }
  assert (Hratio' : Py.max b h / 2 / (Py.min b h / 2) == Qmax h b / Qmin h b).
  { rewrite Hmax', Hmin'. field. lra. }
  rewrite (I_tor_beta_compat _ _ Hratio) in HI.
  rewrite (I_tor_beta_compat _ _ Hratio') in HI'.
  set (beta := I_tor_beta (Qmax h b / Qmin h b)) in *.
  destruct (I_tor_beta_bounds (Qmax h b / Qmin h b))
    as (Hbnd & Hsq & Hrect). fold beta in Hbnd, Hsq, Hrect.
  assert (Hv : beta * (2 * (Py.max h b / 2)) * (2 * (Py.min h b / 2)) ^ 3
               == beta * Qmax h b * Qmin h b ^ 3).
  { rewrite Hmax, Hmin. rewrite !pow3. field. }
  assert (Hv' : beta * (2 * (Py.max b h / 2)) * (2 * (Py.min b h / 2)) ^ 3
                == beta * Qmax h b * Qmin h b ^ 3).
  { rewrite Hmax', Hmin'. rewrite !pow3. field. }
  eexists. exists beta. split; [exact HI|]. split; [exact Hv|].
  split; [reflexivity|]. split; [exact Hbnd|].
  split; [|split; [|split]].
  - intro E.
    assert (Emax : Qmax h b == b) by (apply Q.max_r; lra).
    assert (Emin : Qmin h b == b) by (apply Q.min_r; lra).
    assert (Hb1 : beta = 0.141).
    { apply Hsq. apply Qle_shift_div_r; [exact Hminpos | lra]. }
    split; [exact Hb1|]. rewrite Hv, Hb1, Emax, Emin.
    rewrite pow3. simpl. ring.
  - intro NE. apply Hrect. apply Qlt_shift_div_l; [exact Hminpos|].
    destruct (Qlt_le_dec h b) as [Hlt | Hge].
    + rewrite (Q.max_r h b), (Q.min_l h b) by lra. lra.
    + assert (Hlt : b < h).
      { destruct (Qle_lt_or_eq _ _ Hge) as [Hlt | Heq]; [exact Hlt|].
        exfalso. apply NE. exact Heq. }
      rewrite (Q.max_l h b), (Q.min_r h b) by lra. lra.
  - rewrite Hv. rewrite pow3.
    assert (H2 : 0 < Qmin h b * Qmin h b) by nra.
    assert (H3 : 0 < Qmin h b * Qmin h b * Qmin h b) by nra.
    assert (Hbp : 0 < beta) by lra.
    assert (Hmp : 0 < Qmax h b) by lra.
    assert (H4 : 0 < beta * Qmax h b) by nra.
    nra.
  - eexists. split; [exact HI'|]. rewrite Hv, Hv'. reflexivity.
Qed.

Lemma I_tor_table_witness :
  exists v, RectangularSection.I_tor section_160x400 = Ok v /\
            v == 0.263 * 400 * 160 ^ 3.
Proof.
  destruct (I_tor_table section_160x400)
    as (v & beta & Hv & Hval & Hbeta & _); try reflexivity.
  exists v. split; [exact Hv|]. rewrite Hval, Hbeta. reflexivity.
Defined.

(* ===================================================================== *)
(** ** Tables and load combinations (src/loads.py)                        *)
(* ===================================================================== *)

(** X3.  The modification factor of a load case lies between 0.5 and 1.1.
    For the same duration, service classes 1 and 2 give the same factor and
    class 3 a strictly smaller one; for the same service class the factor
    grows strictly from permanent to instantaneous loading.  The creep factor
    grows strictly with the service class. *)
Theorem kmod_kdef_tables (g q L : Q) (cat : string) :
  let lc := fun sc d => LoadCase.mk g q L sc d cat in
  (forall sc d, 0.5 <= LoadCase.kmod (lc sc d) <= 1.1) /\
  (forall d, LoadCase.kmod (lc SC1 d) = LoadCase.kmod (lc SC2 d)) /\
  (forall d, LoadCase.kmod (lc SC3 d) < LoadCase.kmod (lc SC1 d)) /\
  (forall sc,
     LoadCase.kmod (lc sc permanent) < LoadCase.kmod (lc sc long_term) /\
     LoadCase.kmod (lc sc long_term) < LoadCase.kmod (lc sc medium_term) /\
     LoadCase.kmod (lc sc medium_term) < LoadCase.kmod (lc sc short_term) /\
     LoadCase.kmod (lc sc short_term) < LoadCase.kmod (lc sc instantaneous)) /\
  (forall d,
     LoadCase.kdef (lc SC1 d) < LoadCase.kdef (lc SC2 d) /\
     LoadCase.kdef (lc SC2 d) < LoadCase.kdef (lc SC3 d)).
Proof.
  intro lc. unfold lc, LoadCase.kmod, LoadCase.kdef. simpl.
  split; [intros [] []; split; discriminate|].
  split; [intros []; reflexivity|].
  split; [intros []; reflexivity|].
  split; [intros []; repeat split|].
  intros d. split; reflexivity.
Qed.

Lemma dict_get_missing (d : list (string * Q)) (key : string) (default : Q) :
  ~ In key (map fst d) -> dict_get d key default = default.
Proof.
  induction d as [|[k v] rest IH]; simpl; intro H; [reflexivity|].
  destruct (String.eqb key k) eqn:E.
  - apply String.eqb_eq in E. subst. tauto.
  - apply IH. tauto.
Qed.

Lemma dict_get_cases (d : list (string * Q)) (key : string) (default : Q) :
  dict_get d key default = default \/ In (key, dict_get d key default) d.
Proof.
  induction d as [|[k v] rest IH]; simpl; [now left|].
  destruct (String.eqb key k) eqn:E.
  - apply String.eqb_eq in E. subst. right. now left.
  - destruct IH as [IH | IH]; [now left | right; now right].
Qed.

Lemma psi_2_range (l : LoadCase.t) : 0 <= LoadCase.psi_2 l <= 0.8.
Proof.
  unfold LoadCase.psi_2.
  destruct (dict_get_cases PSI_2 (LoadCase.load_category l) 0.3) as [-> | H].
  - split; discriminate.
  - revert H. generalize (dict_get PSI_2 (LoadCase.load_category l) 0.3).
    intros v H. unfold PSI_2 in H. simpl in H.
    repeat (destruct H as [H | H];
            [injection H as _ <-; split; discriminate|]).
    destruct H.
Qed.

(** A dictionary literal has each key once, so a lookup of a key returns the
    value written beside it. *)
Lemma dict_get_present (d : list (string * Q)) (key : string) (v default : Q) :
  NoDup (map fst d) -> In (key, v) d -> dict_get d key default = v.
Proof.
  induction d as [|[k w] rest IH]; simpl; intros Hnd Hin; [destruct Hin|].
  inversion Hnd as [|? ? Hk Hrest]; subst.
  destruct (String.eqb key k) eqn:E.
  - apply String.eqb_eq in E. subst k.
    destruct Hin as [Hin | Hin]; [now inversion Hin|].
    exfalso. apply Hk. change key with (fst (key, v)). now apply in_map.
  - destruct Hin as [Hin | Hin].
    + inversion Hin; subst. rewrite String.eqb_refl in E. discriminate.
    + now apply IH.
Qed.

Lemma PSI_2_keys_NoDup : NoDup (map fst PSI_2).
Proof.
  unfold PSI_2. simpl.
  repeat (constructor;
          [simpl; intro H;
           repeat (destruct H as [H | H]; [discriminate H|]); destruct H|]).
  constructor.
Qed.

(** X4.  [psi_2] never fails: a category that is not one of the eight keys
    of [PSI_2] gets the default 0.3, a known category gets its table value
    (0.3 for cat_A and cat_B, 0.6 for cat_C and cat_D, 0.8 for cat_E, 0 for
    cat_H, snow and wind), and in every case the factor lies between 0 and
    0.8. *)
Theorem psi_2_default_and_range (l : LoadCase.t) :
  (~ In (LoadCase.load_category l) (map fst PSI_2) -> LoadCase.psi_2 l = 0.3) /\
  (LoadCase.psi_2 l = 0.3 \/ In (LoadCase.load_category l, LoadCase.psi_2 l) PSI_2) /\
  0 <= LoadCase.psi_2 l <= 0.8 /\
  (forall v, In (LoadCase.load_category l, v) PSI_2 -> LoadCase.psi_2 l = v) /\
  (LoadCase.load_category l = "cat_A"%string -> LoadCase.psi_2 l = 0.3) /\
  (LoadCase.load_category l = "cat_B"%string -> LoadCase.psi_2 l = 0.3) /\
  (LoadCase.load_category l = "cat_C"%string -> LoadCase.psi_2 l = 0.6) /\
  (LoadCase.load_category l = "cat_D"%string -> LoadCase.psi_2 l = 0.6) /\
  (LoadCase.load_category l = "cat_E"%string -> LoadCase.psi_2 l = 0.8) /\
  (LoadCase.load_category l = "cat_H"%string -> LoadCase.psi_2 l = 0.0) /\
  (LoadCase.load_category l = "snow"%string -> LoadCase.psi_2 l = 0.0) /\
  (LoadCase.load_category l = "wind"%string -> LoadCase.psi_2 l = 0.0).
Proof.
  split; [apply dict_get_missing|].
  split; [apply dict_get_cases|].
  split; [apply psi_2_range|].
  split; [intros v Hv; apply dict_get_present;
          [apply PSI_2_keys_NoDup | exact Hv]|].
  unfold LoadCase.psi_2.
  repeat split; intros ->; reflexivity.
Qed.

Lemma psi_2_default_and_range_witness :
  LoadCase.psi_2 (LoadCase.mk 2 5 5 SC1 medium_term "cat_Z") = 0.3 /\
  LoadCase.psi_2 (LoadCase.mk 2 5 5 SC1 medium_term "cat_C") = 0.6 /\
  LoadCase.psi_2 (LoadCase.mk 2 5 5 SC1 medium_term "cat_E") = 0.8 /\
  LoadCase.psi_2 (LoadCase.mk 2 5 5 SC1 medium_term "snow") = 0.0.
Proof.
  split.
  { apply (proj1 (psi_2_default_and_range
                    (LoadCase.mk 2 5 5 SC1 medium_term "cat_Z"))).
    simpl. intros H.
    repeat (destruct H as [H | H]; [discriminate|]). destruct H. }
  split.
  { destruct (psi_2_default_and_range
                (LoadCase.mk 2 5 5 SC1 medium_term "cat_C"))
      as (_ & _ & _ & _ & _ & _ & HC & _).
    apply HC. reflexivity. }
  split.
  { destruct (psi_2_default_and_range
                (LoadCase.mk 2 5 5 SC1 medium_term "cat_E"))
      as (_ & _ & _ & Hin & _).
    apply Hin. simpl. tauto. }
  destruct (psi_2_default_and_range
              (LoadCase.mk 2 5 5 SC1 medium_term "snow"))
    as (_ & _ & _ & _ & _ & _ & _ & _ & _ & _ & Hsnow & _).
  apply Hsnow. reflexivity.
Defined.



(* ===================================================================== *)
(** ** Buckling against bending; aggregation (src/timber_check.py)        *)
(* ===================================================================== *)

Lemma calc_kcrit_range (sqrt : Q -> Q) (self : TimberBeamCheck.t) (k : Q) :
  TimberBeamCheck._calc_kcrit sqrt self = Ok k -> 0 < k /\ k <= 1.
Proof.
  unfold TimberBeamCheck._calc_kcrit. intro H. bind_inv H.
  destruct (x <=? 0.75) eqn:E1.
  { injection H as <-. split; [reflexivity | discriminate]. }
  destruct (x <=? 1.4) eqn:E2.
  { injection H as <-. apply leb_false in E1. apply leb_true in E2.
    unfold TimberBeamCheck.kcrit_branch_2. split; lra. }
  apply leb_false in E2. rewrite (kcrit_branch_3_Ok x E2) in H.
  injection H as <-.
  assert (Hsq : 1 < x ^ 2) by (rewrite pow2; nra).
  split.
  - apply Qdiv_pos; [reflexivity | lra].
  - apply Qle_shift_div_r; [lra|]. setoid_replace 1.0 with 1 by reflexivity. lra.
Qed.

Lemma Qdiv_le_denominator (x y y' : Q) :
  0 <= x -> 0 < y' -> y' <= y -> x / y <= x / y'.
Proof.
  intros Hx Hy' Hy.
  assert (E : y * (x / y) == x) by (apply Qmult_div_r; lra).
  assert (Hu : 0 <= x / y).
  { apply Qle_shift_div_l; [lra | lra]. }
  apply Qle_shift_div_l; [exact Hy'|]. nra.
Qed.

Lemma bending_stress_nonneg (self : TimberBeamCheck.t) :
  0 <= LoadCase.g_k (TimberBeamCheck.load self) ->
  0 <= LoadCase.q_k (TimberBeamCheck.load self) ->
  0 < RectangularSection.b (TimberBeamCheck.sec self) ->
  0 < RectangularSection.h (TimberBeamCheck.sec self) ->
  0 <= LoadCase.M_Ed (TimberBeamCheck.load self) * 1000000
       / RectangularSection.W_y (TimberBeamCheck.sec self).
Proof.
  intros Hg Hq Hb Hh.
  pose proof (W_y_pos _ Hb Hh) as HW.
  apply Qle_shift_div_l; [exact HW|].
  assert (HM : 0 <= LoadCase.M_Ed (TimberBeamCheck.load self)).
  { unfold LoadCase.M_Ed, LoadCase.q_Ed. rewrite pow2.
    set (L := LoadCase.span _).
    assert (0 <= L * L) by nra.
    apply Qle_shift_div_l; [reflexivity|]. nra. }
  lra.
Qed.

(** X6.  Whenever [_calc_kcrit] returns, the factor lies in (0, 1].  Hence,
    on valid input, the buckling check and the bending check report the same
    design stress, the buckling strength is [kcrit] times the bending
    strength and not larger, the buckling utilization is at least the
    bending utilization, and a beam that passes the buckling check passes
    the bending check. *)
Theorem buckling_dominates_bending (sqrt : Q -> Q) (self : TimberBeamCheck.t) :
  let m := TimberBeamCheck.mat self in
  let s := TimberBeamCheck.sec self in
  let l := TimberBeamCheck.load self in
  0 < TimberMaterial.fm_k m -> 0 < TimberMaterial.E_0_05 m ->
  0 < RectangularSection.b s -> 0 < RectangularSection.h s ->
  0 <= LoadCase.g_k l -> 0 <= LoadCase.q_k l -> 0 < LoadCase.span l ->
  0 < TimberBeamCheck.lef_factor self ->
  exists kcrit rb rl,
    TimberBeamCheck._calc_kcrit sqrt self = Ok kcrit /\
    0 < kcrit <= 1 /\
    TimberBeamCheck.check_bending self = Ok rb /\
    TimberBeamCheck.check_lateral_torsional_buckling sqrt self = Ok rl /\
    CheckResult.stress_d rl = CheckResult.stress_d rb /\
    CheckResult.strength_d rl = kcrit * CheckResult.strength_d rb /\
    CheckResult.strength_d rl <= CheckResult.strength_d rb /\
    0 <= CheckResult.utilization rb /\
    CheckResult.utilization rb <= CheckResult.utilization rl /\
    (CheckResult.passed rl = true -> CheckResult.passed rb = true).
Proof.
  intros m s l Hfm HE5 Hb Hh Hg Hq HL Hlef. subst m s l.
  destruct (calc_kcrit_total sqrt self Hfm HE5 Hb Hh HL Hlef) as (k & Hk & _).
  destruct (calc_kcrit_range sqrt self k Hk) as [Hk0 Hk1].
  pose proof (W_y_pos _ Hb Hh) as HW.
  pose proof (fm_d_pos self Hfm) as Hf.
  pose proof (bending_stress_nonneg self Hg Hq Hb Hh) as Hsig.
  set (sigma := LoadCase.M_Ed (TimberBeamCheck.load self) * 1000000
                / RectangularSection.W_y (TimberBeamCheck.sec self)) in *.
  assert (Hkf : 0 < k * TimberBeamCheck.fm_d self) by nra.
  assert (Hkf1 : k * TimberBeamCheck.fm_d self <= TimberBeamCheck.fm_d self) by nra.
  exists k.
  exists (CheckResult.mk "Ohyb" (sigma / TimberBeamCheck.fm_d self) sigma
            (TimberBeamCheck.fm_d self)
            (sigma / TimberBeamCheck.fm_d self <=? 1)).
  exists (CheckResult.mk "Klopení" (sigma / (k * TimberBeamCheck.fm_d self)) sigma
            (k * TimberBeamCheck.fm_d self)
            (sigma / (k * TimberBeamCheck.fm_d self) <=? 1)).
  split; [exact Hk|]. split; [split; assumption|].
  split.
  { unfold TimberBeamCheck.check_bending. rewrite div_Ok by lra.
    rewrite bind_Ok. fold sigma. rewrite div_Ok by lra. reflexivity. }
  split.
  { unfold TimberBeamCheck.check_lateral_torsional_buckling. rewrite Hk.
    rewrite bind_Ok. rewrite div_Ok by lra. rewrite bind_Ok. fold sigma.
    rewrite div_Ok by lra. reflexivity. }
  simpl.
  assert (Hub : 0 <= sigma / TimberBeamCheck.fm_d self).
  { apply Qle_shift_div_l; [exact Hf | lra]. }
  assert (Hul : sigma / TimberBeamCheck.fm_d self
                <= sigma / (k * TimberBeamCheck.fm_d self)).
  { apply Qdiv_le_denominator; assumption. }
  split; [reflexivity|]. split; [reflexivity|]. split; [exact Hkf1|].
  split; [exact Hub|]. split; [exact Hul|].
  rewrite !leb_true. intro H1. lra.
Qed.

Lemma buckling_dominates_bending_witness :
  exists kcrit rb rl,
    TimberBeamCheck._calc_kcrit sqrt_approx beam_check_L300 = Ok kcrit /\
    TimberBeamCheck.check_bending beam_check_L300 = Ok rb /\
    TimberBeamCheck.check_lateral_torsional_buckling sqrt_approx beam_check_L300
      = Ok rl /\
    CheckResult.utilization rb <= CheckResult.utilization rl.
Proof.
  destruct (buckling_dominates_bending sqrt_approx beam_check_L300)
    as (k & rb & rl & Hk & _ & Hb & Hl & _ & _ & _ & _ & Hu & _);
    try reflexivity; try discriminate.
  exists k, rb, rl. auto.
Defined.

Lemma max_ge (x y : Q) : x <= Py.max x y /\ y <= Py.max x y.
Proof.
  unfold Py.max. destruct (x <? y) eqn:E.
  - apply ltb_true in E. split; lra.
  - apply ltb_false in E. split; lra.
Qed.

Lemma max_either (x y : Q) : Py.max x y = x \/ Py.max x y = y.
Proof. unfold Py.max. destruct (x <? y); auto. Qed.

Lemma run_all_checks_shape (sqrt : Q -> Q) (self : TimberBeamCheck.t)
    (r : TimberBeamCheck.results) :
  TimberBeamCheck.run_all_checks sqrt self = Ok r ->
  exists rb rs rl rd k lam,
    TimberBeamCheck.check_bending self = Ok rb /\
    TimberBeamCheck.check_shear self = Ok rs /\
    TimberBeamCheck.check_lateral_torsional_buckling sqrt self = Ok rl /\
    TimberBeamCheck.check_deflection self = Ok rd /\
    TimberBeamCheck._calc_kcrit sqrt self = Ok k /\
    TimberBeamCheck._calc_lambda_rel_m sqrt self = Ok lam /\
    r = TimberBeamCheck.mk_results rb rs rl rd
          (CheckResult.passed rb && (CheckResult.passed rs &&
             (CheckResult.passed rl && (DeflectionResult.passed rd && true))))
          (Py.max (Py.max (CheckResult.utilization rb) (CheckResult.utilization rs))
                  (CheckResult.utilization rl))
          (LoadCase.M_Ed (TimberBeamCheck.load self))
          (LoadCase.V_Ed (TimberBeamCheck.load self))
          (LoadCase.kmod (TimberBeamCheck.load self))
          (TimberMaterial.gamma_M (TimberBeamCheck.mat self))
          (TimberBeamCheck.fm_d self) (TimberBeamCheck.fv_d self) k lam.
Proof.
  unfold TimberBeamCheck.run_all_checks. intro H.
  bind_inv H. bind_inv H. bind_inv H. bind_inv H. bind_inv H. bind_inv H.
  injection H as <-. exists x, x0, x1, x2, x3, x4. repeat split; assumption.
Qed.

(** X7.  In the results of [run_all_checks]: [all_passed] holds exactly
    when all four checks passed; [max_uls_utilization] is one of the three
    ULS utilizations and not smaller than any of them; the reported
    internal forces and design values are those of the load case and the
    material; the bending and shear strengths are the reported [fm_d] and
    [fv_d], the buckling strength is the reported [kcrit] times [fm_d], and
    bending and buckling share the design stress. *)
Theorem run_all_checks_aggregation (sqrt : Q -> Q) (self : TimberBeamCheck.t)
    (r : TimberBeamCheck.results) :
  TimberBeamCheck.run_all_checks sqrt self = Ok r ->
  let rb := TimberBeamCheck.bending r in
  let rs := TimberBeamCheck.shear r in
  let rl := TimberBeamCheck.lateral_torsional_buckling r in
  let rd := TimberBeamCheck.deflection r in
  (TimberBeamCheck.all_passed r = true <->
     CheckResult.passed rb = true /\ CheckResult.passed rs = true /\
     CheckResult.passed rl = true /\ DeflectionResult.passed rd = true) /\
  (CheckResult.utilization rb <= TimberBeamCheck.max_uls_utilization r /\
   CheckResult.utilization rs <= TimberBeamCheck.max_uls_utilization r /\
   CheckResult.utilization rl <= TimberBeamCheck.max_uls_utilization r) /\
  (TimberBeamCheck.max_uls_utilization r = CheckResult.utilization rb \/
   TimberBeamCheck.max_uls_utilization r = CheckResult.utilization rs \/
   TimberBeamCheck.max_uls_utilization r = CheckResult.utilization rl) /\
  (TimberBeamCheck.internal_forces_M_Ed r = LoadCase.M_Ed (TimberBeamCheck.load self) /\
   TimberBeamCheck.internal_forces_V_Ed r = LoadCase.V_Ed (TimberBeamCheck.load self) /\
   TimberBeamCheck.design_values_kmod r = LoadCase.kmod (TimberBeamCheck.load self) /\
   TimberBeamCheck.design_values_gamma_M r
     = TimberMaterial.gamma_M (TimberBeamCheck.mat self)) /\
  (CheckResult.strength_d rb = TimberBeamCheck.design_values_fm_d r /\
   CheckResult.strength_d rs = TimberBeamCheck.design_values_fv_d r /\
   CheckResult.strength_d rl
     = TimberBeamCheck.design_values_kcrit r * TimberBeamCheck.design_values_fm_d r /\
   CheckResult.stress_d rl = CheckResult.stress_d rb) /\
  TimberBeamCheck._calc_kcrit sqrt self = Ok (TimberBeamCheck.design_values_kcrit r) /\
  TimberBeamCheck._calc_lambda_rel_m sqrt self
    = Ok (TimberBeamCheck.design_values_lambda_rel_m r).
Proof.
  intro Hr.
  destruct (run_all_checks_shape sqrt self r Hr)
    as (rb & rs & rl & rd & k & lam & Hb & Hs & Hl & Hd & Hk & Hlam & ->).
  simpl.
  split.
  { rewrite !andb_true_iff. tauto. }
  split.
  { pose proof (max_ge (CheckResult.utilization rb) (CheckResult.utilization rs))
      as [H1 H2].
    pose proof (max_ge (Py.max (CheckResult.utilization rb) (CheckResult.utilization rs))
                  (CheckResult.utilization rl)) as [H3 H4].
    repeat split; lra. }
  split.
  { destruct (max_either (Py.max (CheckResult.utilization rb)
                            (CheckResult.utilization rs))
                (CheckResult.utilization rl)) as [E | E]; rewrite E; [|auto].
    destruct (max_either (CheckResult.utilization rb) (CheckResult.utilization rs))
      as [E' | E']; rewrite E'; auto. }
  split; [repeat split|].
  split; [|split; assumption].
  unfold TimberBeamCheck.check_bending in Hb. bind_inv Hb. bind_inv Hb.
  injection Hb as <-.
  unfold TimberBeamCheck.check_shear in Hs. bind_inv Hs. bind_inv Hs.
  injection Hs as <-.
  unfold TimberBeamCheck.check_lateral_torsional_buckling in Hl.
  rewrite Hk, bind_Ok in Hl. bind_inv Hl. bind_inv Hl. injection Hl as <-.
  simpl. repeat split. congruence.
Qed.

Lemma run_all_checks_aggregation_witness :
  exists r,
    TimberBeamCheck.run_all_checks sqrt_approx beam_check_L300 = Ok r /\
    CheckResult.utilization (TimberBeamCheck.shear r)
      <= TimberBeamCheck.max_uls_utilization r /\
    CheckResult.stress_d (TimberBeamCheck.lateral_torsional_buckling r)
      = CheckResult.stress_d (TimberBeamCheck.bending r).
Proof.
  destruct (TimberBeamCheck.run_all_checks sqrt_approx beam_check_L300)
    as [r|e] eqn:Hr; [|vm_compute in Hr; discriminate].
  exists r. split; [reflexivity|].
  destruct (run_all_checks_aggregation sqrt_approx beam_check_L300 r Hr)
    as (_ & (_ & Hs & _) & _ & _ & (_ & _ & _ & Hst) & _).
  split; [exact Hs | exact Hst].
Defined.

(* ===================================================================== *)
(** ** Creep and the deflection limit (src/timber_check.py)               *)
(* ===================================================================== *)

Lemma check_deflection_shape (self : TimberBeamCheck.t) (r : DeflectionResult.t) :
  TimberBeamCheck.check_deflection self = Ok r ->
  let l := TimberBeamCheck.load self in
  let qc := LoadCase.q_char l in
  let L_mm := LoadCase.span l * 1000 in
  exists gr qr,
    ((0 < qc /\ gr = LoadCase.g_k l / qc /\ qr = LoadCase.q_k l / qc) \/
     (qc <= 0 /\ gr = 1.0 /\ qr = 0.0)) /\
    ~ 384 * TimberMaterial.E_0_mean (TimberBeamCheck.mat self)
      * RectangularSection.I_y (TimberBeamCheck.sec self) == 0 /\
    ~ inject_Z (TimberBeamCheck.deflection_limit self) == 0 /\
    r = DeflectionResult.mk
          (5 * qc * L_mm ^ 4
           / (384 * TimberMaterial.E_0_mean (TimberBeamCheck.mat self)
              * RectangularSection.I_y (TimberBeamCheck.sec self)))
          (5 * qc * L_mm ^ 4
           / (384 * TimberMaterial.E_0_mean (TimberBeamCheck.mat self)
              * RectangularSection.I_y (TimberBeamCheck.sec self))
           * (gr * (1 + LoadCase.kdef l)
              + qr * (1 + LoadCase.psi_2 l * LoadCase.kdef l)))
          (L_mm / inject_Z (TimberBeamCheck.deflection_limit self))
          (TimberBeamCheck.deflection_limit self)
          (5 * qc * L_mm ^ 4
           / (384 * TimberMaterial.E_0_mean (TimberBeamCheck.mat self)
              * RectangularSection.I_y (TimberBeamCheck.sec self))
           * (gr * (1 + LoadCase.kdef l)
              + qr * (1 + LoadCase.psi_2 l * LoadCase.kdef l))
           <=? L_mm / inject_Z (TimberBeamCheck.deflection_limit self)).
Proof.
  intros H l qc L_mm. unfold TimberBeamCheck.check_deflection in H.
  fold l in H. fold qc in H. fold L_mm in H.
  bind_inv H. apply div_Ok_inv in Hx. destruct Hx as [HEI ->].
  destruct (qc >? 0) eqn:E.
  - apply ltb_true in E.
    bind_inv H. apply div_Ok_inv in Hx. destruct Hx as [_ ->].
    bind_inv H. apply div_Ok_inv in Hx. destruct Hx as [_ ->].
    bind_inv H. apply div_Ok_inv in Hx. destruct Hx as [Hlim ->].
    injection H as <-.
    exists (LoadCase.g_k l / qc), (LoadCase.q_k l / qc).
    split; [left; auto|]. split; [exact HEI|]. split; [exact Hlim | reflexivity].
  - apply ltb_false in E. rewrite !bind_Ok in H.
    bind_inv H. apply div_Ok_inv in Hx. destruct Hx as [Hlim ->].
    injection H as <-.
    exists 1.0, 0.0.
    split; [right; auto|]. split; [exact HEI|]. split; [exact Hlim | reflexivity].
Qed.

Lemma kdef_pos (l : LoadCase.t) : 0 < LoadCase.kdef l.
Proof.
  unfold LoadCase.kdef, KDEF_TABLE. destruct (LoadCase.service_class l); reflexivity.
Qed.

(** The two deflections as a base value and an amplification factor. *)
Lemma deflection_base_and_factor (self : TimberBeamCheck.t)
    (r : DeflectionResult.t) :
  let l := TimberBeamCheck.load self in
  0 < TimberMaterial.E_0_mean (TimberBeamCheck.mat self) ->
  0 < RectangularSection.b (TimberBeamCheck.sec self) ->
  0 < RectangularSection.h (TimberBeamCheck.sec self) ->
  0 <= LoadCase.g_k l -> 0 <= LoadCase.q_k l -> 0 < LoadCase.span l ->
  TimberBeamCheck.check_deflection self = Ok r ->
  exists F,
    DeflectionResult.w_fin r = DeflectionResult.w_inst r * F /\
    1 <= F <= 1 + LoadCase.kdef l /\
    (LoadCase.q_k l == 0 -> F == 1 + LoadCase.kdef l) /\
    0 <= DeflectionResult.w_inst r /\
    (LoadCase.g_k l + LoadCase.q_k l == 0 -> DeflectionResult.w_inst r == 0) /\
    (0 < LoadCase.g_k l + LoadCase.q_k l -> 0 < DeflectionResult.w_inst r) /\
    DeflectionResult.w_limit r
      = LoadCase.span l * 1000 / inject_Z (TimberBeamCheck.deflection_limit self) /\
    DeflectionResult.passed r
      = (DeflectionResult.w_fin r <=? DeflectionResult.w_limit r).
Proof.
  intros l HE Hb Hh Hg Hq HL Hr. subst l.
  destruct (check_deflection_shape self r Hr) as (gr & qr & Hcase & _ & _ & ->).
  cbn [DeflectionResult.w_inst DeflectionResult.w_fin DeflectionResult.w_limit
       DeflectionResult.passed].
  set (l := TimberBeamCheck.load self) in *.
  pose proof (I_y_pos _ Hb Hh) as HI.
  pose proof (kdef_pos l) as Hkd.
  destruct (psi_2_range l) as [Hp0 Hp1].
  set (kd := LoadCase.kdef l) in *. set (p := LoadCase.psi_2 l) in *.
  set (den := 384 * TimberMaterial.E_0_mean (TimberBeamCheck.mat self)
              * RectangularSection.I_y (TimberBeamCheck.sec self)).
  assert (Hden : 0 < den) by (unfold den; nra).
  set (L_mm := LoadCase.span l * 1000).
  assert (HL4 : 0 < L_mm ^ 4).
  { assert (H1 : 0 < L_mm) by (unfold L_mm; lra).
    assert (H2 : 0 < L_mm * L_mm) by nra.
    change (L_mm ^ 4) with (L_mm * L_mm * (L_mm * L_mm)). nra. }
  unfold LoadCase.q_char in *. fold l.
  set (g := LoadCase.g_k l) in *. set (q := LoadCase.q_k l) in *.
  set (w := 5 * (g + q) * L_mm ^ 4 / den).
  assert (Hnum : 0 <= 5 * (g + q) * L_mm ^ 4) by nra.
  assert (Hw : 0 <= w).
  { unfold w. apply Qle_shift_div_l; [exact Hden | lra]. }
  assert (Hwpos : 0 < g + q -> 0 < w).
  { intro Hgq. unfold w. apply Qlt_shift_div_l; [exact Hden|]. nra. }
  assert (Hw0 : g + q == 0 -> w == 0).
  { intro Egq. unfold w. rewrite Egq. field. lra. }
  assert (Hpkd : 0 <= p * kd) by nra.
  assert (Hpkd1 : p * kd <= kd) by nra.
  eexists. split; [reflexivity|].
  destruct Hcase as [(Hqc & -> & ->) | (Hqc & -> & ->)].
  - (* some load *)
    assert (Hsum : g / (g + q) + q / (g + q) == 1) by (field; lra).
    assert (Hgr : 0 <= g / (g + q)) by (apply Qle_shift_div_l; lra).
    assert (Hqr : 0 <= q / (g + q)) by (apply Qle_shift_div_l; lra).
    set (gr := g / (g + q)) in *. set (qr := q / (g + q)) in *.
    split; [split; nra|]. split.
    { intro Eq. assert (Eqr : qr == 0) by (unfold qr; rewrite Eq; field; lra).
      assert (Egr : gr == 1) by lra. rewrite Eqr, Egr. ring. }
    repeat split; try assumption; reflexivity.
  - (* no load *)
    split; [split; lra|]. split; [intros _; ring|].
    repeat split; try assumption; reflexivity.
Qed.

(** X8.  On valid input the instantaneous deflection is non-negative and
    creep only amplifies it, by a factor between 1 and [1 + kdef]:
    [w_inst <= w_fin <= (1 + kdef) w_inst].  Without variable load the
    factor is exactly [1 + kdef]; without any load both deflections are
    zero. *)
Theorem creep_amplification_bounds (self : TimberBeamCheck.t)
    (r : DeflectionResult.t) :
  let l := TimberBeamCheck.load self in
  0 < TimberMaterial.E_0_mean (TimberBeamCheck.mat self) ->
  0 < RectangularSection.b (TimberBeamCheck.sec self) ->
  0 < RectangularSection.h (TimberBeamCheck.sec self) ->
  0 <= LoadCase.g_k l -> 0 <= LoadCase.q_k l -> 0 < LoadCase.span l ->
  TimberBeamCheck.check_deflection self = Ok r ->
  0 <= DeflectionResult.w_inst r /\
  DeflectionResult.w_inst r <= DeflectionResult.w_fin r /\
  DeflectionResult.w_fin r <= (1 + LoadCase.kdef l) * DeflectionResult.w_inst r /\
  (LoadCase.q_k l == 0 ->
     DeflectionResult.w_fin r == (1 + LoadCase.kdef l) * DeflectionResult.w_inst r) /\
  (LoadCase.g_k l == 0 /\ LoadCase.q_k l == 0 ->
     DeflectionResult.w_inst r == 0 /\ DeflectionResult.w_fin r == 0) /\
  (0 < LoadCase.g_k l + LoadCase.q_k l -> 0 < DeflectionResult.w_inst r).
Proof.
  intros l HE Hb Hh Hg Hq HL Hr.
  destruct (deflection_base_and_factor self r HE Hb Hh Hg Hq HL Hr)
    as (F & Hfin & [HF1 HF2] & HFq & Hw & Hw0 & Hwpos & _).
  fold l in HF2, HFq, Hw0, Hwpos. rewrite Hfin.
  set (w := DeflectionResult.w_inst r) in *. set (kd := LoadCase.kdef l) in *.
  assert (H1 : 0 <= w * (F - 1)) by (apply Qmult_le_0_compat; lra).
  assert (H2 : 0 <= w * (1 + kd - F)) by (apply Qmult_le_0_compat; lra).
  split; [exact Hw|]. split; [lra|]. split; [lra|].
  split; [intro Eq; rewrite (HFq Eq); ring|].
  split; [|exact Hwpos].
  intros [Eg Eq]. assert (E0 : w == 0) by (apply Hw0; lra).
  split; [exact E0 | rewrite E0; ring].
Qed.

Lemma creep_amplification_bounds_witness :
  exists r,
    TimberBeamCheck.check_deflection beam_check_L300 = Ok r /\
    DeflectionResult.w_inst r <= DeflectionResult.w_fin r /\
    DeflectionResult.w_fin r <= (1 + 0.60) * DeflectionResult.w_inst r.
Proof.
  destruct (TimberBeamCheck.check_deflection beam_check_L300)
    as [r|e] eqn:Hr; [|vm_compute in Hr; discriminate].
  exists r. split; [reflexivity|].
  destruct (creep_amplification_bounds beam_check_L300 r)
    as (_ & H1 & H2 & _); try reflexivity; try discriminate; try exact Hr.
  split; [exact H1 | exact H2].
Defined.

(** X9.  The deflection limit only enters through [w_limit]: with the same
    material, section and load, a smaller limit ratio [n2 <= n1] gives the
    same two deflections and a limit that is at least as large, so a beam
    that passes at [L/n1] also passes at the looser [L/n2]. *)
Theorem looser_deflection_limit_keeps_pass (m : TimberMaterial.t)
    (s : RectangularSection.t) (l : LoadCase.t) (lef : Q) (n1 n2 : Z)
    (r1 : DeflectionResult.t) :
  0 < LoadCase.span l -> (0 < n2 <= n1)%Z ->
  TimberBeamCheck.check_deflection (TimberBeamCheck.mk m s l lef n1) = Ok r1 ->
  exists r2,
    TimberBeamCheck.check_deflection (TimberBeamCheck.mk m s l lef n2) = Ok r2 /\
    DeflectionResult.w_inst r2 = DeflectionResult.w_inst r1 /\
    DeflectionResult.w_fin r2 = DeflectionResult.w_fin r1 /\
    0 < DeflectionResult.w_limit r1 /\
    DeflectionResult.w_limit r1 <= DeflectionResult.w_limit r2 /\
    (DeflectionResult.passed r1 = true -> DeflectionResult.passed r2 = true).
Proof.
  intros HL Hn Hr1.
  destruct (check_deflection_shape _ r1 Hr1) as (gr & qr & Hcase & HEI & _ & ->).
  cbn [TimberBeamCheck.mat TimberBeamCheck.sec TimberBeamCheck.load
       TimberBeamCheck.deflection_limit] in *.
  cbn [DeflectionResult.w_inst DeflectionResult.w_fin DeflectionResult.w_limit
       DeflectionResult.passed].
  assert (Hn1 : 0 < inject_Z n1) by (apply inject_Z_pos; lia).
  assert (Hn2 : 0 < inject_Z n2) by (apply inject_Z_pos; lia).
  assert (Hn12 : inject_Z n2 <= inject_Z n1).
  { rewrite <- Zle_Qle. lia. }
  set (L_mm := LoadCase.span l * 1000) in *.
  assert (HLmm : 0 < L_mm) by (unfold L_mm; lra).
  assert (Hlim1 : 0 < L_mm / inject_Z n1) by (apply Qdiv_pos; assumption).
  assert (Hlim : L_mm / inject_Z n1 <= L_mm / inject_Z n2).
  { apply Qdiv_le_denominator; [lra | assumption | assumption]. }
  assert (Hrun : forall gr' qr',
    ((0 < LoadCase.q_char l /\ gr' = LoadCase.g_k l / LoadCase.q_char l /\
      qr' = LoadCase.q_k l / LoadCase.q_char l) \/
     (LoadCase.q_char l <= 0 /\ gr' = 1.0 /\ qr' = 0.0)) ->
    TimberBeamCheck.check_deflection (TimberBeamCheck.mk m s l lef n2) =
    Ok (DeflectionResult.mk
          (5 * LoadCase.q_char l * L_mm ^ 4
           / (384 * TimberMaterial.E_0_mean m * RectangularSection.I_y s))
          (5 * LoadCase.q_char l * L_mm ^ 4
           / (384 * TimberMaterial.E_0_mean m * RectangularSection.I_y s)
           * (gr' * (1 + LoadCase.kdef l)
              + qr' * (1 + LoadCase.psi_2 l * LoadCase.kdef l)))
          (L_mm / inject_Z n2) n2
          (5 * LoadCase.q_char l * L_mm ^ 4
           / (384 * TimberMaterial.E_0_mean m * RectangularSection.I_y s)
           * (gr' * (1 + LoadCase.kdef l)
              + qr' * (1 + LoadCase.psi_2 l * LoadCase.kdef l))
           <=? L_mm / inject_Z n2))).
  { intros gr' qr' Hc. unfold TimberBeamCheck.check_deflection.
    cbn [TimberBeamCheck.mat TimberBeamCheck.sec TimberBeamCheck.load
         TimberBeamCheck.deflection_limit].
    fold L_mm. rewrite (div_Ok _ _ HEI), bind_Ok.
    rewrite (div_Ok L_mm (inject_Z n2)) by lra.
    destruct Hc as [(Hqc & -> & ->) | (Hqc & -> & ->)].
    - assert (E : (LoadCase.q_char l >? 0) = true) by now apply ltb_true.
      rewrite E. rewrite !div_Ok by lra. reflexivity.
    - assert (E : (LoadCase.q_char l >? 0) = false) by now apply ltb_false.
      rewrite E. reflexivity. }
  eexists. split; [apply (Hrun gr qr Hcase)|].
  cbn [DeflectionResult.w_inst DeflectionResult.w_fin DeflectionResult.w_limit
       DeflectionResult.passed].
  split; [reflexivity|]. split; [reflexivity|].
  split; [exact Hlim1|]. split; [exact Hlim|].
  rewrite !leb_true. intro H. lra.
Qed.

Lemma looser_deflection_limit_keeps_pass_witness :
  exists r1 r2,
    TimberBeamCheck.check_deflection
      (TimberBeamCheck.mk C24 section_160x400 load_2_5_5 1.0 300) = Ok r1 /\
    TimberBeamCheck.check_deflection
      (TimberBeamCheck.mk C24 section_160x400 load_2_5_5 1.0 250) = Ok r2 /\
    DeflectionResult.w_limit r1 <= DeflectionResult.w_limit r2.
Proof.
  destruct (TimberBeamCheck.check_deflection
              (TimberBeamCheck.mk C24 section_160x400 load_2_5_5 1.0 300))
    as [r1|e] eqn:Hr1; [|vm_compute in Hr1; discriminate].
  destruct (looser_deflection_limit_keeps_pass C24 section_160x400 load_2_5_5
              1.0 300 250 r1) as (r2 & Hr2 & _ & _ & _ & Hl & _);
    [reflexivity | lia | exact Hr1 |].
  exists r1, r2. auto.
Defined.

(** X10.  The limit ratio is not validated.  On otherwise valid input a
    ratio of zero makes [check_deflection] raise [ZeroDivisionError]; a
    negative ratio gives a negative limit, so the check never passes, while
    the utilization [w_fin / w_limit] it reports is at most zero. *)
Theorem unvalidated_limit_ratio (self : TimberBeamCheck.t) :
  let l := TimberBeamCheck.load self in
  0 < TimberMaterial.E_0_mean (TimberBeamCheck.mat self) ->
  0 < RectangularSection.b (TimberBeamCheck.sec self) ->
  0 < RectangularSection.h (TimberBeamCheck.sec self) ->
  0 <= LoadCase.g_k l -> 0 <= LoadCase.q_k l -> 0 < LoadCase.span l ->
  (TimberBeamCheck.deflection_limit self = 0%Z ->
     TimberBeamCheck.check_deflection self = Raise ZeroDivisionError) /\
  ((TimberBeamCheck.deflection_limit self < 0)%Z ->
     exists r u,
       TimberBeamCheck.check_deflection self = Ok r /\
       DeflectionResult.w_limit r < 0 /\
       DeflectionResult.passed r = false /\
       DeflectionResult.utilization r = Ok u /\ u <= 0).
Proof.
  intros l HE Hb Hh Hg Hq HL. subst l.
  pose proof (I_y_pos _ Hb Hh) as HI.
  assert (HEI : ~ 384 * TimberMaterial.E_0_mean (TimberBeamCheck.mat self)
                  * RectangularSection.I_y (TimberBeamCheck.sec self) == 0) by nra.
  split.
  - intro H0. unfold TimberBeamCheck.check_deflection.
    rewrite (div_Ok _ _ HEI), bind_Ok. rewrite H0.
    rewrite (div_Raise _ (inject_Z 0)) by reflexivity.
    destruct (LoadCase.q_char (TimberBeamCheck.load self) >? 0) eqn:E.
    + apply ltb_true in E. rewrite !div_Ok by lra. reflexivity.
    + reflexivity.
  - intro Hneg.
    assert (Hnz : ~ inject_Z (TimberBeamCheck.deflection_limit self) == 0)
      by (apply inject_Z_nonzero; lia).
    assert (Hrun : exists r, TimberBeamCheck.check_deflection self = Ok r).
    { unfold TimberBeamCheck.check_deflection.
      rewrite (div_Ok _ _ HEI), bind_Ok. rewrite (div_Ok _ _ Hnz).
      destruct (LoadCase.q_char (TimberBeamCheck.load self) >? 0) eqn:E.
      - apply ltb_true in E. rewrite !div_Ok by lra. rewrite !bind_Ok. eauto.
      - rewrite !bind_Ok. eauto. }
    destruct Hrun as (r & Hr).
    destruct (deflection_base_and_factor self r HE Hb Hh Hg Hq HL Hr)
      as (F & Hfin & [HF1 _] & _ & Hw & _ & _ & Hlim & Hpass).
    assert (Hfin0 : 0 <= DeflectionResult.w_fin r).
    { rewrite Hfin. apply Qmult_le_0_compat; lra. }
    assert (Hinj : inject_Z (TimberBeamCheck.deflection_limit self) < 0).
    { change 0 with (inject_Z 0). rewrite <- Zlt_Qlt. exact Hneg. }
    assert (Hlneg : DeflectionResult.w_limit r < 0).
    { rewrite Hlim.
      set (L_mm := LoadCase.span (TimberBeamCheck.load self) * 1000).
      set (n := inject_Z (TimberBeamCheck.deflection_limit self)) in *.
      assert (HLmm : 0 < L_mm) by (unfold L_mm; lra).
      assert (Hpos : 0 < L_mm / - n) by (apply Qdiv_pos; lra).
      assert (Eopp : L_mm / - n == - (L_mm / n)) by (field; lra).
      lra. }
    exists r, (DeflectionResult.w_fin r / DeflectionResult.w_limit r).
    split; [exact Hr|]. split; [exact Hlneg|]. split.
    { rewrite Hpass. apply leb_false. lra. }
    split.
    { unfold DeflectionResult.utilization. apply div_Ok. lra. }
    set (wf := DeflectionResult.w_fin r) in *.
    set (wl := DeflectionResult.w_limit r) in *.
    assert (Hpos : 0 <= wf / - wl) by (apply Qle_shift_div_l; lra).
    assert (Eopp : wf / - wl == - (wf / wl)) by (field; lra).
    lra.
Qed.

Lemma unvalidated_limit_ratio_witness :
  TimberBeamCheck.check_deflection
    (TimberBeamCheck.mk C24 section_160x400 load_2_5_5 1.0 0)
  = Raise ZeroDivisionError.
Proof.
  apply (unvalidated_limit_ratio
           (TimberBeamCheck.mk C24 section_160x400 load_2_5_5 1.0 0));
    try reflexivity; discriminate.
Defined.

(* ===================================================================== *)
(** ** The reduced section: validity and bounds (src/fire_check.py)       *)
(* ===================================================================== *)

Lemma beta_pos (self : TimberFireCheck.t) : 0 < TimberFireCheck.beta self.
Proof.
  unfold TimberFireCheck.beta, CHARRING_RATES.
  destruct (TimberMaterial.timber_type _), (FireExposure.use_beta_n _); reflexivity.
Qed.

Lemma Qmax_0_cases (x : Q) :
  (0 < x /\ Qmax 0 x == x) \/ (x <= 0 /\ Qmax 0 x == 0).
Proof.
  destruct (Qlt_le_dec 0 x) as [H | H].
  - left. split; [exact H|]. apply Q.max_r. lra.
  - right. split; [exact H|]. now apply Q.max_l.
Qed.

(** X11.  The reduced dimensions are never negative.  The reduced section
    is valid exactly when [2 d_ef < b] and [k d_ef < h], with [k = 1] for
    three-sided and [k = 2] for four-sided exposure; then the reduced
    dimensions are [b - 2 d_ef] and [h - k d_ef], without clamping.  For a
    non-negative duration [d_ef] is at least the 7 mm zero-strength layer,
    so even at duration zero a section loses 14 mm of width and [7 k] mm of
    depth. *)
Theorem reduced_section_validity (self : TimberFireCheck.t) :
  let r := TimberFireCheck.get_reduced_section self in
  let b := RectangularSection.b (TimberFireCheck.sec self) in
  let h := RectangularSection.h (TimberFireCheck.sec self) in
  let d := TimberFireCheck.d_ef self in
  let k := match FireExposure.exposure (TimberFireCheck.fire self) with
           | three_sides => 1
           | four_sides => 2
           end in
  0 <= ReducedSection.b_fi r /\ 0 <= ReducedSection.h_fi r /\
  (ReducedSection.is_valid r = true <-> 2 * d < b /\ k * d < h) /\
  (ReducedSection.is_valid r = true ->
     ReducedSection.b_fi r == b - 2 * d /\ ReducedSection.h_fi r == h - k * d /\
     0 < ReducedSection.A_fi r /\ 0 < ReducedSection.W_y_fi r) /\
  ((0 <= FireExposure.duration (TimberFireCheck.fire self))%Z ->
     7 <= d /\
     ReducedSection.b_fi r <= Qmax 0 (b - 14) /\
     ReducedSection.h_fi r <= Qmax 0 (h - 7 * k) /\
     (0 < b -> ReducedSection.b_fi r < b) /\
     (0 < h -> ReducedSection.h_fi r < h)).
Proof.
  intros r b h d k.
  assert (Hb : ReducedSection.b_fi r == Qmax 0 (b - 2 * d)).
  { unfold r. rewrite reduced_b_fi. apply max_Qmax. }
  assert (Hh : ReducedSection.h_fi r == Qmax 0 (h - k * d)).
  { unfold r. rewrite reduced_h_fi, max_Qmax. fold h d. unfold k.
    destruct (FireExposure.exposure _).
    - setoid_replace (1 * d) with d by ring. reflexivity.
    - reflexivity. }
  destruct (reduced_nonneg self) as [Hb0 Hh0]. fold r in Hb0, Hh0.
  assert (Hiff : ReducedSection.is_valid r = true <-> 2 * d < b /\ k * d < h).
  { rewrite is_valid_true, Hb, Hh.
    destruct (Qmax_0_cases (b - 2 * d)) as [[Hbp Eb] | [Hbn Eb]];
    destruct (Qmax_0_cases (h - k * d)) as [[Hhp Eh] | [Hhn Eh]];
    rewrite Eb, Eh; split; intros [H1 H2]; split; lra. }
  split; [exact Hb0|]. split; [exact Hh0|]. split; [exact Hiff|].
  split.
  - intro Hv. apply Hiff in Hv. destruct Hv as [H1 H2].
    assert (Eb : ReducedSection.b_fi r == b - 2 * d).
    { rewrite Hb. apply Q.max_r. lra. }
    assert (Eh : ReducedSection.h_fi r == h - k * d).
    { rewrite Hh. apply Q.max_r. lra. }
    split; [exact Eb|]. split; [exact Eh|].
    unfold ReducedSection.A_fi, ReducedSection.W_y_fi. rewrite Eb, Eh, pow2.
    assert (H3 : 0 < (h - k * d) * (h - k * d)) by nra.
    split; [nra | apply Qlt_shift_div_l; [reflexivity | nra]].
  - intro Hdur.
    assert (Hd7 : 7 <= d).
    { unfold d, TimberFireCheck.d_ef, TimberFireCheck.d_char, D0.
      pose proof (beta_pos self) as Hbeta.
      assert (Hdq : 0 <= inject_Z (FireExposure.duration (TimberFireCheck.fire self))).
      { change 0 with (inject_Z 0). rewrite <- Zle_Qle. exact Hdur. }
      setoid_replace 7.0 with 7 by reflexivity. nra. }
    assert (Hk : 1 <= k) by (unfold k; destruct (FireExposure.exposure _); discriminate).
    assert (Hkd : 7 * k <= k * d) by nra.
    split; [exact Hd7|].
    rewrite Hb, Hh.
    split; [apply Q.max_le_compat_l; lra|].
    split; [apply Q.max_le_compat_l; lra|].
    split; intro Hpos.
    + destruct (Qmax_0_cases (b - 2 * d)) as [[_ E] | [_ E]]; rewrite E; lra.
    + destruct (Qmax_0_cases (h - k * d)) as [[_ E] | [_ E]]; rewrite E; lra.
Qed.

Lemma reduced_section_validity_witness :
  ReducedSection.is_valid (TimberFireCheck.get_reduced_section fire_check_R30) = true /\
  ReducedSection.is_valid (TimberFireCheck.get_reduced_section fire_check_consumed)
    = false.
Proof.
  destruct (reduced_section_validity fire_check_R30) as (_ & _ & H1 & _).
  destruct (reduced_section_validity fire_check_consumed) as (_ & _ & H2 & _).
  split.
  - apply H1. split; reflexivity.
  - destruct (ReducedSection.is_valid
                (TimberFireCheck.get_reduced_section fire_check_consumed)) eqn:E;
      [|reflexivity].
    destruct H2 as [H2 _]. destruct (H2 eq_refl) as [H3 _].
    vm_compute in H3. discriminate.
Defined.

(* ===================================================================== *)
(** ** Results of the fire checks (src/fire_check.py)                     *)
(* ===================================================================== *)

Lemma check_bending_fire_inv (self : TimberFireCheck.t) (r : FireCheckResult.t) :
  TimberFireCheck.check_bending_fire self = Ok r ->
  let red := TimberFireCheck.get_reduced_section self in
  (ReducedSection.is_valid red = false /\
   r = FireCheckResult.mk "Ohyb (požár)" Inf Inf (TimberFireCheck.fm_d_fi self) false)
  \/
  (ReducedSection.is_valid red = true /\
   exists eta,
     TimberFireCheck.eta_fi self = Ok eta /\
     ~ TimberFireCheck.fm_d_fi self == 0 /\
     let sigma := eta * LoadCase.M_Ed (TimberFireCheck.load self) * 1000000
                  / ReducedSection.W_y_fi red in
     r = FireCheckResult.mk "Ohyb (požár)"
           (Fin (sigma / TimberFireCheck.fm_d_fi self)) (Fin sigma)
           (TimberFireCheck.fm_d_fi self)
           (sigma / TimberFireCheck.fm_d_fi self <=? 1)).
Proof.
  intros H red. unfold TimberFireCheck.check_bending_fire in H. fold red in H.
  destruct (ReducedSection.is_valid red) eqn:E; cbn [negb] in H.
  - right. split; [reflexivity|].
    unfold TimberFireCheck.M_Ed_fi in H.
    bind_inv H. bind_inv Hx. injection Hx as <-.
    bind_inv H. apply div_Ok_inv in Hx. destruct Hx as [_ ->].
    bind_inv H. apply div_Ok_inv in Hx. destruct Hx as [Hf ->].
    injection H as <-. exists x0. split; [assumption|]. split; [exact Hf | reflexivity].
  - left. injection H as <-. split; reflexivity.
Qed.

Lemma check_shear_fire_inv (self : TimberFireCheck.t) (r : FireCheckResult.t) :
  TimberFireCheck.check_shear_fire self = Ok r ->
  let red := TimberFireCheck.get_reduced_section self in
  (ReducedSection.is_valid red = false /\
   r = FireCheckResult.mk "Smyk (požár)" Inf Inf (TimberFireCheck.fv_d_fi self) false)
  \/
  (ReducedSection.is_valid red = true /\
   exists eta,
     TimberFireCheck.eta_fi self = Ok eta /\
     ~ TimberFireCheck.fv_d_fi self == 0 /\
     let tau := 1.5 * (eta * LoadCase.V_Ed (TimberFireCheck.load self)) * 1000
                / ReducedSection.A_fi red in
     r = FireCheckResult.mk "Smyk (požár)"
           (Fin (tau / TimberFireCheck.fv_d_fi self)) (Fin tau)
           (TimberFireCheck.fv_d_fi self)
           (tau / TimberFireCheck.fv_d_fi self <=? 1)).
Proof.
  intros H red. unfold TimberFireCheck.check_shear_fire in H. fold red in H.
  destruct (ReducedSection.is_valid red) eqn:E; cbn [negb] in H.
  - right. split; [reflexivity|].
    unfold TimberFireCheck.V_Ed_fi in H.
    bind_inv H. bind_inv Hx. injection Hx as <-.
    bind_inv H. apply div_Ok_inv in Hx. destruct Hx as [_ ->].
    bind_inv H. apply div_Ok_inv in Hx. destruct Hx as [Hf ->].
    injection H as <-. exists x0. split; [assumption|]. split; [exact Hf | reflexivity].
  - left. injection H as <-. split; reflexivity.
Qed.

Lemma fire_run_all_checks_shape (self : TimberFireCheck.t)
    (r : TimberFireCheck.results) :
  TimberFireCheck.run_all_checks self = Ok r ->
  exists rb rs eta,
    TimberFireCheck.check_bending_fire self = Ok rb /\
    TimberFireCheck.check_shear_fire self = Ok rs /\
    TimberFireCheck.eta_fi self = Ok eta /\
    r = TimberFireCheck.mk_results (TimberFireCheck.get_reduced_section self)
          rb rs (FireCheckResult.passed rb && FireCheckResult.passed rs)
          (FireExposure.duration (TimberFireCheck.fire self))
          (TimberFireCheck.beta self) (TimberFireCheck.d_char self)
          (TimberFireCheck.d_ef self) eta
          (eta * LoadCase.M_Ed (TimberFireCheck.load self))
          (eta * LoadCase.V_Ed (TimberFireCheck.load self))
          (TimberFireCheck.fm_d_fi self) (TimberFireCheck.fv_d_fi self)
          (RectangularSection.b (TimberFireCheck.sec self))
          (RectangularSection.h (TimberFireCheck.sec self)) None.
Proof.
  unfold TimberFireCheck.run_all_checks, TimberFireCheck.M_Ed_fi,
    TimberFireCheck.V_Ed_fi. intro H.
  bind_inv H. bind_inv H. bind_inv H. rewrite Hx1 in H. rewrite !bind_Ok in H.
  injection H as <-. exists x, x0, x1. auto.
Qed.

(** X12.  Whenever the fire [run_all_checks] returns: the reported reduced
    section is the one of [get_reduced_section], no suggestion is attached,
    and [all_passed] is the conjunction of the two flags.  On a consumed
    section both utilizations are infinite and nothing passes.  On a valid
    reduced section both utilizations are finite, each flag holds exactly
    when its utilization is at most 1, and each utilization is the reported
    stress divided by the reported strength.  The reported fire forces are
    [eta_fi] times the ordinary design forces. *)
Theorem fire_results_consistent (self : TimberFireCheck.t)
    (r : TimberFireCheck.results) :
  TimberFireCheck.run_all_checks self = Ok r ->
  let red := TimberFireCheck.get_reduced_section self in
  let rb := TimberFireCheck.bending r in
  let rs := TimberFireCheck.shear r in
  TimberFireCheck.reduced_section r = red /\
  TimberFireCheck.suggested_section r = None /\
  TimberFireCheck.all_passed r
    = FireCheckResult.passed rb && FireCheckResult.passed rs /\
  FireCheckResult.strength_d_fi rb = TimberFireCheck.fm_d_fi self /\
  FireCheckResult.strength_d_fi rs = TimberFireCheck.fv_d_fi self /\
  (ReducedSection.is_valid red = false ->
     FireCheckResult.utilization rb = Inf /\ FireCheckResult.utilization rs = Inf /\
     FireCheckResult.passed rb = false /\ FireCheckResult.passed rs = false /\
     TimberFireCheck.all_passed r = false) /\
  (ReducedSection.is_valid red = true ->
     exists ub us sb ss,
       FireCheckResult.utilization rb = Fin ub /\
       FireCheckResult.utilization rs = Fin us /\
       FireCheckResult.stress_d_fi rb = Fin sb /\
       FireCheckResult.stress_d_fi rs = Fin ss /\
       ub = sb / FireCheckResult.strength_d_fi rb /\
       us = ss / FireCheckResult.strength_d_fi rs /\
       (FireCheckResult.passed rb = true <-> ub <= 1) /\
       (FireCheckResult.passed rs = true <-> us <= 1) /\
       (TimberFireCheck.all_passed r = true <-> ub <= 1 /\ us <= 1)) /\
  (TimberFireCheck.all_passed r = true -> ReducedSection.is_valid red = true) /\
  TimberFireCheck.eta_fi self = Ok (TimberFireCheck.fire_params_eta_fi r) /\
  TimberFireCheck.fire_params_M_Ed_fi r
    = TimberFireCheck.fire_params_eta_fi r * LoadCase.M_Ed (TimberFireCheck.load self) /\
  TimberFireCheck.fire_params_V_Ed_fi r
    = TimberFireCheck.fire_params_eta_fi r * LoadCase.V_Ed (TimberFireCheck.load self).
Proof.
  intros Hr red.
  destruct (fire_run_all_checks_shape self r Hr) as (rb & rs & eta & Hb & Hs & He & ->).
  cbn [TimberFireCheck.bending TimberFireCheck.shear TimberFireCheck.reduced_section
       TimberFireCheck.suggested_section TimberFireCheck.all_passed
       TimberFireCheck.fire_params_eta_fi TimberFireCheck.fire_params_M_Ed_fi
       TimberFireCheck.fire_params_V_Ed_fi].
  apply check_bending_fire_inv in Hb. apply check_shear_fire_inv in Hs.
  fold red in Hb, Hs.
  destruct Hb as [[Ev ->] | [Ev (eb & _ & _ & ->)]];
  destruct Hs as [[Ev' ->] | [Ev' (es & _ & _ & ->)]];
  try congruence;
  cbn [FireCheckResult.passed FireCheckResult.utilization
       FireCheckResult.stress_d_fi FireCheckResult.strength_d_fi].
  - split; [reflexivity|]. split; [reflexivity|]. split; [reflexivity|].
    split; [reflexivity|]. split; [reflexivity|].
    split; [intros _; repeat split|].
    split; [intro; congruence|].
    split; [cbn [andb]; discriminate|].
    split; [exact He|]. split; reflexivity.
  - split; [reflexivity|]. split; [reflexivity|]. split; [reflexivity|].
    split; [reflexivity|]. split; [reflexivity|].
    split; [intro; congruence|].
    split.
    { intros _. do 4 eexists.
      split; [reflexivity|]. split; [reflexivity|].
      split; [reflexivity|]. split; [reflexivity|].
      split; [reflexivity|]. split; [reflexivity|].
      split; [apply leb_true|]. split; [apply leb_true|].
      rewrite andb_true_iff, !leb_true. tauto. }
    split; [intros _; exact Ev|].
    split; [exact He|]. split; reflexivity.
Qed.

Lemma fire_results_consistent_witness :
  exists r,
    TimberFireCheck.run_all_checks fire_check_consumed = Ok r /\
    FireCheckResult.utilization (TimberFireCheck.bending r) = Inf /\
    TimberFireCheck.all_passed r = false.
Proof.
  destruct (TimberFireCheck.run_all_checks fire_check_consumed)
    as [r|e] eqn:Hr; [|vm_compute in Hr; discriminate].
  exists r. split; [reflexivity|].
  destruct (fire_results_consistent fire_check_consumed r Hr)
    as (_ & _ & _ & _ & _ & Hc & _).
  destruct Hc as (Hu & _ & _ & _ & Ha); [reflexivity|].
  split; [exact Hu | exact Ha].
Defined.





(* ===================================================================== *)
(** ** A larger reduced section keeps a pass (src/fire_check.py)          *)
(* ===================================================================== *)

Lemma eta_fi_nonneg (self : TimberFireCheck.t) (eta : Q) :
  0 <= LoadCase.g_k (TimberFireCheck.load self) ->
  0 <= LoadCase.q_k (TimberFireCheck.load self) ->
  TimberFireCheck.eta_fi self = Ok eta -> 0 <= eta.
Proof.
  intros Hg Hq H. unfold TimberFireCheck.eta_fi in H.
  destruct (LoadCase.q_Ed (TimberFireCheck.load self) >? 0) eqn:E.
  - apply ltb_true in E. apply div_Ok_inv in H. destruct H as [_ ->].
    apply Qle_shift_div_l; [exact E | lra].
  - injection H as <-. discriminate.
Qed.

Lemma eta_fi_same_load (self self' : TimberFireCheck.t) :
  TimberFireCheck.load self' = TimberFireCheck.load self ->
  TimberFireCheck.eta_fi self' = TimberFireCheck.eta_fi self.
Proof. intro H. unfold TimberFireCheck.eta_fi. now rewrite H. Qed.

Lemma valid_reduced_positive (red : ReducedSection.t) :
  ReducedSection.is_valid red = true ->
  0 < ReducedSection.A_fi red /\ 0 < ReducedSection.W_y_fi red.
Proof.
  intro Hv. apply is_valid_true in Hv. destruct Hv as [Hb Hh].
  unfold ReducedSection.A_fi, ReducedSection.W_y_fi. rewrite pow2.
  assert (H2 : 0 < ReducedSection.h_fi red * ReducedSection.h_fi red) by nra.
  split; [nra | apply Qlt_shift_div_l; [reflexivity | nra]].
Qed.

Lemma check_bending_fire_valid (self : TimberFireCheck.t) (eta : Q) :
  let red := TimberFireCheck.get_reduced_section self in
  ReducedSection.is_valid red = true ->
  TimberFireCheck.eta_fi self = Ok eta ->
  0 < TimberMaterial.fm_k (TimberFireCheck.mat self) ->
  let sigma := eta * LoadCase.M_Ed (TimberFireCheck.load self) * 1000000
               / ReducedSection.W_y_fi red in
  TimberFireCheck.check_bending_fire self =
  Ok (FireCheckResult.mk "Ohyb (požár)"
        (Fin (sigma / TimberFireCheck.fm_d_fi self)) (Fin sigma)
        (TimberFireCheck.fm_d_fi self)
        (sigma / TimberFireCheck.fm_d_fi self <=? 1)).
Proof.
  intros red Hv He Hfm sigma.
  destruct (valid_reduced_positive red Hv) as [_ HW].
  pose proof (fm_d_fi_value self) as Hf.
  unfold TimberFireCheck.check_bending_fire, TimberFireCheck.M_Ed_fi.
  fold red. rewrite Hv, He. cbn [negb]. rewrite bind_Ok, bind_Ok.
  rewrite div_Ok by lra. rewrite bind_Ok. fold sigma.
  rewrite div_Ok by lra. reflexivity.
Qed.

Lemma check_shear_fire_valid (self : TimberFireCheck.t) (eta : Q) :
  let red := TimberFireCheck.get_reduced_section self in
  ReducedSection.is_valid red = true ->
  TimberFireCheck.eta_fi self = Ok eta ->
  0 < TimberMaterial.fv_k (TimberFireCheck.mat self) ->
  let tau := 1.5 * (eta * LoadCase.V_Ed (TimberFireCheck.load self)) * 1000
             / ReducedSection.A_fi red in
  TimberFireCheck.check_shear_fire self =
  Ok (FireCheckResult.mk "Smyk (požár)"
        (Fin (tau / TimberFireCheck.fv_d_fi self)) (Fin tau)
        (TimberFireCheck.fv_d_fi self)
        (tau / TimberFireCheck.fv_d_fi self <=? 1)).
Proof.
  intros red Hv He Hfv tau.
  destruct (valid_reduced_positive red Hv) as [HA _].
  pose proof (fv_d_fi_value self) as Hf.
  unfold TimberFireCheck.check_shear_fire, TimberFireCheck.V_Ed_fi.
  fold red. rewrite Hv, He. cbn [negb]. rewrite bind_Ok, bind_Ok.
  rewrite div_Ok by lra. rewrite bind_Ok. fold tau.
  rewrite div_Ok by lra. reflexivity.
Qed.

(** With the same material and load, a reduced section that is at least as
    wide and as deep keeps a pass of both fire checks. *)
Lemma fire_pass_monotone (self self' : TimberFireCheck.t)
    (r : TimberFireCheck.results) :
  TimberFireCheck.mat self' = TimberFireCheck.mat self ->
  TimberFireCheck.load self' = TimberFireCheck.load self ->
  0 < TimberMaterial.fm_k (TimberFireCheck.mat self) ->
  0 < TimberMaterial.fv_k (TimberFireCheck.mat self) ->
  0 <= LoadCase.g_k (TimberFireCheck.load self) ->
  0 <= LoadCase.q_k (TimberFireCheck.load self) ->
  0 <= LoadCase.span (TimberFireCheck.load self) ->
  ReducedSection.b_fi (TimberFireCheck.get_reduced_section self)
    <= ReducedSection.b_fi (TimberFireCheck.get_reduced_section self') ->
  ReducedSection.h_fi (TimberFireCheck.get_reduced_section self)
    <= ReducedSection.h_fi (TimberFireCheck.get_reduced_section self') ->
  TimberFireCheck.run_all_checks self = Ok r ->
  TimberFireCheck.all_passed r = true ->
  exists r', TimberFireCheck.run_all_checks self' = Ok r' /\
             TimberFireCheck.all_passed r' = true.
Proof.
  intros Hmat Hload Hfm Hfv Hg Hq HL Hbb Hhh Hr Hpass.
  destruct (fire_run_all_checks_shape self r Hr) as (rb & rs & eta & Hb & Hs & He & ->).
  cbn [TimberFireCheck.all_passed] in Hpass.
  apply andb_true_iff in Hpass. destruct Hpass as [Hpb Hps].
  pose proof (eta_fi_nonneg self eta Hg Hq He) as Heta.
  set (red := TimberFireCheck.get_reduced_section self) in *.
  set (red' := TimberFireCheck.get_reduced_section self') in *.
  (* the original reduced section is valid, hence so is the larger one *)
  assert (Hv : ReducedSection.is_valid red = true).
  { apply check_bending_fire_inv in Hb. fold red in Hb.
    destruct Hb as [[_ ->] | [Hv _]]; [discriminate Hpb | exact Hv]. }
  pose proof Hv as Hdim. apply is_valid_true in Hdim. destruct Hdim as [Hb0 Hh0].
  assert (Hv' : ReducedSection.is_valid red' = true) by (apply is_valid_true; split; lra).
  destruct (valid_reduced_positive red Hv) as [HA HW].
  destruct (valid_reduced_positive red' Hv') as [HA' HW'].
  assert (HAle : ReducedSection.A_fi red <= ReducedSection.A_fi red').
  { unfold ReducedSection.A_fi. nra. }
  assert (HWle : ReducedSection.W_y_fi red <= ReducedSection.W_y_fi red').
  { unfold ReducedSection.W_y_fi. rewrite !pow2. unfold Qdiv.
    setoid_replace (/ 6) with (1 # 6) by reflexivity.
    assert (H1 : ReducedSection.h_fi red * ReducedSection.h_fi red
                 <= ReducedSection.h_fi red' * ReducedSection.h_fi red') by nra.
    assert (H2 : 0 < ReducedSection.h_fi red * ReducedSection.h_fi red) by nra.
    assert (H3 : ReducedSection.b_fi red * (ReducedSection.h_fi red * ReducedSection.h_fi red)
                 <= ReducedSection.b_fi red'
                    * (ReducedSection.h_fi red' * ReducedSection.h_fi red')) by nra.
    lra. }
  (* the design forces are the same and non-negative *)
  assert (He' : TimberFireCheck.eta_fi self' = Ok eta)
    by (rewrite (eta_fi_same_load self self' Hload); exact He).
  assert (HM : 0 <= LoadCase.M_Ed (TimberFireCheck.load self)).
  { unfold LoadCase.M_Ed, LoadCase.q_Ed. rewrite pow2.
    set (L := LoadCase.span _) in *. assert (0 <= L * L) by nra.
    apply Qle_shift_div_l; [reflexivity | nra]. }
  assert (HV : 0 <= LoadCase.V_Ed (TimberFireCheck.load self)).
  { unfold LoadCase.V_Ed, LoadCase.q_Ed.
    apply Qle_shift_div_l; [reflexivity | nra]. }
  assert (HNb : 0 <= eta * LoadCase.M_Ed (TimberFireCheck.load self) * 1000000) by nra.
  assert (HNs : 0 <= 1.5 * (eta * LoadCase.V_Ed (TimberFireCheck.load self)) * 1000) by nra.
  pose proof (fm_d_fi_value self) as Efm. pose proof (fv_d_fi_value self) as Efv.
  assert (Efm' : TimberFireCheck.fm_d_fi self' = TimberFireCheck.fm_d_fi self)
    by (unfold TimberFireCheck.fm_d_fi; now rewrite Hmat).
  assert (Efv' : TimberFireCheck.fv_d_fi self' = TimberFireCheck.fv_d_fi self)
    by (unfold TimberFireCheck.fv_d_fi; now rewrite Hmat).
  (* the two checks on the original section *)
  rewrite (check_bending_fire_valid self eta Hv He Hfm) in Hb.
  injection Hb as <-. cbn [FireCheckResult.passed] in Hpb. apply leb_true in Hpb.
  rewrite (check_shear_fire_valid self eta Hv He Hfv) in Hs.
  injection Hs as <-. cbn [FireCheckResult.passed] in Hps. apply leb_true in Hps.
  fold red in Hpb, Hps.
  (* and on the larger one *)
  assert (Hfm' : 0 < TimberMaterial.fm_k (TimberFireCheck.mat self')) by now rewrite Hmat.
  assert (Hfv' : 0 < TimberMaterial.fv_k (TimberFireCheck.mat self')) by now rewrite Hmat.
  pose proof (check_bending_fire_valid self' eta Hv' He' Hfm') as Hb'.
  pose proof (check_shear_fire_valid self' eta Hv' He' Hfv') as Hs'.
  cbv zeta in Hb', Hs'. fold red' in Hb', Hs'. rewrite Hload, Efm' in Hb'.
  rewrite Hload, Efv' in Hs'.
  unfold TimberFireCheck.run_all_checks, TimberFireCheck.M_Ed_fi,
    TimberFireCheck.V_Ed_fi.
  rewrite Hb', Hs', He'. rewrite !bind_Ok.
  eexists. split; [reflexivity|].
  cbn [TimberFireCheck.all_passed FireCheckResult.passed].
  apply andb_true_iff. rewrite !leb_true.
  set (Nb := eta * LoadCase.M_Ed (TimberFireCheck.load self) * 1000000) in *.
  set (Ns := 1.5 * (eta * LoadCase.V_Ed (TimberFireCheck.load self)) * 1000) in *.
  set (fm := TimberFireCheck.fm_d_fi self) in *.
  set (fv := TimberFireCheck.fv_d_fi self) in *.
  assert (Hfmp : 0 < fm) by lra. assert (Hfvp : 0 < fv) by lra.
  assert (Hsb : Nb / ReducedSection.W_y_fi red' <= Nb / ReducedSection.W_y_fi red)
    by (apply Qdiv_le_denominator; assumption).
  assert (Hss : Ns / ReducedSection.A_fi red' <= Ns / ReducedSection.A_fi red)
    by (apply Qdiv_le_denominator; assumption).
  apply (Qdiv_le_1 _ _ Hfmp) in Hpb. apply (Qdiv_le_1 _ _ Hfvp) in Hps.
  split; [apply (Qdiv_le_1 _ _ Hfmp) | apply (Qdiv_le_1 _ _ Hfvp)]; lra.
Qed.

Lemma reduced_dims_monotone (self self' : TimberFireCheck.t) :
  FireExposure.exposure (TimberFireCheck.fire self')
    = FireExposure.exposure (TimberFireCheck.fire self) ->
  TimberFireCheck.d_ef self' <= TimberFireCheck.d_ef self ->
  RectangularSection.b (TimberFireCheck.sec self)
    <= RectangularSection.b (TimberFireCheck.sec self') ->
  RectangularSection.h (TimberFireCheck.sec self)
    <= RectangularSection.h (TimberFireCheck.sec self') ->
  ReducedSection.b_fi (TimberFireCheck.get_reduced_section self)
    <= ReducedSection.b_fi (TimberFireCheck.get_reduced_section self') /\
  ReducedSection.h_fi (TimberFireCheck.get_reduced_section self)
    <= ReducedSection.h_fi (TimberFireCheck.get_reduced_section self').
Proof.
  intros He Hd Hb Hh. rewrite !reduced_b_fi, !reduced_h_fi, !max_Qmax, He.
  split; apply Q.max_le_compat_l; [lra|].
  destruct (FireExposure.exposure (TimberFireCheck.fire self)); lra.
Qed.

(** X15.  On valid input the fire checks are monotone in the size of the
    section: if the section enlarged by [delta] passes both fire checks,
    so does the section enlarged by any larger [delta']; and if the given
    section itself passes, every enlargement passes. *)
Theorem larger_enlargement_keeps_pass (material : TimberMaterial.t)
    (section : RectangularSection.t) (load : LoadCase.t)
    (fire : FireExposure.t) :
  0 < TimberMaterial.fm_k material -> 0 < TimberMaterial.fv_k material ->
  0 < RectangularSection.b section -> 0 < RectangularSection.h section ->
  0 <= LoadCase.g_k load -> 0 <= LoadCase.q_k load -> 0 < LoadCase.span load ->
  (forall delta delta' : Z, (0 <= delta <= delta')%Z ->
     enlarged_passes material section load fire delta = true ->
     enlarged_passes material section load fire delta' = true) /\
  (forall r, TimberFireCheck.run_all_checks
               (TimberFireCheck.mk material section load fire) = Ok r ->
             TimberFireCheck.all_passed r = true ->
             forall delta : Z, (0 <= delta)%Z ->
               enlarged_passes material section load fire delta = true).
Proof.
  intros Hfm Hfv Hb Hh Hg Hq HL.
  assert (Hnonneg : forall z : Z, (0 <= z)%Z -> 0 <= inject_Z z).
  { intros z Hz. change 0 with (inject_Z 0). now rewrite <- Zle_Qle. }
  assert (Hstep : forall (self : TimberFireCheck.t) r (delta' : Z),
    TimberFireCheck.mat self = material -> TimberFireCheck.load self = load ->
    TimberFireCheck.fire self = fire ->
    RectangularSection.b (TimberFireCheck.sec self)
      <= RectangularSection.b section + inject_Z delta' ->
    RectangularSection.h (TimberFireCheck.sec self)
      <= RectangularSection.h section + inject_Z delta' ->
    (0 <= delta')%Z ->
    TimberFireCheck.run_all_checks self = Ok r ->
    TimberFireCheck.all_passed r = true ->
    enlarged_passes material section load fire delta' = true).
  { intros self r delta' Em El Ef Hbb Hhh Hd' Hr Hp.
    pose proof (Hnonneg delta' Hd') as Hq'.
    unfold enlarged_passes. rewrite RectangularSection_new_Ok by lra.
    set (self' := TimberFireCheck.mk material
                    (RectangularSection.mk
                       (RectangularSection.b section + inject_Z delta')
                       (RectangularSection.h section + inject_Z delta'))
                    load fire).
    destruct (reduced_dims_monotone self self') as [H1 H2].
    { simpl. now rewrite Ef. }
    { unfold TimberFireCheck.d_ef, TimberFireCheck.d_char, TimberFireCheck.beta.
      simpl. rewrite Em, Ef. lra. }
    { exact Hbb. }
    { exact Hhh. }
    destruct (fire_pass_monotone self self' r) as (r' & Hr' & Hp');
      try (rewrite ?Em, ?El; simpl; auto; lra); try assumption.
    now rewrite Hr'. }
  split.
  - intros delta delta' [Hd0 Hdd] Hpass.
    pose proof (Hnonneg delta Hd0) as Hq0.
    assert (Hle : inject_Z delta <= inject_Z delta') by now rewrite <- Zle_Qle.
    unfold enlarged_passes in Hpass.
    rewrite RectangularSection_new_Ok in Hpass by lra.
    destruct (TimberFireCheck.run_all_checks _) as [r|e] eqn:Hr in Hpass;
      [|discriminate].
    apply (Hstep (TimberFireCheck.mk material
                    (RectangularSection.mk
                       (RectangularSection.b section + inject_Z delta)
                       (RectangularSection.h section + inject_Z delta))
                    load fire) r delta' eq_refl eq_refl eq_refl); simpl;
      try assumption; try lra; lia.
  - intros r Hr Hp delta Hd.
    pose proof (Hnonneg delta Hd) as Hq0.
    apply (Hstep (TimberFireCheck.mk material section load fire) r delta
             eq_refl eq_refl eq_refl); simpl; try assumption; lra.
Qed.

Lemma larger_enlargement_keeps_pass_witness :
  enlarged_passes C24 (RectangularSection.mk 60 100) load_2_5_5 fire_R30 200 = true.
Proof.
  refine (proj1 (larger_enlargement_keeps_pass C24 (RectangularSection.mk 60 100)
                   load_2_5_5 fire_R30 _ _ _ _ _ _ _) 110%Z 200%Z _ _);
    try reflexivity; try discriminate.
  lia.
Defined.

(** X16.  On valid input fire resistance is monotone in the exposure: a
    beam that passes both fire checks for a duration [t2] passes them for
    every shorter duration [t1 <= t2] (same exposure and charring rate),
    and a beam that passes under four-sided exposure for a non-negative
    duration passes under three-sided exposure. *)
Theorem milder_fire_keeps_pass (material : TimberMaterial.t)
    (section : RectangularSection.t) (load : LoadCase.t)
    (exposure : ExposureType) (use_beta_n : bool) (t1 t2 : Z)
    (r : TimberFireCheck.results) :
  0 < TimberMaterial.fm_k material -> 0 < TimberMaterial.fv_k material ->
  0 <= LoadCase.g_k load -> 0 <= LoadCase.q_k load -> 0 < LoadCase.span load ->
  (t1 <= t2)%Z ->
  TimberFireCheck.run_all_checks
    (TimberFireCheck.mk material section load
       (FireExposure.mk t2 exposure use_beta_n)) = Ok r ->
  TimberFireCheck.all_passed r = true ->
  (exists r1,
     TimberFireCheck.run_all_checks
       (TimberFireCheck.mk material section load
          (FireExposure.mk t1 exposure use_beta_n)) = Ok r1 /\
     TimberFireCheck.all_passed r1 = true) /\
  ((0 <= t2)%Z ->
   exists r3,
     TimberFireCheck.run_all_checks
       (TimberFireCheck.mk material section load
          (FireExposure.mk t2 three_sides use_beta_n)) = Ok r3 /\
     TimberFireCheck.all_passed r3 = true).
Proof.
  intros Hfm Hfv Hg Hq HL Ht Hr Hp.
  set (self := TimberFireCheck.mk material section load
                 (FireExposure.mk t2 exposure use_beta_n)) in *.
  pose proof (beta_pos self) as Hbeta.
  assert (Ht12 : inject_Z t1 <= inject_Z t2) by now rewrite <- Zle_Qle.
  split.
  - set (self1 := TimberFireCheck.mk material section load
                    (FireExposure.mk t1 exposure use_beta_n)).
    assert (Hd : TimberFireCheck.d_ef self1 <= TimberFireCheck.d_ef self).
    { unfold TimberFireCheck.d_ef, TimberFireCheck.d_char. simpl.
      change (TimberFireCheck.beta self1) with (TimberFireCheck.beta self).
      nra. }
    destruct (reduced_dims_monotone self self1 eq_refl Hd) as [H1 H2];
      [simpl; lra | simpl; lra |].
    apply (fire_pass_monotone self self1 r); simpl; try assumption;
      try reflexivity; lra.
  - intro Ht2.
    assert (Hq2 : 0 <= inject_Z t2).
    { change 0 with (inject_Z 0). now rewrite <- Zle_Qle. }
    set (self3 := TimberFireCheck.mk material section load
                    (FireExposure.mk t2 three_sides use_beta_n)).
    assert (Hd0 : 0 <= TimberFireCheck.d_ef self).
    { unfold TimberFireCheck.d_ef, TimberFireCheck.d_char, D0. simpl.
      setoid_replace 7.0 with 7 by reflexivity. nra. }
    assert (Hdims :
      ReducedSection.b_fi (TimberFireCheck.get_reduced_section self)
        <= ReducedSection.b_fi (TimberFireCheck.get_reduced_section self3) /\
      ReducedSection.h_fi (TimberFireCheck.get_reduced_section self)
        <= ReducedSection.h_fi (TimberFireCheck.get_reduced_section self3)).
    { rewrite !reduced_b_fi, !reduced_h_fi, !max_Qmax. simpl.
      change (TimberFireCheck.d_ef self3) with (TimberFireCheck.d_ef self).
      split; apply Q.max_le_compat_l; [lra|].
      destruct exposure; lra. }
    destruct Hdims as [H1 H2].
    apply (fire_pass_monotone self self3 r); simpl; try assumption;
      try reflexivity; lra.
Qed.

Lemma milder_fire_keeps_pass_witness :
  exists r1,
    TimberFireCheck.run_all_checks
      (TimberFireCheck.mk C24 section_160x400 load_2_5_5
         (FireExposure.mk 15 three_sides true)) = Ok r1 /\
    TimberFireCheck.all_passed r1 = true.
Proof.
  destruct (TimberFireCheck.run_all_checks fire_check_R30) as [r|e] eqn:Hr;
    [|vm_compute in Hr; discriminate].
  refine (proj1 (milder_fire_keeps_pass C24 section_160x400 load_2_5_5
                   three_sides true 15 30 r _ _ _ _ _ _ Hr _));
    try reflexivity; try discriminate.
  vm_compute in Hr. injection Hr as <-. reflexivity.
Defined.

(* ===================================================================== *)
(** ** What a returned suggestion guarantees (src/fire_check.py)          *)
(* ===================================================================== *)

Lemma find_Some_sorted (f : Z -> bool) (l : list Z) (d : Z) :
  Sorted Z.lt l -> find f l = Some d ->
  In d l /\ f d = true /\
  (forall d', In d' l -> (d' < d)%Z -> f d' = false).
Proof.
  intro Hs. apply Sorted_StronglySorted in Hs;
    [|exact Z.lt_strorder.(StrictOrder_Transitive)].
  induction Hs as [|a l Hs IH Ha]; simpl; intro H; [discriminate|].
  rewrite Forall_forall in Ha.
  destruct (f a) eqn:E.
  - injection H as <-. split; [now left|]. split; [exact E|].
    intros d' [<- | Hin] Hlt; [lia|]. specialize (Ha d' Hin). lia.
  - destruct (IH H) as (Hin & Hd & Hbefore).
    split; [now right|]. split; [exact Hd|].
    intros d' [<- | Hin'] Hlt; [exact E | now apply Hbefore].
Qed.

(** X17.  On a valid material and section, whatever
    [required_fire_resistance] returns is the result of the fire checks on
    the given section, with at most the suggestion added.  A suggestion is
    present only if the given section fails; its increment is one of 10,
    20, ..., 490, its dimensions are the given ones plus the increment, the
    enlarged section passes both fire checks and no smaller probed increment
    does.  Without a suggestion, either the given section passes or no
    probed increment does. *)
Theorem suggestion_is_sound (material : TimberMaterial.t)
    (section : RectangularSection.t) (load : LoadCase.t)
    (target_duration : Z) (exposure : ExposureType)
    (res : TimberFireCheck.results) :
  let fire := FireExposure.new target_duration exposure in
  let passes := enlarged_passes material section load fire in
  0 < TimberMaterial.fm_k material -> 0 < TimberMaterial.fv_k material ->
  0 < RectangularSection.b section -> 0 < RectangularSection.h section ->
  required_fire_resistance material section load target_duration exposure
    = Ok res ->
  exists results,
    TimberFireCheck.run_all_checks
      (TimberFireCheck.mk material section load fire) = Ok results /\
    match TimberFireCheck.suggested_section res with
    | Some s =>
        let delta := TimberFireCheck.suggested_delta s in
        res = set_suggested_section results s /\
        TimberFireCheck.all_passed results = false /\
        (exists k : Z, (1 <= k <= 49)%Z /\ delta = (10 * k)%Z) /\
        TimberFireCheck.suggested_b s = RectangularSection.b section + inject_Z delta /\
        TimberFireCheck.suggested_h s = RectangularSection.h section + inject_Z delta /\
        passes delta = true /\
        (forall k : Z, (1 <= k)%Z -> (10 * k < delta)%Z -> passes (10 * k)%Z = false)
    | None =>
        res = results /\
        (TimberFireCheck.all_passed results = true \/
         forall k : Z, (1 <= k <= 49)%Z -> passes (10 * k)%Z = false)
    end.
Proof.
  intros fire passes Hfm Hfv Hb Hh Hres.
  destruct (fire_run_all_checks_total
              (TimberFireCheck.mk material section load fire) Hfm Hfv)
    as (results & Hrun & Hnone).
  exists results. split; [exact Hrun|].
  unfold required_fire_resistance in Hres. fold fire in Hres.
  rewrite Hrun, bind_Ok in Hres.
  destruct (TimberFireCheck.all_passed results) eqn:Hp.
  - (* the given section passes *)
    cbn [negb] in Hres. injection Hres as <-. rewrite Hnone. auto.
  - cbn [negb] in Hres.
    rewrite probe_increments_find in Hres; try assumption.
    2:{ apply Forall_forall. intros d Hd. apply range_10_500_10_In in Hd.
        destruct Hd as (k & Hk & ->). lia. }
    fold passes in Hres.
    destruct (find passes (Py.range 10 500 10)) as [delta|] eqn:Hfind.
    + injection Hres as <-.
      destruct (find_Some_sorted passes _ delta range_10_500_10_sorted Hfind)
        as (Hin & Hd & Hbefore).
      apply range_10_500_10_In in Hin.
      destruct results. cbn [set_suggested_section TimberFireCheck.suggested_section
                             TimberFireCheck.suggested_delta
                             TimberFireCheck.suggested_b TimberFireCheck.suggested_h].
      split; [reflexivity|]. split; [reflexivity|]. split; [exact Hin|].
      split; [reflexivity|]. split; [reflexivity|]. split; [exact Hd|].
      intros k Hk Hlt. apply Hbefore; [|exact Hlt].
      apply range_10_500_10_In. destruct Hin as (k0 & Hk0 & ->).
      exists k. split; [lia | reflexivity].
    + injection Hres as <-. rewrite Hnone. split; [reflexivity|]. right.
      intros k Hk. apply (find_none _ _ Hfind).
      apply range_10_500_10_In. exists k. split; [exact Hk | reflexivity].
Qed.

Lemma suggestion_is_sound_witness :
  exists res s,
    required_fire_resistance C24 (RectangularSection.mk 60 100) load_2_5_5
      30 three_sides = Ok res /\
    TimberFireCheck.suggested_section res = Some s /\
    enlarged_passes C24 (RectangularSection.mk 60 100) load_2_5_5 fire_R30
      (TimberFireCheck.suggested_delta s) = true.
Proof.
  destruct (required_fire_resistance C24 (RectangularSection.mk 60 100)
              load_2_5_5 30 three_sides) as [res|e] eqn:Hres;
    [|vm_compute in Hres; discriminate].
  destruct (suggestion_is_sound C24 (RectangularSection.mk 60 100) load_2_5_5
              30 three_sides res) as (results & _ & Hs);
    try reflexivity; try exact Hres.
  destruct (TimberFireCheck.suggested_section res) as [s|] eqn:Es.
  - exists res, s. destruct Hs as (_ & _ & _ & _ & _ & Hpass & _).
    split; [reflexivity|]. split; [exact Es | exact Hpass].
  - exfalso. vm_compute in Hres. injection Hres as <-. discriminate Es.
Defined.

(* ===================================================================== *)
(** ** The material database (src/materials.py)                           *)
(* ===================================================================== *)

Lemma db_lookup_setitem_eq (db : database) (k : string) (m : TimberMaterial.t) :
  db_lookup (db_setitem db k m) k = Some m.
Proof.
  induction db as [|[k0 v] rest IH]; simpl.
  - now rewrite String.eqb_refl.
  - destruct (String.eqb k k0) eqn:E; simpl; rewrite E; [reflexivity | exact IH].
Qed.

Lemma db_lookup_setitem_neq (db : database) (k k' : string) (m : TimberMaterial.t) :
  k' <> k -> db_lookup (db_setitem db k m) k' = db_lookup db k'.
Proof.
  intro Hne. induction db as [|[k0 v] rest IH]; simpl.
  - apply String.eqb_neq in Hne. now rewrite Hne.
  - destruct (String.eqb k k0) eqn:E; simpl.
    + apply String.eqb_eq in E. subst k0.
      apply String.eqb_neq in Hne. now rewrite Hne.
    + now rewrite IH.
Qed.

Lemma db_keys_setitem (db : database) (k k' : string) (m : TimberMaterial.t) :
  In k' (map fst (db_setitem db k m)) <-> k' = k \/ In k' (map fst db).
Proof.
  induction db as [|[k0 v] rest IH]; simpl.
  - intuition congruence.
  - destruct (String.eqb k k0) eqn:E; simpl.
    + apply String.eqb_eq in E. subst k0. intuition congruence.
    + rewrite IH. intuition congruence.
Qed.

Lemma db_keys_setitem_NoDup (db : database) (k : string) (m : TimberMaterial.t) :
  NoDup (map fst db) -> NoDup (map fst (db_setitem db k m)).
Proof.
  induction db as [|[k0 v] rest IH]; simpl; intro H.
  - constructor; [intros [] | constructor].
  - destruct (String.eqb k k0) eqn:E; simpl; [exact H|].
    inversion H as [|? ? Hnotin Hrest]; subst. constructor; [|now apply IH].
    rewrite db_keys_setitem. intros [-> | Hin]; [|contradiction].
    now rewrite String.eqb_refl in E.
Qed.

Lemma loaded_bind_inv {A B : Type} (c : loaded A) (k : A -> loaded B) (y : B) :
  loaded_bind c k = Loaded y -> exists x, c = Loaded x /\ k x = Loaded y.
Proof. destruct c; simpl; intro H; [eauto | discriminate]. Qed.

(** A constructed material carries the grade name, the kind of its
    partition and the seven values found in [props]. *)
Lemma material_of_props_Loaded (key : string) (kind : TimberType) (p : props)
    (m : TimberMaterial.t) :
  material_of_props key kind p = Loaded m ->
  TimberMaterial.name m = key /\ TimberMaterial.timber_type m = kind /\
  props_getitem p "fm_k" = Loaded (TimberMaterial.fm_k m) /\
  props_getitem p "ft_0_k" = Loaded (TimberMaterial.ft_0_k m) /\
  props_getitem p "fv_k" = Loaded (TimberMaterial.fv_k m) /\
  props_getitem p "E_0_mean" = Loaded (TimberMaterial.E_0_mean m) /\
  props_getitem p "E_0_05" = Loaded (TimberMaterial.E_0_05 m) /\
  props_getitem p "rho_k" = Loaded (TimberMaterial.rho_k m) /\
  props_getitem p "rho_mean" = Loaded (TimberMaterial.rho_mean m).
Proof.
  unfold material_of_props. intro H.
  repeat (apply loaded_bind_inv in H; destruct H as (? & ? & H)).
  injection H as <-. simpl. repeat split; assumption.
Qed.

Lemma load_partition_Loaded (kind : TimberType) (items : list (string * props))
    (db0 db : database) :
  load_partition kind items db0 = Loaded db ->
  (forall key, In key (map fst db) <->
               In key (map fst db0) \/ In key (map fst items)) /\
  (NoDup (map fst db0) -> NoDup (map fst db)) /\
  (forall key m, db_lookup db key = Some m ->
     (In key (map fst items) /\ TimberMaterial.name m = key /\
      TimberMaterial.timber_type m = kind) \/
     (~ In key (map fst items) /\ db_lookup db0 key = Some m)).
Proof.
  revert db0. induction items as [|[name p] rest IH]; simpl; intros db0 H.
  - injection H as <-. split; [tauto|]. split; [auto|]. intros key m Hl. right. tauto.
  - apply loaded_bind_inv in H. destruct H as (m0 & Hm0 & H).
    apply material_of_props_Loaded in Hm0. destruct Hm0 as (Hn & Hk & _).
    destruct (IH _ H) as (Hkeys & Hnodup & Hlook).
    split; [|split].
    + intro key. rewrite Hkeys, db_keys_setitem. intuition congruence.
    + intro Hnd. apply Hnodup. now apply db_keys_setitem_NoDup.
    + intros key m Hl. destruct (Hlook key m Hl) as [(Hin & Hnm & Hty) | (Hnin & Hl0)].
      * left. auto.
      * destruct (string_dec key name) as [-> | Hne].
        -- rewrite db_lookup_setitem_eq in Hl0. injection Hl0 as <-. left. auto.
        -- rewrite db_lookup_setitem_neq in Hl0 by exact Hne.
           right. split; [|exact Hl0]. intros [E | Hin]; [congruence | contradiction].
Qed.

(** X18.  A database that [load_timber_database] returns has one entry per
    grade name of the two partitions, without duplicate keys.
    [get_material] finds exactly those names, and the material it returns
    carries the looked-up name; it is a glued-laminated grade when the name
    occurs in the glulam partition (which overrides a solid grade of the
    same name) and a solid grade otherwise.  Any other name raises. *)
Theorem loaded_database_lookup (data : yaml_data) (db : database) :
  load_timber_database data = Loaded db ->
  let solid_names := map fst (data_get data "solid_timber") in
  let glulam_names := map fst (data_get data "glulam") in
  NoDup (map fst db) /\
  (forall key, In key (map fst db) <-> In key solid_names \/ In key glulam_names) /\
  (forall key m, get_material db key = Ok m ->
     TimberMaterial.name m = key /\
     (In key glulam_names /\ TimberMaterial.timber_type m = glulam \/
      ~ In key glulam_names /\ In key solid_names /\
      TimberMaterial.timber_type m = solid)) /\
  (forall key, In key solid_names \/ In key glulam_names ->
     exists m, get_material db key = Ok m) /\
  (forall key, ~ In key solid_names -> ~ In key glulam_names ->
     get_material db key = Raise (ValueError (unknown_grade_message db key))).
Proof.
  intros H solid_names glulam_names. unfold load_timber_database in H.
  apply loaded_bind_inv in H. destruct H as (db1 & H1 & H2).
  destruct (load_partition_Loaded _ _ _ _ H1) as (Hk1 & Hn1 & Hl1).
  destruct (load_partition_Loaded _ _ _ _ H2) as (Hk2 & Hn2 & Hl2).
  fold solid_names in Hk1, Hl1. fold glulam_names in Hk2, Hl2.
  assert (Hkeys : forall key, In key (map fst db) <->
                              In key solid_names \/ In key glulam_names).
  { intro key. rewrite Hk2, Hk1. simpl. tauto. }
  split; [apply Hn2, Hn1; constructor|]. split; [exact Hkeys|].
  split; [|split].
  - intros key m Hg. unfold get_material in Hg.
    destruct (db_lookup db key) as [m'|] eqn:El; [|discriminate].
    injection Hg as <-.
    destruct (Hl2 key m' El) as [(Hin & Hnm & Hty) | (Hnin & El1)].
    + split; [exact Hnm | left; auto].
    + destruct (Hl1 key m' El1) as [(Hin & Hnm & Hty) | (_ & Habs)];
        [|discriminate Habs].
      split; [exact Hnm | right; auto].
  - intros key Hin. unfold get_material.
    destruct (db_lookup db key) as [m|] eqn:El; [eauto|].
    apply db_lookup_None in El. exfalso. apply El, Hkeys, Hin.
  - intros key Hs Hg. unfold get_material.
    assert (El : db_lookup db key = None).
    { apply db_lookup_None. rewrite Hkeys. tauto. }
    now rewrite El.
Qed.

Lemma loaded_database_lookup_witness :
  exists db,
    load_timber_database sample_data = Loaded db /\
    get_material db "C24" = Ok C24 /\
    NoDup (map fst db).
Proof.
  destruct (load_timber_database sample_data) as [db|key] eqn:Hl;
    [|vm_compute in Hl; discriminate].
  destruct (loaded_database_lookup sample_data db Hl) as (Hnd & _ & _ & _).
  exists db. split; [reflexivity|]. split; [|exact Hnd].
  vm_compute in Hl. injection Hl as <-. reflexivity.
Defined.









Lemma db_lookup_In (db : database) (k : string) (m : TimberMaterial.t) :
  NoDup (map fst db) -> (db_lookup db k = Some m <-> In (k, m) db).
Proof.
  induction db as [|[k0 v] rest IH]; simpl; intro Hnd.
  - split; [discriminate | tauto].
  - inversion Hnd as [|? ? Hnotin Hrest]; subst.
    destruct (String.eqb k k0) eqn:E.
    + apply String.eqb_eq in E. subst k0. split.
      * intro H. injection H as <-. now left.
      * intros [H | H]; [congruence|].
        exfalso. apply Hnotin. apply (in_map fst) in H. exact H.
    + apply String.eqb_neq in E. rewrite (IH Hrest). split; [tauto|].
      intros [H | H]; [congruence | exact H].
Qed.

Lemma TimberType_eqb_eq (x y : TimberType) : TimberType_eqb x y = true <-> x = y.
Proof. destruct x, y; simpl; split; congruence. Qed.

Lemma list_materials_In (db : database) (kind : TimberType) (n : string) :
  In n (list_materials db (Some kind)) <->
  exists m, In (n, m) db /\ TimberMaterial.timber_type m = kind.
Proof.
  simpl. rewrite in_map_iff. split.
  - intros ([k m] & <- & Hin). apply filter_In in Hin. destruct Hin as [Hin Ht].
    apply TimberType_eqb_eq in Ht. exists m. auto.
  - intros (m & Hin & Ht). exists (n, m). split; [reflexivity|].
    apply filter_In. split; [exact Hin|]. now apply TimberType_eqb_eq.
Qed.

Lemma list_materials_lengths (db : database) :
  (length (list_materials db (Some solid))
   + length (list_materials db (Some glulam)))%nat
  = length (list_materials db None).
Proof.
  simpl. rewrite !length_map.
  induction db as [|[k m] rest IH]; simpl; [reflexivity|].
  destruct (TimberMaterial.timber_type m); simpl; lia.
Qed.

(** X20.  On a database without duplicate keys, [list_materials(None)]
    lists all keys in order, and [list_materials(kind)] lists exactly the
    names that [get_material] resolves to a material of that kind.  Every
    name is in exactly one of the two kind lists, so their lengths add up
    to the number of grades. *)
Theorem list_materials_partition (db : database) :
  NoDup (map fst db) ->
  list_materials db None = map fst db /\
  (forall kind n, In n (list_materials db (Some kind)) <->
     exists m, get_material db n = Ok m /\ TimberMaterial.timber_type m = kind) /\
  (forall n, In n (list_materials db None) <->
     In n (list_materials db (Some solid)) \/
     In n (list_materials db (Some glulam))) /\
  (forall n, ~ (In n (list_materials db (Some solid)) /\
                In n (list_materials db (Some glulam)))) /\
  (length (list_materials db (Some solid))
   + length (list_materials db (Some glulam)))%nat
  = length (list_materials db None).
Proof.
  intro Hnd.
  assert (Hget : forall n m, get_material db n = Ok m <-> In (n, m) db).
  { intros n m. rewrite <- (db_lookup_In db n m Hnd). unfold get_material.
    destruct (db_lookup db n); split; congruence. }
  split; [reflexivity|]. split; [|split; [|split]].
  - intros kind n. rewrite list_materials_In.
    split; intros (m & H & Ht); exists m; split; try assumption; now apply Hget.
  - intro n. rewrite !list_materials_In. simpl. rewrite in_map_iff. split.
    + intros ([k m] & <- & Hin). simpl.
      destruct (TimberMaterial.timber_type m) eqn:Et; [left | right]; eauto.
    + intros [(m & Hin & _) | (m & Hin & _)]; exists (n, m); auto.
  - intros n [H1 H2]. apply list_materials_In in H1, H2.
    destruct H1 as (m1 & Hin1 & Ht1). destruct H2 as (m2 & Hin2 & Ht2).
    apply Hget in Hin1, Hin2. congruence.
  - apply list_materials_lengths.
Qed.

Lemma list_materials_partition_witness :
  exists db,
    load_timber_database sample_data = Loaded db /\
    list_materials db None = ["C24"; "GL24h"]%string /\
    (In "GL24h"%string (list_materials db (Some glulam)) <->
     exists m, get_material db "GL24h" = Ok m /\
               TimberMaterial.timber_type m = glulam).
Proof.
  destruct (load_timber_database sample_data) as [db|key] eqn:Hl;
    [|vm_compute in Hl; discriminate].
  exists db. split; [reflexivity|].
  vm_compute in Hl. injection Hl as <-.
  split; [reflexivity|].
  apply list_materials_partition. simpl.
  repeat constructor; simpl; intuition discriminate.
Defined.

(* ===================================================================== *)
(** ** Unvalidated parameters of the checks                               *)
(* ===================================================================== *)

(** X21.  The effective length factor is not validated.  On otherwise valid
    input a factor of zero makes the critical stress, the buckling check
    and [run_all_checks] raise [ZeroDivisionError]; a negative factor makes
    the critical stress negative, so that [math.sqrt] receives a negative
    argument and the slenderness, the buckling check and [run_all_checks]
    raise [ValueError] (math domain error). *)
Theorem unvalidated_lef_factor (sqrt : Q -> Q) (self : TimberBeamCheck.t) :
  let m := TimberBeamCheck.mat self in
  let s := TimberBeamCheck.sec self in
  0 < TimberMaterial.fm_k m -> 0 < TimberMaterial.fv_k m ->
  0 < TimberMaterial.E_0_05 m ->
  0 < RectangularSection.b s -> 0 < RectangularSection.h s ->
  0 < LoadCase.span (TimberBeamCheck.load self) ->
  (TimberBeamCheck.lef_factor self == 0 ->
     TimberBeamCheck._calc_sigma_m_crit self = Raise ZeroDivisionError /\
     TimberBeamCheck.check_lateral_torsional_buckling sqrt self
       = Raise ZeroDivisionError /\
     TimberBeamCheck.run_all_checks sqrt self = Raise ZeroDivisionError) /\
  (TimberBeamCheck.lef_factor self < 0 ->
     (exists sigma, TimberBeamCheck._calc_sigma_m_crit self = Ok sigma /\ sigma < 0) /\
     TimberBeamCheck._calc_lambda_rel_m sqrt self
       = Raise (ValueError "math domain error") /\
     TimberBeamCheck.check_lateral_torsional_buckling sqrt self
       = Raise (ValueError "math domain error") /\
     TimberBeamCheck.run_all_checks sqrt self
       = Raise (ValueError "math domain error")).
Proof.
  intros m s Hfm Hfv HE5 Hb Hh HL. subst m s.
  pose proof (W_y_pos _ Hb Hh) as HW.
  pose proof (A_pos _ Hb Hh) as HA.
  pose proof (kcr_pos (TimberBeamCheck.mat self)) as Hkcr.
  pose proof (fm_d_pos self Hfm) as Hfmd.
  pose proof (fv_d_pos self Hfv) as Hfvd.
  assert (Hbend : exists rb, TimberBeamCheck.check_bending self = Ok rb).
  { unfold TimberBeamCheck.check_bending.
    rewrite div_Ok by lra. rewrite bind_Ok. rewrite div_Ok by lra.
    rewrite bind_Ok. eauto. }
  assert (Hshear : exists rs, TimberBeamCheck.check_shear self = Ok rs).
  { unfold TimberBeamCheck.check_shear.
    rewrite div_Ok by nra. rewrite bind_Ok. rewrite div_Ok by lra.
    rewrite bind_Ok. eauto. }
  destruct Hbend as (rb & Hbend). destruct Hshear as (rs & Hshear).
  assert (Hrun : forall e,
    TimberBeamCheck.check_lateral_torsional_buckling sqrt self = Raise e ->
    TimberBeamCheck.run_all_checks sqrt self = Raise e).
  { intros e He. unfold TimberBeamCheck.run_all_checks.
    rewrite Hbend, Hshear, !bind_Ok, He. reflexivity. }
  set (num := 0.78 * RectangularSection.b (TimberBeamCheck.sec self) ^ 2
              * TimberMaterial.E_0_05 (TimberBeamCheck.mat self)).
  assert (Hnum : 0 < num).
  { unfold num. rewrite pow2.
    assert (0 < RectangularSection.b (TimberBeamCheck.sec self)
                * RectangularSection.b (TimberBeamCheck.sec self)) by nra.
    nra. }
  split.
  - intro H0.
    assert (Hs : TimberBeamCheck._calc_sigma_m_crit self = Raise ZeroDivisionError).
    { unfold TimberBeamCheck._calc_sigma_m_crit. apply div_Raise. rewrite H0. ring. }
    assert (Hl : TimberBeamCheck.check_lateral_torsional_buckling sqrt self
                 = Raise ZeroDivisionError).
    { unfold TimberBeamCheck.check_lateral_torsional_buckling,
        TimberBeamCheck._calc_kcrit, TimberBeamCheck._calc_lambda_rel_m.
      rewrite Hs. reflexivity. }
    split; [exact Hs|]. split; [exact Hl | exact (Hrun _ Hl)].
  - intro Hneg.
    set (den := RectangularSection.h (TimberBeamCheck.sec self)
                * (TimberBeamCheck.lef_factor self
                   * LoadCase.span (TimberBeamCheck.load self) * 1000)).
    assert (Hden : den < 0).
    { unfold den.
      assert (H1 : TimberBeamCheck.lef_factor self
                   * LoadCase.span (TimberBeamCheck.load self) < 0) by nra.
      nra. }
    assert (Hs : TimberBeamCheck._calc_sigma_m_crit self = Ok (num / den)).
    { unfold TimberBeamCheck._calc_sigma_m_crit. fold num. fold den.
      apply div_Ok. lra. }
    assert (Hsneg : num / den < 0).
    { assert (Hpos : 0 < num / - den) by (apply Qdiv_pos; lra).
      assert (E : num / - den == - (num / den)) by (field; lra).
      lra. }
    assert (Hratio : TimberMaterial.fm_k (TimberBeamCheck.mat self) / (num / den) < 0).
    { set (sg := num / den) in *.
      assert (Hpos : 0 < TimberMaterial.fm_k (TimberBeamCheck.mat self) / - sg)
        by (apply Qdiv_pos; lra).
      assert (E : TimberMaterial.fm_k (TimberBeamCheck.mat self) / - sg
                  == - (TimberMaterial.fm_k (TimberBeamCheck.mat self) / sg))
        by (field; lra).
      lra. }
    assert (Hlam : TimberBeamCheck._calc_lambda_rel_m sqrt self
                   = Raise (ValueError "math domain error")).
    { unfold TimberBeamCheck._calc_lambda_rel_m. rewrite Hs, bind_Ok.
      rewrite div_Ok by lra. rewrite bind_Ok. unfold Py.math_sqrt.
      apply ltb_true in Hratio. now rewrite Hratio. }
    assert (Hl : TimberBeamCheck.check_lateral_torsional_buckling sqrt self
                 = Raise (ValueError "math domain error")).
    { unfold TimberBeamCheck.check_lateral_torsional_buckling,
        TimberBeamCheck._calc_kcrit. rewrite Hlam. reflexivity. }
    split; [exists (num / den); auto|].
    split; [exact Hlam|]. split; [exact Hl | exact (Hrun _ Hl)].
Qed.

Lemma unvalidated_lef_factor_witness :
  TimberBeamCheck.run_all_checks sqrt_approx
    (TimberBeamCheck.mk C24 section_160x400 load_2_5_5 (-1) 300)
  = Raise (ValueError "math domain error").
Proof.
  refine (proj2 (proj2 (proj2 (proj2
            (unvalidated_lef_factor sqrt_approx
               (TimberBeamCheck.mk C24 section_160x400 load_2_5_5 (-1) 300)
               _ _ _ _ _ _) _))));
    reflexivity.
Defined.

(** X22.  A material is not validated either.  With a characteristic
    bending strength of zero the ordinary bending check does not report an
    infinite utilization: on a valid section it raises [ZeroDivisionError],
    and so does [run_all_checks].  The fire bending check on a valid
    reduced section raises in the same way; only on a consumed section does
    it return the infinite-utilization record. *)
Theorem zero_strength_raises (sqrt : Q -> Q) (beam : TimberBeamCheck.t)
    (fire : TimberFireCheck.t) :
  TimberMaterial.fm_k (TimberBeamCheck.mat beam) == 0 ->
  TimberMaterial.fm_k (TimberFireCheck.mat fire) == 0 ->
  0 < RectangularSection.b (TimberBeamCheck.sec beam) ->
  0 < RectangularSection.h (TimberBeamCheck.sec beam) ->
  TimberBeamCheck.check_bending beam = Raise ZeroDivisionError /\
  TimberBeamCheck.run_all_checks sqrt beam = Raise ZeroDivisionError /\
  (ReducedSection.is_valid (TimberFireCheck.get_reduced_section fire) = true ->
     TimberFireCheck.check_bending_fire fire = Raise ZeroDivisionError /\
     TimberFireCheck.run_all_checks fire = Raise ZeroDivisionError) /\
  (ReducedSection.is_valid (TimberFireCheck.get_reduced_section fire) = false ->
     exists r, TimberFireCheck.check_bending_fire fire = Ok r /\
               FireCheckResult.utilization r = Inf).
Proof.
  intros Hb0 Hf0 Hb Hh.
  pose proof (W_y_pos _ Hb Hh) as HW.
  assert (Hfmd : TimberBeamCheck.fm_d beam == 0).
  { unfold TimberBeamCheck.fm_d. rewrite Hb0. unfold Qdiv. ring. }
  assert (Hbend : TimberBeamCheck.check_bending beam = Raise ZeroDivisionError).
  { unfold TimberBeamCheck.check_bending. rewrite div_Ok by lra.
    rewrite bind_Ok. rewrite (div_Raise _ _ Hfmd). reflexivity. }
  split; [exact Hbend|]. split.
  { unfold TimberBeamCheck.run_all_checks. rewrite Hbend. reflexivity. }
  split.
  - intro Hv.
    destruct (valid_reduced_positive _ Hv) as [_ HWfi].
    destruct (eta_fi_total fire) as (eta & He).
    assert (Hfi : TimberFireCheck.fm_d_fi fire == 0).
    { rewrite fm_d_fi_value, Hf0. ring. }
    assert (Hbf : TimberFireCheck.check_bending_fire fire = Raise ZeroDivisionError).
    { unfold TimberFireCheck.check_bending_fire, TimberFireCheck.M_Ed_fi.
      rewrite Hv, He. cbn [negb]. rewrite !bind_Ok.
      rewrite div_Ok by lra. rewrite bind_Ok. rewrite (div_Raise _ _ Hfi).
      reflexivity. }
    split; [exact Hbf|].
    unfold TimberFireCheck.run_all_checks. rewrite Hbf. reflexivity.
  - intro Hv. unfold TimberFireCheck.check_bending_fire. rewrite Hv.
    cbn [negb]. eexists. split; reflexivity.
Qed.

Lemma zero_strength_raises_witness :
  TimberBeamCheck.check_bending
    (TimberBeamCheck.mk (TimberMaterial.mk "none" solid 0 0 4.0 11000 7400 350 420)
       section_160x400 load_2_5_5 1.0 300)
  = Raise ZeroDivisionError.
Proof.
  refine (proj1 (zero_strength_raises sqrt_approx
            (TimberBeamCheck.mk
               (TimberMaterial.mk "none" solid 0 0 4.0 11000 7400 350 420)
               section_160x400 load_2_5_5 1.0 300)
            (TimberFireCheck.mk
               (TimberMaterial.mk "none" solid 0 0 4.0 11000 7400 350 420)
               section_160x400 load_2_5_5 fire_R30) _ _ _ _));
    reflexivity.
Defined.
